(** * code-rag: incremental ingestion and structure-aware chunking

    A shallow embedding of the ingestion core of the repository
    ([src/code_parser.py], [src/git_manager.py], [src/vector_store.py],
    [src/ingestion_service.py], [src/models.py], and the ingest command
    of [cli.py]) together with the properties its specification states
    about it and further properties read off the code.

    Python values are modelled as follows: [str] is [string] (one
    character per code point, code points below 256), [int] is [Z],
    row and byte offsets handed out by tree-sitter are [nat], [Optional]
    is [option], [Set[Path]] is [gset string], [Dict[str, _]] is
    [gmap string _], and a caught exception is an explicit [None] /
    [Raise] result of the operation that throws. *)

From Stdlib Require Import ZArith List String Ascii Bool Lia.
From stdpp Require Import base gmap sets list strings pretty.

Set Warnings "-register-all".
Open Scope string_scope.
Open Scope Z_scope.

(* ===================================================================== *)
(** ** Python string primitives used by the sources *)
(* ===================================================================== *)

Module Py.

(** [len(s)] *)
Definition len (s : string) : Z := Z.of_nat (String.length s).

Definition newline : ascii := "010"%char.
Definition nl : string := String newline "".

(** [s.split('\n')]: never empty, [""] splits into [[""]]. *)
Fixpoint split_nl (s : string) : list string :=
  match s with
  | "" => [""]
  | String c r =>
      if Ascii.eqb c newline then "" :: split_nl r
      else match split_nl r with
           | [] => [String c ""]
           | h :: t => String c h :: t
           end
  end.

(** ['\n'.join(l)] *)
Definition join_nl (l : list string) : string := String.concat nl l.

(** [l[a:b]] for non-negative bounds (out-of-range bounds are clamped). *)
Definition slice {A} (l : list A) (a b : nat) : list A :=
  take (b - a)%nat (drop a l).

(** [str.isspace] on one character (code points below 256). *)
Definition isspace (c : ascii) : bool :=
  let n := nat_of_ascii c in
  ((9 <=? n) && (n <=? 13) || (28 <=? n) && (n <=? 32)
   || (n =? 133) || (n =? 160))%nat.

Fixpoint lstrip (s : string) : string :=
  match s with
  | "" => ""
  | String c r => if isspace c then lstrip r else s
  end.

Fixpoint rstrip (s : string) : string :=
  match s with
  | "" => ""
  | String c r =>
      match rstrip r with
      | "" => if isspace c then "" else String c ""
      | r' => String c r'
      end
  end.

(** [s.strip()] *)
Definition strip (s : string) : string := rstrip (lstrip s).

(** [sub in s] *)
Fixpoint contains (sub s : string) : bool :=
  String.prefix sub s ||
  match s with
  | "" => false
  | String _ r => contains sub r
  end.

(** [s.replace(old, new)] for a non-empty [old]: occurrences are
    replaced left to right without overlap.  [skip] counts the
    characters of a matched occurrence still to be dropped. *)
Fixpoint replace_from (old new : string) (skip : nat) (s : string) : string :=
  match s with
  | "" => ""
  | String c r =>
      match skip with
      | S k => replace_from old new k r
      | O =>
          if String.prefix old s
          then new ++ replace_from old new (String.length old - 1)%nat r
          else String c (replace_from old new 0%nat r)
      end
  end.

Definition replace (old new s : string) : string := replace_from old new 0%nat s.

(** [s.lower()] on the ASCII letters. *)
Definition lower_char (c : ascii) : ascii :=
  let n := nat_of_ascii c in
  if ((65 <=? n) && (n <=? 90))%nat then ascii_of_nat (n + 32) else c.

Fixpoint lower (s : string) : string :=
  match s with
  | "" => ""
  | String c r => String (lower_char c) (lower r)
  end.

(** [s.rfind(c)] *)
Fixpoint rfind (c : ascii) (s : string) : option nat :=
  match s with
  | "" => None
  | String a r =>
      match rfind c r with
      | Some i => Some (S i)
      | None => if Ascii.eqb a c then Some 0%nat else None
      end
  end.

(** [Path(p).name]: the text after the last ['/']. *)
Definition path_name (p : string) : string :=
  match rfind "/"%char p with
  | Some i => substring (S i) (String.length p - S i) p
  | None => p
  end.

(** [Path(p).suffix], as pathlib computes it from the name:
    [i = name.rfind('.')]; [name[i:]] when [0 < i < len(name) - 1],
    else the empty string. *)
Definition path_suffix (p : string) : string :=
  let name := path_name p in
  match rfind "."%char name with
  | Some i =>
      if ((0 <? i) && (i <? String.length name - 1))%nat
      then substring i (String.length name - i) name
      else ""
  | None => ""
  end.

(** [str(n)] for an [int]. *)
Definition str_of_int (n : Z) : string := pretty n.

(** [s[:n]] *)
Definition str_take (n : nat) (s : string) : string := substring 0 n s.

(** [s.startswith(prefix)] *)
Definition startswith (prefix s : string) : bool := String.prefix prefix s.

(** [s.split(sep, 1)] for a non-empty [sep]: the text before and the
    text after the first occurrence of [sep], or [s] alone when [sep]
    does not occur. *)
Fixpoint split_once (sep s : string) : list string :=
  if String.prefix sep s
  then [ ""; substring (String.length sep)
                       (String.length s - String.length sep) s ]
  else match s with
       | "" => [ "" ]
       | String c r =>
           match split_once sep r with
           | [] => [ s ]
           | [ whole ] => [ String c whole ]
           | before :: after => String c before :: after
           end
       end.

End Py.

(* ===================================================================== *)
(** ** src/models.py *)
(* ===================================================================== *)

Module Models.

Inductive Language := CSHARP | PYTHON | JAVASCRIPT | TYPESCRIPT | JAVA | GO.

Definition Language_eqb (a b : Language) : bool :=
  match a, b with
  | CSHARP, CSHARP | PYTHON, PYTHON | JAVASCRIPT, JAVASCRIPT
  | TYPESCRIPT, TYPESCRIPT | JAVA, JAVA | GO, GO => true
  | _, _ => false
  end.

(** [lang.value] *)
Definition Language_value (l : Language) : string :=
  match l with
  | CSHARP => "csharp" | PYTHON => "python" | JAVASCRIPT => "javascript"
  | TYPESCRIPT => "typescript" | JAVA => "java" | GO => "go"
  end.

Record RepositoryConfig := {
  name : string;
  url : string;
  branch : string;
  local_path : string;
  enabled : bool;
  languages : list Language;
  exclude_patterns : list string
}.

(** Values of the [metadata] dictionary of a chunk. *)
Inductive MetaValue := MStr (s : string) | MInt (n : Z).

(** [CodeChunk].  The [created_at] default (the clock at construction)
    is not carried: no operation of the ingestion core reads it. *)
Record CodeChunk := {
  id : string;
  repo_name : string;
  file_path : string;
  language : Language;
  content : string;
  start_line : Z;
  end_line : Z;
  commit_hash : string;
  chunk_type : string;
  metadata : list (string * MetaValue)
}.

Record RepositoryState := {
  st_repo_name : string;
  last_commit_hash : option string;
  last_processed_at : option Z;
  total_chunks : Z;
  total_files : Z
}.

End Models.

(* ===================================================================== *)
(** ** src/config.py: the two chunking settings *)
(* ===================================================================== *)

Record Settings := {
  max_chunk_size : Z;
  chunk_overlap : Z
}.

(* ===================================================================== *)
(** ** src/code_parser.py *)
(* ===================================================================== *)

Module CodeParser.
Import Models.

(** A tree-sitter node: kind, start and end point (row, column), byte
    span and children. *)
Inductive Node := mkNode {
  node_type : string;
  start_point : nat * nat;
  end_point : nat * nat;
  start_byte : nat;
  end_byte : nat;
  children : list Node
}.

(** A registered parser: [parser.parse(bytes(content, "utf8")).root_node],
    [None] when the call raises. *)
Definition Parser := string -> option Node.

Definition target_types : list string :=
  [ "class_declaration"; "interface_declaration"; "struct_declaration";
    "enum_declaration"; "method_declaration"; "constructor_declaration";
    "property_declaration"; "namespace_declaration" ].

(** [x in l] for a list of strings. *)
Definition str_in (x : string) (l : list string) : bool :=
  existsb (String.eqb x) l.

(** [_extract_name]: text of the first [identifier] child. *)
Definition _extract_name (node : Node) (content : string) : string :=
  match List.find (fun child => String.eqb (node_type child) "identifier")
                  (children node) with
  | Some child =>
      substring (start_byte child) (end_byte child - start_byte child) content
  | None => "anonymous"
  end.

Section WithSettings.
Variable settings : Settings.
(** [hashlib.sha256(s.encode()).hexdigest()] *)
Variable sha256_hexdigest : string -> string.

(** [_generate_chunk_id] *)
Definition _generate_chunk_id
    (repo_name file_path : string) (start_line : Z) (commit_hash : string)
    : string :=
  let content :=
    repo_name ++ ":" ++ file_path ++ ":" ++ Py.str_of_int start_line
              ++ ":" ++ commit_hash in
  Py.str_take 16 (sha256_hexdigest content).

(** The chunk built by [traverse] for an emitted node. *)
Definition node_chunk (node : Node) (content : string)
    (file_path repo_name commit_hash parent_context : string)
    (start_line end_line : nat) (node_content : string) : CodeChunk :=
  let chunk_id :=
    _generate_chunk_id repo_name file_path (Z.of_nat start_line) commit_hash in
  let name := _extract_name node content in
  let context :=
    if String.eqb parent_context "" then name
    else parent_context ++ "." ++ name in
  {| id := chunk_id;
     repo_name := repo_name;
     file_path := file_path;
     language := CSHARP;
     content := node_content;
     start_line := Z.of_nat start_line + 1;
     end_line := Z.of_nat end_line + 1;
     commit_hash := commit_hash;
     chunk_type := node_type node;
     metadata := [ ("name", MStr name); ("context", MStr context);
                   ("byte_size", MInt (Py.len node_content)) ] |}.

(** [_parse_csharp.traverse]: the chunks appended, in order, by one
    call on [node]. *)
Fixpoint traverse (lines : list string) (content : string)
    (file_path repo_name commit_hash : string)
    (node : Node) (parent_context : string) {struct node} : list CodeChunk :=
  match node with
  | mkNode ty sp ep sb eb kids =>
      let descend :=
        flat_map (fun child =>
                    traverse lines content file_path repo_name commit_hash
                             child parent_context) kids in
      if str_in ty target_types then
        let start_line := fst sp in
        let end_line := fst ep in
        let node_content :=
          Py.join_nl (Py.slice lines start_line (end_line + 1)) in
        if Py.len (Py.strip node_content) <? 10 then []
        else if (Py.len node_content >? max_chunk_size settings * 2)
                && str_in ty ["class_declaration"; "namespace_declaration"]
        then descend
        else
          node_chunk node content file_path repo_name commit_hash
                     parent_context start_line end_line node_content
          :: (if str_in ty ["method_declaration"; "property_declaration";
                            "constructor_declaration"]
              then [] else descend)
      else descend
  end.

(** [_parse_csharp] *)
Definition _parse_csharp (root_node : Node) (content : string)
    (file_path repo_name commit_hash : string) : list CodeChunk :=
  let lines := Py.split_nl content in
  traverse lines content file_path repo_name commit_hash root_node "".

(** The nodes on which [traverse] is called, in call order: the
    control flow of the walk, without the chunks. *)
Fixpoint visited (lines : list string) (node : Node) {struct node} : list Node :=
  match node with
  | mkNode ty sp ep sb eb kids =>
      let descend := flat_map (visited lines) kids in
      if str_in ty target_types then
        let node_content :=
          Py.join_nl (Py.slice lines (fst sp) (fst ep + 1)) in
        if Py.len (Py.strip node_content) <? 10 then [node]
        else if (Py.len node_content >? max_chunk_size settings * 2)
                && str_in ty ["class_declaration"; "namespace_declaration"]
        then node :: descend
        else
          node :: (if str_in ty ["method_declaration"; "property_declaration";
                                 "constructor_declaration"]
                   then [] else descend)
      else node :: descend
  end.

(** The chunk built by [_simple_chunking] from the buffered lines. *)
Definition window_chunk (file_path repo_name commit_hash : string)
    (language : Language) (current_chunk : list string)
    (start_line end_line : Z) : CodeChunk :=
  let chunk_content := Py.join_nl current_chunk in
  {| id := _generate_chunk_id repo_name file_path start_line commit_hash;
     repo_name := repo_name;
     file_path := file_path;
     language := language;
     content := chunk_content;
     start_line := start_line + 1;
     end_line := end_line;
     commit_hash := commit_hash;
     chunk_type := "simple_chunk";
     metadata := [ ("byte_size", MInt (Py.len chunk_content)) ] |}.

(** The overlap loop: [j] runs from the last buffered line backwards
    ([rev_chunk] is the buffer reversed) until a line no longer fits
    the overlap budget. *)
Fixpoint overlap_loop (overlap : Z) (rev_chunk : list string)
    (overlap_lines : list string) (overlap_size : Z)
    : list string * Z :=
  match rev_chunk with
  | [] => (overlap_lines, overlap_size)
  | l :: rest =>
      let line_len := Py.len l + 1 in
      if overlap_size + line_len <=? overlap
      then overlap_loop overlap rest (l :: overlap_lines) (overlap_size + line_len)
      else (overlap_lines, overlap_size)
  end.

(** The local variables of [_simple_chunking]'s main loop. *)
Record Window := {
  chunks : list CodeChunk;
  current_chunk : list string;
  current_size : Z;
  w_start_line : Z
}.

(** One iteration of [for i, line in enumerate(lines)]. *)
Definition window_step (file_path repo_name commit_hash : string)
    (language : Language) (st : Window) (i : nat) (line : string) : Window :=
  let chunk_size := max_chunk_size settings in
  let overlap := chunk_overlap settings in
  let line_size := Py.len line + 1 in
  let st' :=
    if (current_size st + line_size >? chunk_size)
       && negb (Nat.eqb (List.length (current_chunk st)) 0)
    then
      let chunk :=
        window_chunk file_path repo_name commit_hash language
                     (current_chunk st) (w_start_line st) (Z.of_nat i) in
      let '(overlap_lines, overlap_size) :=
        overlap_loop overlap (rev (current_chunk st)) [] 0 in
      {| chunks := chunks st ++ [chunk];
         current_chunk := overlap_lines;
         current_size := overlap_size;
         w_start_line := Z.of_nat i - Z.of_nat (List.length overlap_lines) |}
    else st in
  {| chunks := chunks st';
     current_chunk := current_chunk st' ++ [line];
     current_size := current_size st' + line_size;
     w_start_line := w_start_line st' |}.

Fixpoint window_loop (file_path repo_name commit_hash : string)
    (language : Language) (i : nat) (lines : list string) (st : Window)
    : Window :=
  match lines with
  | [] => st
  | line :: rest =>
      window_loop file_path repo_name commit_hash language (S i) rest
                  (window_step file_path repo_name commit_hash language st i line)
  end.

(** [_simple_chunking] *)
Definition _simple_chunking (content : string)
    (file_path repo_name commit_hash : string) (language : Language)
    : list CodeChunk :=
  let lines := Py.split_nl content in
  let st :=
    window_loop file_path repo_name commit_hash language 0%nat lines
                {| chunks := []; current_chunk := [];
                   current_size := 0; w_start_line := 0 |} in
  if negb (Nat.eqb (List.length (current_chunk st)) 0)
  then chunks st ++
       [ window_chunk file_path repo_name commit_hash language
                      (current_chunk st) (w_start_line st)
                      (Z.of_nat (List.length lines)) ]
  else chunks st.

(** [parse_file].  [parsers] is the registry filled by
    [_initialize_parsers] (only C# is ever registered, and the
    registration itself may fail). *)
Definition parse_file (parsers : Language -> option Parser)
    (content : string) (file_path repo_name commit_hash : string)
    (language : Language) : list CodeChunk :=
  match parsers language with
  | None =>
      _simple_chunking content file_path repo_name commit_hash language
  | Some parser =>
      match parser content with
      | Some root_node =>
          let chunks :=
            if Language_eqb language CSHARP
            then _parse_csharp root_node content file_path repo_name commit_hash
            else [] in
          match chunks with
          | [] => _simple_chunking content file_path repo_name commit_hash language
          | _ => chunks
          end
      | None =>
          _simple_chunking content file_path repo_name commit_hash language
      end
  end.

End WithSettings.

End CodeParser.

(* ===================================================================== *)
(** ** src/git_manager.py *)
(* ===================================================================== *)

Module GitManager.
Import Models.

(** An entry of [repo.tree().traverse()]. *)
Record TreeItem := {
  item_type : string;
  item_path : string
}.

(** An entry of [old_commit_obj.diff(current_commit_obj)].  GitPython
    fills both paths for every change type. *)
Record DiffItem := {
  a_path : string;
  b_path : string;
  change_type : string
}.

(** What the working copy answers to the calls [GitManager] makes on
    it.  A [false] / [None] answer stands for the call raising. *)
Record GitRepo := {
  clone_or_open : bool;
  pull_latest : option bool;
  head_commit : string;
  tree_items : list TreeItem;
  diff : string -> option (list DiffItem);
  get_file_content : string -> option string
}.

Definition language_extensions (value : string) : list string :=
  if String.eqb value "csharp" then [".cs"]
  else if String.eqb value "python" then [".py"]
  else if String.eqb value "javascript" then [".js"; ".jsx"]
  else if String.eqb value "typescript" then [".ts"; ".tsx"]
  else if String.eqb value "java" then [".java"]
  else if String.eqb value "go" then [".go"]
  else [].

(** [_should_process_file]: the path-admission predicate. *)
Definition _should_process_file (config : RepositoryConfig) (file_path : string)
    : bool :=
  let suffix := Py.lower (Py.path_suffix file_path) in
  let valid_extensions :=
    flat_map (fun lang => language_extensions (Language_value lang))
             (languages config) in
  if negb (CodeParser.str_in suffix valid_extensions) then false
  else
    forallb (fun pattern =>
               let pattern_clean :=
                 Py.replace "/*" "" (Py.replace "*/" "" pattern) in
               negb (Py.contains pattern_clean file_path))
            (exclude_patterns config).

(** The loop over [repo.tree().traverse()] adding every admissible blob
    to [added_files]. *)
Definition add_all_files (config : RepositoryConfig) (items : list TreeItem)
    (added_files : gset string) : gset string :=
  fold_left (fun acc item =>
               if String.eqb (item_type item) "blob"
                  && _should_process_file config (item_path item)
               then acc ∪ {[ item_path item ]}
               else acc)
            items added_files.

(** One iteration of [for diff_item in diff_index]. *)
Definition diff_step (config : RepositoryConfig)
    (acc : gset string * gset string * gset string) (diff_item : DiffItem)
    : gset string * gset string * gset string :=
  let '(added_files, modified_files, deleted_files) := acc in
  let file_path :=
    if String.eqb (a_path diff_item) "" then b_path diff_item
    else a_path diff_item in
  if negb (_should_process_file config file_path) then acc
  else if String.eqb (change_type diff_item) "A"
  then (added_files ∪ {[ file_path ]}, modified_files, deleted_files)
  else if String.eqb (change_type diff_item) "M"
  then (added_files, modified_files ∪ {[ file_path ]}, deleted_files)
  else if String.eqb (change_type diff_item) "D"
  then (added_files, modified_files, deleted_files ∪ {[ file_path ]})
  else if String.eqb (change_type diff_item) "R"
  then (added_files ∪ {[ b_path diff_item ]}, modified_files,
        deleted_files ∪ {[ a_path diff_item ]})
  else acc.

(** [get_changed_files].  The [except] branch runs when
    [repo.commit(old_commit)] or [.diff(...)] raises, before the loop
    has touched the three sets. *)
Definition get_changed_files (config : RepositoryConfig) (repo : GitRepo)
    (old_commit : option string)
    : gset string * gset string * gset string :=
  match old_commit with
  | None => (add_all_files config (tree_items repo) ∅, ∅, ∅)
  | Some old =>
      if String.eqb old ""
      then (add_all_files config (tree_items repo) ∅, ∅, ∅)
      else
        match diff repo old with
        | Some diff_index => fold_left (diff_step config) diff_index (∅, ∅, ∅)
        | None => (add_all_files config (tree_items repo) ∅, ∅, ∅)
        end
  end.

(** [get_all_files]: the admissible blobs of the tree, in tree order. *)
Definition get_all_files (config : RepositoryConfig) (repo : GitRepo)
    : list string :=
  flat_map (fun item =>
              if String.eqb (item_type item) "blob"
                 && _should_process_file config (item_path item)
              then [ item_path item ]
              else [])
           (tree_items repo).

(** [_get_authenticated_url]; [git_token] is [settings.git_token]. *)
Definition _get_authenticated_url (git_token : option string)
    (config : RepositoryConfig) : string :=
  let url := Models.url config in
  match git_token with
  | Some token =>
      if negb (String.eqb token "") && Py.startswith "https://" url
      then match Py.split_once "://" url with
           | [ scheme; rest ] => scheme +:+ "://" +:+ token +:+ "@" +:+ rest
           | _ => url
           end
      else url
  | None => url
  end.

End GitManager.

(* ===================================================================== *)
(** ** src/vector_store.py *)
(* ===================================================================== *)

Module VectorStore.
Import Models.

(** The flat metadata dictionary stored with each chunk. *)
Record Metadata := {
  m_repo_name : string;
  m_file_path : string;
  m_language : string;
  m_start_line : Z;
  m_end_line : Z;
  m_commit_hash : string;
  m_chunk_type : string;
  m_name : option MetaValue;
  m_context : option MetaValue
}.

(** A stored record.  The embedding vector is not carried: ingestion
    never reads it back. *)
Record Entry := {
  document : string;
  meta : Metadata
}.

(** Modelled from the spec: the ChromaDB collection behind
    [self.collection], which is a third-party store.  Section 6 of the
    specification gives its contract: records are keyed by chunk
    identifier, deletion is by identifier, and inserting an identifier
    that is already present is a no-op.  [reachable = false] stands for
    a backend whose calls raise. *)
Record Collection := {
  entries : gmap string Entry;
  reachable : bool
}.

(** Modelled from the spec: [collection.get(where=...)["ids"]], the
    identifiers of the records whose metadata satisfy the filter. *)
Definition collection_get (c : Collection) (where_ : Metadata -> bool)
    : option (list string) :=
  if reachable c
  then Some (map fst (List.filter (fun kv => where_ (meta (snd kv)))
                                  (map_to_list (entries c))))
  else None.

(** Modelled from the spec: [collection.delete(ids=...)], which removes
    the records with these identifiers. *)
Definition collection_delete (c : Collection) (ids : list string)
    : option Collection :=
  if reachable c
  then Some {| entries := fold_right delete (entries c) ids;
               reachable := reachable c |}
  else None.

(** Modelled from the spec: what [collection.add] does with one record;
    an identifier already present is left as it is. *)
Definition add_record (m : gmap string Entry) (r : string * Entry)
    : gmap string Entry :=
  match m !! fst r with
  | Some _ => m
  | None => <[ fst r := snd r ]> m
  end.

(** Modelled from the spec:
    [collection.add(ids=..., documents=..., metadatas=...)], record by
    record in the order given. *)
Definition collection_add (c : Collection) (records : list (string * Entry))
    : option Collection :=
  if reachable c
  then Some {| entries := fold_left add_record records (entries c);
               reachable := reachable c |}
  else None.

(** [key in chunk.metadata] / [chunk.metadata[key]] *)
Fixpoint metadata_get (key : string) (md : list (string * MetaValue))
    : option MetaValue :=
  match md with
  | [] => None
  | (k, v) :: rest => if String.eqb k key then Some v else metadata_get key rest
  end.

Definition meta_text (v : MetaValue) : string :=
  match v with
  | MStr s => s
  | MInt n => Py.str_of_int n
  end.

(** [_prepare_chunk_text] *)
Definition _prepare_chunk_text (chunk : CodeChunk) : string :=
  let head :=
    [ "Repository: " +:+ repo_name chunk;
      "File: " +:+ file_path chunk;
      "Language: " +:+ Language_value (language chunk);
      "Type: " +:+ chunk_type chunk ] in
  let name_part :=
    match metadata_get "name" (metadata chunk) with
    | Some v => [ "Name: " +:+ meta_text v ]
    | None => []
    end in
  let context_part :=
    match metadata_get "context" (metadata chunk) with
    | Some v => [ "Context: " +:+ meta_text v ]
    | None => []
    end in
  let code_part := [ Py.nl +:+ "Code:" +:+ Py.nl +:+ content chunk ] in
  Py.join_nl (app head (app name_part (app context_part code_part))).

Definition chunk_metadata (chunk : CodeChunk) : Metadata :=
  {| m_repo_name := repo_name chunk;
     m_file_path := file_path chunk;
     m_language := Language_value (language chunk);
     m_start_line := start_line chunk;
     m_end_line := end_line chunk;
     m_commit_hash := commit_hash chunk;
     m_chunk_type := chunk_type chunk;
     m_name := metadata_get "name" (metadata chunk);
     m_context := metadata_get "context" (metadata chunk) |}.

Section WithEmbedder.
(** [_get_embedding] after its retries: [true] when a vector came
    back for the text, [false] when the call raised. *)
Variable _get_embedding : string -> bool.

(** The records [add_chunks] prepares: chunks whose embedding call
    raises are skipped. *)
Definition prepare_records (chunks : list CodeChunk) : list (string * Entry) :=
  flat_map (fun chunk =>
              if _get_embedding (_prepare_chunk_text chunk)
              then [ (id chunk,
                      {| document := content chunk;
                         meta := chunk_metadata chunk |}) ]
              else [])
           chunks.

(** [add_chunks]: the collection afterwards and the count returned. *)
Definition add_chunks (c : Collection) (chunks : list CodeChunk)
    : Collection * Z :=
  match chunks with
  | [] => (c, 0)
  | _ =>
      match prepare_records chunks with
      | [] => (c, 0)
      | records =>
          match collection_add c records with
          | Some c' => (c', Z.of_nat (List.length records))
          | None => (c, 0)
          end
      end
  end.

End WithEmbedder.

(** The shared body of the two deletion methods. *)
Definition delete_where (c : Collection) (where_ : Metadata -> bool)
    : Collection * Z :=
  match collection_get c where_ with
  | None => (c, 0)
  | Some [] => (c, 0)
  | Some ids =>
      match collection_delete c ids with
      | Some c' => (c', Z.of_nat (List.length ids))
      | None => (c, 0)
      end
  end.

(** [delete_chunks_by_file] *)
Definition delete_chunks_by_file (c : Collection) (repo_name file_path : string)
    : Collection * Z :=
  delete_where c (fun m => String.eqb (m_repo_name m) repo_name
                           && String.eqb (m_file_path m) file_path).

(** [delete_chunks_by_repo] *)
Definition delete_chunks_by_repo (c : Collection) (repo_name : string)
    : Collection * Z :=
  delete_where c (fun m => String.eqb (m_repo_name m) repo_name).

(** The stored identifiers whose record belongs to a (repository, path). *)
Definition ids_of_file (c : Collection) (repo_name file_path : string)
    : gset string :=
  dom (filter (fun kv => m_repo_name (meta (snd kv)) = repo_name
                         /\ m_file_path (meta (snd kv)) = file_path)
              (entries c)).

(** The number of stored chunks of a (repository, path). *)
Definition count_of_file (c : Collection) (repo_name file_path : string) : nat :=
  size (ids_of_file c repo_name file_path).

(** Modelled from the spec: [collection.count()], the number of records
    the keyed store of section 6 holds; the call raises when the
    backend does. *)
Definition collection_count (c : Collection) : option Z :=
  if reachable c then Some (Z.of_nat (size (entries c))) else None.

(** The dictionary [get_stats] returns: ["total_chunks"], and either
    ["collection_name"] or ["error"]. *)
Record StoreStats := {
  stats_total_chunks : Z;
  stats_collection_name : option string;
  stats_error : bool
}.

(** [get_stats] *)
Definition get_stats (c : Collection) : StoreStats :=
  match collection_count c with
  | Some count =>
      {| stats_total_chunks := count;
         stats_collection_name := Some "code_chunks";
         stats_error := false |}
  | None =>
      {| stats_total_chunks := 0;
         stats_collection_name := None;
         stats_error := true |}
  end.

End VectorStore.

(* ===================================================================== *)
(** ** src/ingestion_service.py *)
(* ===================================================================== *)

Module IngestionService.
Import Models.

(** A call either returns or propagates an exception to its caller. *)
Inductive Result (A : Type) :=
| Ok (value : A)
| Raise (error : string).
Arguments Ok {A} value.
Arguments Raise {A} error.

(** The [stats] dictionary of [process_repository]. *)
Record Stats := {
  files_processed : Z;
  files_added : Z;
  files_modified : Z;
  files_deleted : Z;
  chunks_added : Z;
  chunks_deleted : Z
}.

Definition zero_stats : Stats :=
  {| files_processed := 0; files_added := 0; files_modified := 0;
     files_deleted := 0; chunks_added := 0; chunks_deleted := 0 |}.

(** What [ingestion_state.json] holds: a serialised state map, or
    whatever an interrupted write left behind. *)
Inductive StateFile :=
| Absent
| Saved (states : gmap string RepositoryState)
| Truncated.

(** How the write inside [_save_states] goes: it completes, [open]
    raises (the file is untouched), or [json.dump] raises after [open]
    has emptied the file. *)
Inductive WriteOutcome := WriteCompletes | OpenRaises | DumpRaises.

(** [self.vector_store], [self.states] and the state file. *)
Record Service := {
  vector_store : VectorStore.Collection;
  states : gmap string RepositoryState;
  state_file : StateFile
}.

(** [_save_states]: every exception is caught and logged, so the call
    always returns; only the file differs. *)
Definition _save_states (outcome : WriteOutcome) (svc : Service) : Service :=
  {| vector_store := vector_store svc;
     states := states svc;
     state_file :=
       match outcome with
       | WriteCompletes => Saved (states svc)
       | OpenRaises => state_file svc
       | DumpRaises => Truncated
       end |}.

(** [_load_states]: a missing file gives the empty map, and so does a
    file [json.load] cannot read (the exception is caught and logged). *)
Definition _load_states (file : StateFile) : gmap string RepositoryState :=
  match file with
  | Absent => ∅
  | Saved states => states
  | Truncated => ∅
  end.

(** [__init__]: the service a fresh process builds over the store and
    the state file it finds. *)
Definition __init__ (store : VectorStore.Collection) (file : StateFile)
    : Service :=
  {| vector_store := store;
     states := _load_states file;
     state_file := file |}.

(** [get_repository_state] *)
Definition get_repository_state (svc : Service) (repo_name : string)
    : option RepositoryState :=
  states svc !! repo_name.

(** [get_all_states] *)
Definition get_all_states (svc : Service) : gmap string RepositoryState :=
  states svc.

(** [_detect_language] *)
Definition _detect_language (file_path : string) : option Language :=
  let suffix := Py.lower (Py.path_suffix file_path) in
  if String.eqb suffix ".cs" then Some CSHARP
  else if String.eqb suffix ".py" then Some PYTHON
  else if String.eqb suffix ".js" then Some JAVASCRIPT
  else if String.eqb suffix ".jsx" then Some JAVASCRIPT
  else if String.eqb suffix ".ts" then Some TYPESCRIPT
  else if String.eqb suffix ".tsx" then Some TYPESCRIPT
  else if String.eqb suffix ".java" then Some JAVA
  else if String.eqb suffix ".go" then Some GO
  else None.

Section WithEnvironment.
Variable settings : Settings.
Variable sha256_hexdigest : string -> string.
Variable parsers : Language -> option CodeParser.Parser.
Variable _get_embedding : string -> bool.
(** [datetime.utcnow()] at the state update. *)
Variable utcnow : Z.
Variable write_outcome : WriteOutcome.

(** One iteration of [for file_path in deleted_files]. *)
Definition retire_file (repo_config : RepositoryConfig)
    (acc : Stats * VectorStore.Collection) (file_path : string)
    : Stats * VectorStore.Collection :=
  let '(stats, store) := acc in
  let '(store', deleted_count) :=
    VectorStore.delete_chunks_by_file store (name repo_config) file_path in
  ({| files_processed := files_processed stats;
      files_added := files_added stats;
      files_modified := files_modified stats;
      files_deleted := files_deleted stats + 1;
      chunks_added := chunks_added stats;
      chunks_deleted := chunks_deleted stats + deleted_count |},
   store').

(** One iteration of [for file_path in files_to_process]. *)
Definition process_file (repo_config : RepositoryConfig)
    (git_manager : GitManager.GitRepo) (current_commit : string)
    (modified_files : gset string)
    (acc : Stats * VectorStore.Collection) (file_path : string)
    : Stats * VectorStore.Collection :=
  let '(stats, store) := acc in
  match _detect_language file_path with
  | None => acc
  | Some language =>
      match GitManager.get_file_content git_manager file_path with
      | None => acc
      | Some content =>
          if String.eqb content "" then acc
          else
            let '(stats1, store1) :=
              if bool_decide (file_path ∈ modified_files)
              then
                let '(store', deleted_count) :=
                  VectorStore.delete_chunks_by_file
                    store (name repo_config) file_path in
                ({| files_processed := files_processed stats;
                    files_added := files_added stats;
                    files_modified := files_modified stats + 1;
                    files_deleted := files_deleted stats;
                    chunks_added := chunks_added stats;
                    chunks_deleted := chunks_deleted stats + deleted_count |},
                 store')
              else
                ({| files_processed := files_processed stats;
                    files_added := files_added stats + 1;
                    files_modified := files_modified stats;
                    files_deleted := files_deleted stats;
                    chunks_added := chunks_added stats;
                    chunks_deleted := chunks_deleted stats |},
                 store) in
            let chunks :=
              CodeParser.parse_file settings sha256_hexdigest parsers
                content file_path (name repo_config) current_commit language in
            match chunks with
            | [] => (stats1, store1)
            | _ =>
                let '(store2, added_count) :=
                  VectorStore.add_chunks _get_embedding store1 chunks in
                ({| files_processed := files_processed stats1 + 1;
                    files_added := files_added stats1;
                    files_modified := files_modified stats1;
                    files_deleted := files_deleted stats1;
                    chunks_added := chunks_added stats1 + added_count;
                    chunks_deleted := chunks_deleted stats1 |},
                 store2)
            end
      end
  end.

(** Truthiness of an [Optional] holding an object. *)
Definition truthy {A} (o : option A) : bool :=
  match o with Some _ => true | None => false end.

(** [state.last_commit_hash if state and not force_full_reindex else None] *)
Definition old_commit_of (state : option RepositoryState)
    (force_full_reindex : bool) : option string :=
  match state with
  | Some s => if force_full_reindex then None else last_commit_hash s
  | None => None
  end.

(** [process_repository]: the value returned (or the exception
    re-raised) and the service afterwards. *)
Definition process_repository (svc : Service)
    (repo_config : RepositoryConfig) (git_manager : GitManager.GitRepo)
    (force_full_reindex : bool) : Result Stats * Service :=
  if negb (GitManager.clone_or_open git_manager)
  then (Raise "clone_or_open", svc)
  else
    match GitManager.pull_latest git_manager with
    | None => (Raise "pull_latest", svc)
    | Some has_changes =>
        let current_commit := GitManager.head_commit git_manager in
        let state := states svc !! name repo_config in
        if negb force_full_reindex && truthy state && negb has_changes
        then (Ok zero_stats, svc)
        else
          let old_commit := old_commit_of state force_full_reindex in
          let '(added_files, modified_files, deleted_files) :=
            GitManager.get_changed_files repo_config git_manager old_commit in
          let after_deleted :=
            fold_left (retire_file repo_config) (elements deleted_files)
                      (zero_stats, vector_store svc) in
          let files_to_process :=
            app (elements added_files) (elements modified_files) in
          let '(stats, store) :=
            fold_left (process_file repo_config git_manager current_commit
                                    modified_files)
                      files_to_process after_deleted in
          let new_state :=
            {| st_repo_name := name repo_config;
               last_commit_hash := Some current_commit;
               last_processed_at := Some utcnow;
               total_chunks := chunks_added stats - chunks_deleted stats;
               total_files := files_processed stats |} in
          (Ok stats,
           _save_states write_outcome
             {| vector_store := store;
                states := <[ name repo_config := new_state ]> (states svc);
                state_file := state_file svc |})
    end.

(** [reset_repository]: the outcome of the call and the service
    afterwards.  Neither callee lets an exception escape. *)
Definition reset_repository (svc : Service) (repo_name : string)
    : Result unit * Service :=
  let '(store, deleted_count) :=
    VectorStore.delete_chunks_by_repo (vector_store svc) repo_name in
  match states svc !! repo_name with
  | Some _ =>
      (Ok tt,
       _save_states write_outcome
         {| vector_store := store;
            states := delete repo_name (states svc);
            state_file := state_file svc |})
  | None =>
      (Ok tt,
       {| vector_store := store;
          states := states svc;
          state_file := state_file svc |})
  end.

(** One iteration of [for repo_config in config.repositories]; each
    configured repository comes with what its working copy answers
    during its pass. *)
Definition process_one (force_full_reindex : bool)
    (acc : gmap string (Result Stats) * Service)
    (entry : RepositoryConfig * GitManager.GitRepo)
    : gmap string (Result Stats) * Service :=
  let '(results, svc) := acc in
  let '(repo_config, git_manager) := entry in
  if negb (enabled repo_config) then acc
  else
    let '(outcome, svc') :=
      process_repository svc repo_config git_manager force_full_reindex in
    (<[ name repo_config := outcome ]> results, svc').

(** [process_all_repositories].  [config] is the answer of
    [load_repositories_config], which raises on a missing or malformed
    file; a repository whose pass raises is recorded with its error. *)
Definition process_all_repositories (svc : Service)
    (config : Result (list (RepositoryConfig * GitManager.GitRepo)))
    (force_full_reindex : bool)
    : Result (gmap string (Result Stats)) * Service :=
  match config with
  | Raise error => (Raise error, svc)
  | Ok repositories =>
      let '(results, svc') :=
        fold_left (process_one force_full_reindex) repositories (∅, svc) in
      (Ok results, svc')
  end.

End WithEnvironment.

End IngestionService.

(* ===================================================================== *)
(** ** cli.py: the ingest command *)
(* ===================================================================== *)

Module Cli.
Import Models IngestionService.

Section WithEnvironment.
Variable settings : Settings.
Variable sha256_hexdigest : string -> string.
Variable parsers : Language -> option CodeParser.Parser.
Variable _get_embedding : string -> bool.
Variable utcnow : Z.
Variable write_outcome : WriteOutcome.

(** [cmd_ingest]: the exit code returned, or the exception that escapes
    to [main], and the service the command built.  [store] and [file]
    are what [IngestionService()] finds, [config] is the answer of
    [load_repositories_config], [repo_name] is [args.repo_name] and
    [force] is [args.force]. *)
Definition cmd_ingest (store : VectorStore.Collection) (file : StateFile)
    (config : Result (list (RepositoryConfig * GitManager.GitRepo)))
    (repo_name : option string) (force : bool) : Result Z * Service :=
  let service := __init__ store file in
  let ingest_all :=
    match process_all_repositories settings sha256_hexdigest parsers
            _get_embedding utcnow write_outcome service config force with
    | (Ok _, service') => (Ok 0, service')
    | (Raise error, service') => (Raise error, service')
    end in
  match repo_name with
  | None => ingest_all
  | Some wanted =>
      if String.eqb wanted "" then ingest_all
      else
        match config with
        | Raise error => (Raise error, service)
        | Ok repositories =>
            match List.find (fun repo => String.eqb (name (fst repo)) wanted)
                            repositories with
            | None => (Ok 1, service)
            | Some (repo_config, git_manager) =>
                match process_repository settings sha256_hexdigest parsers
                        _get_embedding utcnow write_outcome service repo_config
                        git_manager force with
                | (Ok _, service') => (Ok 0, service')
                | (Raise error, service') => (Raise error, service')
                end
            end
        end
  end.

End WithEnvironment.

End Cli.

(* ===================================================================== *)
(** ** Vocabulary of the specification *)
(* ===================================================================== *)

Module Spec.
Import Models.

(** The literal text of lines [first .. last] (1-indexed, inclusive)
    of a file, joined by newlines. *)
Definition lines_text (content : string) (first last : Z) : string :=
  Py.join_nl (Py.slice (Py.split_nl content)
                       (Z.to_nat (first - 1)) (Z.to_nat last)).

(** A chunk addresses an existing, non-empty line range of the file
    and carries exactly its text. *)
Definition literal_chunk (content : string) (c : CodeChunk) : Prop :=
  1 <= start_line c /\ start_line c <= end_line c
  /\ end_line c <= Z.of_nat (List.length (Py.split_nl content))
  /\ Models.content c = lines_text content (start_line c) (end_line c).

(** Every node of the tree ends on a row of a file of [n] lines, as
    the trees tree-sitter builds for that file do. *)
Fixpoint rows_in_file (n : nat) (node : CodeParser.Node) : bool :=
  match node with
  | CodeParser.mkNode _ _ ep _ _ kids =>
      (fst ep <? n)%nat && forallb (rows_in_file n) kids
  end.

(** The tree the registered parser returns for the content, if any,
    stays within the rows of the content. *)
Definition parsed_rows_in_file (parsers : Language -> option CodeParser.Parser)
    (content : string) (language : Language) : bool :=
  match parsers language with
  | Some parser =>
      match parser content with
      | Some root => rows_in_file (List.length (Py.split_nl content)) root
      | None => true
      end
  | None => true
  end.

(** The rendered text of a node: the whole lines it spans. *)
Definition node_text (lines : list string) (node : CodeParser.Node) : string :=
  Py.join_nl (Py.slice lines (fst (CodeParser.start_point node))
                       (fst (CodeParser.end_point node) + 1)).

(** A node of a target kind whose stripped text is below the
    minimum-size threshold. *)
Definition too_small (lines : list string) (node : CodeParser.Node) : bool :=
  CodeParser.str_in (CodeParser.node_type node) CodeParser.target_types
  && (Py.len (Py.strip (node_text lines node)) <? 10).

(** A node for which the walk builds a chunk. *)
Definition emitted (settings : Settings) (lines : list string)
    (node : CodeParser.Node) : bool :=
  CodeParser.str_in (CodeParser.node_type node) CodeParser.target_types
  && negb (Py.len (Py.strip (node_text lines node)) <? 10)
  && negb ((Py.len (node_text lines node) >? max_chunk_size settings * 2)
           && CodeParser.str_in (CodeParser.node_type node)
                ["class_declaration"; "namespace_declaration"]).

(** Children lie within the line span of their parent, throughout the
    tree. *)
Fixpoint nested_spans (node : CodeParser.Node) : bool :=
  match node with
  | CodeParser.mkNode _ sp ep _ _ kids =>
      forallb (fun child =>
                 (fst sp <=? fst (CodeParser.start_point child))%nat
                 && (fst (CodeParser.end_point child) <=? fst ep)%nat
                 && nested_spans child)
              kids
  end.

(** What the structural strategy hands back to [parse_file]: nothing
    when no parser is registered for the language or the parser raises,
    else the chunks of the walk (none for a language other than C#). *)
Definition structural_result (settings : Settings)
    (sha256_hexdigest : string -> string)
    (parsers : Language -> option CodeParser.Parser)
    (content path repo commit : string) (language : Language)
    : option (list CodeChunk) :=
  match parsers language with
  | Some parser =>
      match parser content with
      | Some root_node =>
          Some (if Language_eqb language CSHARP
                then CodeParser._parse_csharp settings sha256_hexdigest root_node
                       content path repo commit
                else [])
      | None => None
      end
  | None => None
  end.

(** The text [_generate_chunk_id] hands to the digest. *)
Definition chunk_id_text (repo path : string) (start_line : Z) (commit : string)
    : string :=
  repo +:+ ":" +:+ path +:+ ":" +:+ Py.str_of_int start_line +:+ ":" +:+ commit.

(** The size the windowing loop counts for buffered lines: each line
    and its newline. *)
Fixpoint lines_size (l : list string) : Z :=
  match l with
  | [] => 0
  | x :: r => Py.len x + 1 + lines_size r
  end.

(** Loop invariant of the windowing strategy for the size bound. *)
Definition bounded (settings : Settings) (st : CodeParser.Window) : Prop :=
  CodeParser.current_size st = lines_size (CodeParser.current_chunk st)
  /\ (CodeParser.current_chunk st = []
      \/ CodeParser.current_size st <= max_chunk_size settings)
  /\ forall c, In c (CodeParser.chunks st) ->
               Py.len (content c) <= max_chunk_size settings.

(** Loop invariant of the windowing strategy for the line ranges:
    [pre] is the part of the file already consumed. *)
Definition tracks (content : string) (pre : list string) (st : CodeParser.Window)
    : Prop :=
  0 <= CodeParser.w_start_line st <= Z.of_nat (List.length pre)
  /\ CodeParser.current_chunk st
     = drop (Z.to_nat (CodeParser.w_start_line st)) pre
  /\ forall c, In c (CodeParser.chunks st) -> literal_chunk content c.

(** A path of the current snapshot that passes the admission
    predicate. *)
Definition in_snapshot (config : RepositoryConfig) (repo : GitManager.GitRepo)
    (p : string) : Prop :=
  exists item, In item (GitManager.tree_items repo)
               /\ GitManager.item_type item = "blob"
               /\ GitManager.item_path item = p
               /\ GitManager._should_process_file config p = true.

(** Every path of the three change sets passes the admission
    predicate. *)
Definition all_admissible (config : RepositoryConfig)
    (changes : gset string * gset string * gset string) : Prop :=
  forall p, p ∈ changes.1.1 ∪ changes.1.2 ∪ changes.2 ->
            GitManager._should_process_file config p = true.

(** The record [add_chunks] stores for a chunk. *)
Definition entry_of (c : CodeChunk) : VectorStore.Entry :=
  {| VectorStore.document := content c;
     VectorStore.meta := VectorStore.chunk_metadata c |}.

(** A stored record belongs to a (repository, path). *)
Definition of_file (repo path : string) (e : VectorStore.Entry) : Prop :=
  VectorStore.m_repo_name (VectorStore.meta e) = repo
  /\ VectorStore.m_file_path (VectorStore.meta e) = path.

Definition of_fileb (repo path : string) (e : VectorStore.Entry) : bool :=
  String.eqb (VectorStore.m_repo_name (VectorStore.meta e)) repo
  && String.eqb (VectorStore.m_file_path (VectorStore.meta e)) path.

(** The chunks one pass extracts from the new content of a path:
    none when the language is unknown or the content is unreadable or
    empty. *)
Definition fresh_chunks (settings : Settings) (sha256_hexdigest : string -> string)
    (parsers : Language -> option CodeParser.Parser)
    (git_manager : GitManager.GitRepo) (repo commit path : string)
    : list CodeChunk :=
  match IngestionService._detect_language path with
  | Some language =>
      match GitManager.get_file_content git_manager path with
      | Some content =>
          if String.eqb content "" then []
          else CodeParser.parse_file settings sha256_hexdigest parsers
                 content path repo commit language
      | None => []
      end
  | None => []
  end.

(** Every fresh chunk can be embedded. *)
Definition all_embedded (_get_embedding : string -> bool) (fresh : list CodeChunk)
    : bool :=
  forallb (fun ch => _get_embedding (VectorStore._prepare_chunk_text ch)) fresh.

(** No stored record of another file holds an identifier of the fresh
    chunks. *)
Definition ids_available (store : VectorStore.Collection) (repo path : string)
    (fresh : list CodeChunk) : bool :=
  forallb (fun ch => match VectorStore.entries store !! id ch with
                     | Some e => of_fileb repo path e
                     | None => true
                     end) fresh.

(** No chunk of [others] shares an identifier with a fresh chunk. *)
Definition ids_apart (fresh others : list CodeChunk) : bool :=
  forallb (fun other =>
             negb (existsb (fun ch => String.eqb (id ch) (id other)) fresh))
          others.

(** Identifiers of the fresh chunks are unused or held by the file. *)
Definition own_or_free (fresh : list CodeChunk) (repo path : string)
    (store : VectorStore.Collection) : Prop :=
  forall ch e, In ch fresh -> VectorStore.entries store !! id ch = Some e ->
               of_file repo path e.

(** The file's stored records are exactly the fresh chunks. *)
Definition rebuilt (fresh : list CodeChunk) (repo path : string)
    (store : VectorStore.Collection) : Prop :=
  (forall ch, In ch fresh ->
              VectorStore.entries store !! id ch = Some (entry_of ch))
  /\ (forall i e, VectorStore.entries store !! i = Some e -> of_file repo path e ->
                  exists ch, In ch fresh /\ i = id ch /\ e = entry_of ch).

(** Line [n] lies in the range a chunk addresses. *)
Definition covers (c : CodeChunk) (n : Z) : bool :=
  (start_line c <=? n) && (n <=? end_line c).

(** A sequence of chunks that advances through the file: each chunk
    starts no earlier than the one before it and no later than the
    line after its end, and ends further down.  [prev_start] and
    [prev_end] stand for the range before the first chunk. *)
Fixpoint advancing (prev_start prev_end : Z) (cs : list CodeChunk) : bool :=
  match cs with
  | [] => true
  | c :: rest =>
      (prev_start <=? start_line c) && (start_line c <=? prev_end + 1)
      && (prev_end <? end_line c)
      && advancing (start_line c) (end_line c) rest
  end.

(** The range of the last chunk of a sequence, [(a, b)] when there is
    none. *)
Definition last_range (a b : Z) (cs : list CodeChunk) : Z * Z :=
  fold_left (fun _ c => (start_line c, end_line c)) cs (a, b).

(** Loop invariant of the windowing strategy for the order of the
    chunks, after [n] lines have been consumed. *)
Definition advances (n : nat) (st : CodeParser.Window) : Prop :=
  advancing 1 0 (CodeParser.chunks st) = true
  /\ (last_range 1 0 (CodeParser.chunks st)).1 <= CodeParser.w_start_line st + 1
  /\ CodeParser.w_start_line st <= (last_range 1 0 (CodeParser.chunks st)).2
  /\ (last_range 1 0 (CodeParser.chunks st)).2 <= Z.of_nat n
  /\ (CodeParser.current_chunk st = []
      \/ (last_range 1 0 (CodeParser.chunks st)).2 < Z.of_nat n).

(** The lines two consecutive chunks have in common, from the start of
    the later one to the end of the earlier one, stay within the
    overlap budget, throughout a sequence of chunks.  [prev_end] is
    the end of the chunk before the first. *)
Fixpoint overlaps_within (overlap : Z) (lines : list string) (prev_end : Z)
    (cs : list CodeChunk) : bool :=
  match cs with
  | [] => true
  | c :: rest =>
      (lines_size (Py.slice lines (Z.to_nat (start_line c - 1))
                            (Z.to_nat prev_end))
       <=? overlap)
      && overlaps_within overlap lines (end_line c) rest
  end.

(** Loop invariant of the windowing strategy for the overlap. *)
Definition overlapping (settings : Settings) (lines : list string)
    (st : CodeParser.Window) : Prop :=
  overlaps_within (chunk_overlap settings) lines 0 (CodeParser.chunks st) = true
  /\ lines_size (Py.slice lines (Z.to_nat (CodeParser.w_start_line st))
                          (Z.to_nat (last_range 1 0 (CodeParser.chunks st)).2))
     <= chunk_overlap settings.

(** A window that was closed because the next line did not fit: the
    chunk's text, its newline and the line after its last line exceed
    the maximum together. *)
Definition full (settings : Settings) (lines : list string) (c : CodeChunk)
    : bool :=
  match nth_error lines (Z.to_nat (end_line c)) with
  | Some line =>
      max_chunk_size settings <? Py.len (content c) + 1 + (Py.len line + 1)
  | None => false
  end.

(** Loop invariant of the windowing strategy for the fill of the
    closed windows. *)
Definition filling (settings : Settings) (lines : list string)
    (st : CodeParser.Window) : Prop :=
  CodeParser.current_size st = lines_size (CodeParser.current_chunk st)
  /\ Forall (fun c => full settings lines c = true) (CodeParser.chunks st).

(** Statistics of a pass that add up: no counter is negative and every
    file counted as added or modified is also counted as processed. *)
Definition sound_stats (stats : IngestionService.Stats) : Prop :=
  0 <= IngestionService.files_added stats
  /\ 0 <= IngestionService.files_modified stats
  /\ 0 <= IngestionService.files_deleted stats
  /\ 0 <= IngestionService.chunks_added stats
  /\ 0 <= IngestionService.chunks_deleted stats
  /\ IngestionService.files_processed stats
     = IngestionService.files_added stats + IngestionService.files_modified stats.

(** The names of the enabled repositories of a configuration. *)
Definition enabled_names
    (repositories : list (RepositoryConfig * GitManager.GitRepo))
    : list string :=
  map (fun entry => name (fst entry))
      (List.filter (fun entry => enabled (fst entry)) repositories).

End Spec.

(* ===================================================================== *)
(** ** Concrete inputs *)
(* ===================================================================== *)

Module Examples.
Import Models.

Definition default_settings : Settings :=
  {| max_chunk_size := 1000; chunk_overlap := 200 |}.

Definition small_settings : Settings :=
  {| max_chunk_size := 10; chunk_overlap := 4 |}.

(** A stand-in digest that keeps its input apart: the text reversed. *)
Definition reverse_digest (s : string) : string := String.rev s.

Definition no_parsers : Language -> option CodeParser.Parser := fun _ => None.

Definition calc_lines : list string :=
  [ "namespace App";
    "{";
    "    class Calc";
    "    {";
    "        int Add(int a, int b) { return a + b; }";
    "    }";
    "}" ].

Definition calc_content : string := Py.join_nl calc_lines.

Definition leaf (ty : string) (row c1 c2 b1 b2 : nat) : CodeParser.Node :=
  CodeParser.mkNode ty (row, c1) (row, c2) b1 b2 [].

(** The syntax tree of [calc_content], as tree-sitter lays it out. *)
Definition calc_tree : CodeParser.Node :=
  CodeParser.mkNode "compilation_unit" (0, 0)%nat (6, 1)%nat 0 92
    [ CodeParser.mkNode "namespace_declaration" (0, 0)%nat (6, 1)%nat 0 92
        [ leaf "identifier" 0 10 13 10 13;
          CodeParser.mkNode "declaration_list" (1, 0)%nat (6, 1)%nat 14 92
            [ CodeParser.mkNode "class_declaration" (2, 4)%nat (5, 5)%nat 20 90
                [ leaf "identifier" 2 10 14 26 30;
                  CodeParser.mkNode "declaration_list" (3, 4)%nat (5, 5)%nat 35 90
                    [ CodeParser.mkNode "method_declaration"
                        (4, 8)%nat (4, 47)%nat 45 84
                        [ leaf "predefined_type" 4 8 11 45 48;
                          leaf "identifier" 4 12 15 49 52;
                          leaf "parameter_list" 4 15 29 52 66;
                          leaf "block" 4 30 47 67 84 ] ] ] ] ] ].

Definition csharp_parsers : Language -> option CodeParser.Parser :=
  fun language =>
    match language with
    | CSHARP => Some (fun _ => Some calc_tree)
    | _ => None
    end.

(** A class declaration of nine characters and its tree. *)
Definition tiny_lines : list string := [ "class A{}" ].

Definition tiny_body : CodeParser.Node := leaf "declaration_list" 0 7 9 7 9.

Definition tiny_class : CodeParser.Node :=
  CodeParser.mkNode "class_declaration" (0, 0)%nat (0, 9)%nat 0 9
    [ leaf "identifier" 0 6 7 6 7; tiny_body ].

(** Three lines for the windowing strategy under [small_settings]. *)
Definition three_lines : string := Py.join_nl [ "abc"; "defghij"; "k" ].

Definition short_lines : string := Py.join_nl [ "ab"; "cd"; "ef"; "gh" ].

Definition demo_config : RepositoryConfig :=
  {| name := "demo"; url := "https://example.org/demo.git"; branch := "master";
     local_path := "demo"; enabled := true; languages := [CSHARP; PYTHON];
     exclude_patterns := ["*/bin/*"] |}.

Definition demo_tree : list GitManager.TreeItem :=
  [ {| GitManager.item_type := "tree"; GitManager.item_path := "src" |};
    {| GitManager.item_type := "blob"; GitManager.item_path := "src/util.py" |};
    {| GitManager.item_type := "blob"; GitManager.item_path := "bin/Gen.cs" |};
    {| GitManager.item_type := "blob"; GitManager.item_path := "README.md" |} ].

(** A working copy whose history no longer resolves the old marker. *)
Definition broken_history_repo : GitManager.GitRepo :=
  {| GitManager.clone_or_open := true;
     GitManager.pull_latest := Some true;
     GitManager.head_commit := "c1";
     GitManager.tree_items := demo_tree;
     GitManager.diff := fun _ => None;
     GitManager.get_file_content := fun _ => None |}.

(** A working copy in which [src/Calc.cs] was renamed to
    [docs/Calc.txt] since the old marker. *)
Definition renamed_repo : GitManager.GitRepo :=
  {| GitManager.clone_or_open := true;
     GitManager.pull_latest := Some true;
     GitManager.head_commit := "c1";
     GitManager.tree_items :=
       [ {| GitManager.item_type := "blob";
            GitManager.item_path := "docs/Calc.txt" |} ];
     GitManager.diff :=
       fun _ => Some [ {| GitManager.a_path := "src/Calc.cs";
                          GitManager.b_path := "docs/Calc.txt";
                          GitManager.change_type := "R" |} ];
     GitManager.get_file_content := fun _ => None |}.

(** A working copy in which [bin/Gen.cs], excluded by the pattern, was
    renamed to [src/Gen.cs] since the old marker. *)
Definition moved_into_scope_repo : GitManager.GitRepo :=
  {| GitManager.clone_or_open := true;
     GitManager.pull_latest := Some true;
     GitManager.head_commit := "c1";
     GitManager.tree_items :=
       [ {| GitManager.item_type := "blob";
            GitManager.item_path := "src/Gen.cs" |} ];
     GitManager.diff :=
       fun _ => Some [ {| GitManager.a_path := "bin/Gen.cs";
                          GitManager.b_path := "src/Gen.cs";
                          GitManager.change_type := "R" |} ];
     GitManager.get_file_content := fun _ => None |}.

(** A working copy in which [src/util.py] was modified since the old
    marker; [files] answers the reads. *)
Definition modified_repo (files : string -> option string) : GitManager.GitRepo :=
  {| GitManager.clone_or_open := true;
     GitManager.pull_latest := Some true;
     GitManager.head_commit := "c1";
     GitManager.tree_items := demo_tree;
     GitManager.diff :=
       fun _ => Some [ {| GitManager.a_path := "src/util.py";
                          GitManager.b_path := "src/util.py";
                          GitManager.change_type := "M" |} ];
     GitManager.get_file_content := files |}.

(** A working copy in which [src/util.py] was deleted since the old
    marker. *)
Definition deleted_repo : GitManager.GitRepo :=
  {| GitManager.clone_or_open := true;
     GitManager.pull_latest := Some true;
     GitManager.head_commit := "c1";
     GitManager.tree_items := [];
     GitManager.diff :=
       fun _ => Some [ {| GitManager.a_path := "src/util.py";
                          GitManager.b_path := "src/util.py";
                          GitManager.change_type := "D" |} ];
     GitManager.get_file_content := fun _ => None |}.

(** A working copy on which the pull brings nothing new. *)
Definition unchanged_repo : GitManager.GitRepo :=
  {| GitManager.clone_or_open := true;
     GitManager.pull_latest := Some false;
     GitManager.head_commit := "c1";
     GitManager.tree_items := demo_tree;
     GitManager.diff := fun _ => Some [];
     GitManager.get_file_content := fun _ => None |}.

(** A repository that can be neither opened nor cloned. *)
Definition unreachable_repo : GitManager.GitRepo :=
  {| GitManager.clone_or_open := false;
     GitManager.pull_latest := None;
     GitManager.head_commit := "";
     GitManager.tree_items := [];
     GitManager.diff := fun _ => None;
     GitManager.get_file_content := fun _ => None |}.

(** The demo repository switched off in the configuration. *)
Definition disabled_config : RepositoryConfig :=
  {| name := "demo"; url := "https://example.org/demo.git"; branch := "master";
     local_path := "demo"; enabled := false; languages := [CSHARP; PYTHON];
     exclude_patterns := ["*/bin/*"] |}.

Definition readable_files (p : string) : option string :=
  if String.eqb p "src/util.py" then Some "print(1)" else None.

Definition unreadable_files (p : string) : option string := None.

Definition stored (path : string) (line : Z) : VectorStore.Entry :=
  {| VectorStore.document := "old text";
     VectorStore.meta :=
       {| VectorStore.m_repo_name := "demo";
          VectorStore.m_file_path := path;
          VectorStore.m_language := "python";
          VectorStore.m_start_line := line;
          VectorStore.m_end_line := line;
          VectorStore.m_commit_hash := "c0";
          VectorStore.m_chunk_type := "simple_chunk";
          VectorStore.m_name := None;
          VectorStore.m_context := None |} |}.

Definition other_repo_entry : VectorStore.Entry :=
  {| VectorStore.document := "other text";
     VectorStore.meta :=
       {| VectorStore.m_repo_name := "other";
          VectorStore.m_file_path := "src/util.py";
          VectorStore.m_language := "python";
          VectorStore.m_start_line := 1;
          VectorStore.m_end_line := 1;
          VectorStore.m_commit_hash := "d0";
          VectorStore.m_chunk_type := "simple_chunk";
          VectorStore.m_name := None;
          VectorStore.m_context := None |} |}.

(** Two chunks of [src/util.py] from the previous revision, one chunk
    of another file and one of another repository. *)
Definition demo_store : VectorStore.Collection :=
  {| VectorStore.entries :=
       <[ "old1" := stored "src/util.py" 1 ]>
         (<[ "old2" := stored "src/util.py" 2 ]>
            (<[ "keep" := stored "src/keep.py" 1 ]>
               (<[ "other" := other_repo_entry ]> ∅)));
     VectorStore.reachable := true |}.

Definition demo_state : RepositoryState :=
  {| st_repo_name := "demo"; last_commit_hash := Some "c0";
     last_processed_at := Some 100; total_chunks := 3; total_files := 2 |}.

Definition demo_service : IngestionService.Service :=
  {| IngestionService.vector_store := demo_store;
     IngestionService.states := {[ "demo" := demo_state ]};
     IngestionService.state_file :=
       IngestionService.Saved {[ "demo" := demo_state ]} |}.

End Examples.

(* ===================================================================== *)
(** ** Facts about the string primitives *)
(* ===================================================================== *)

Module PyFacts.

Lemma split_nl_nonempty s : Py.split_nl s <> [].
Proof.
  destruct s as [|c r]; simpl; [discriminate|].
  destruct (Ascii.eqb c Py.newline); [discriminate|].
  destruct (Py.split_nl r); discriminate.
Qed.

Lemma str_app_cons x (a b : string) : String x a +:+ b = String x (a +:+ b).
Proof. reflexivity. Qed.

Lemma str_app_assoc (a b c : string) : (a +:+ b) +:+ c = a +:+ b +:+ c.
Proof.
  induction a as [|x a IH]; [reflexivity|].
  now rewrite !str_app_cons, IH.
Qed.

Lemma str_app_nil_r (a : string) : a +:+ "" = a.
Proof.
  induction a as [|x a IH]; [reflexivity|].
  now rewrite str_app_cons, IH.
Qed.

Lemma str_length_app (a b : string) :
  String.length (a +:+ b) = (String.length a + String.length b)%nat.
Proof.
  induction a as [|c a IH]; [reflexivity|].
  rewrite str_app_cons. simpl. now rewrite IH.
Qed.

Lemma len_nonneg s : 0 <= Py.len s.
Proof. unfold Py.len. lia. Qed.

Lemma lines_size_app l1 l2 :
  Spec.lines_size (l1 ++ l2) = Spec.lines_size l1 + Spec.lines_size l2.
Proof. induction l1 as [|x l1 IH]; simpl; lia. Qed.

Lemma join_cons x l :
  Py.join_nl (x :: l)
  = match l with [] => x | _ => x +:+ Py.nl +:+ Py.join_nl l end.
Proof. destruct l; reflexivity. Qed.

Lemma len_join_nl l : l <> [] -> Py.len (Py.join_nl l) = Spec.lines_size l - 1.
Proof.
  induction l as [|x l IH]; [congruence|]. intros _.
  rewrite join_cons. destruct l as [|y l].
  - cbn [Spec.lines_size]. lia.
  - assert (H : y :: l <> []) by discriminate. specialize (IH H).
    unfold Py.len in *. rewrite !str_length_app.
    change (Spec.lines_size (x :: y :: l))
      with (Z.of_nat (String.length x) + 1 + Spec.lines_size (y :: l)).
    change (String.length Py.nl) with 1%nat. lia.
Qed.

End PyFacts.

(* ===================================================================== *)
(** ** The windowing strategy *)
(* ===================================================================== *)

Module WindowFacts.
Import Models CodeParser PyFacts.

(** The overlap loop keeps a suffix of the buffer, counted exactly. *)
Lemma overlap_loop_suffix overlap r : forall acc sz ol osz,
  overlap_loop overlap r acc sz = (ol, osz) ->
  exists k, (k <= List.length r)%nat
            /\ ol = (rev (take k r) ++ acc)%list
            /\ osz = sz + Spec.lines_size (rev (take k r)).
Proof.
  induction r as [|l r IH]; intros acc sz ol osz H; simpl in H.
  - inversion H; subst. exists 0%nat. simpl. split; [lia|]. split; [reflexivity|lia].
  - destruct (sz + (Py.len l + 1) <=? overlap) eqn:E.
    + apply IH in H as (k & Hk & -> & ->).
      exists (S k). simpl. split; [lia|].
      rewrite <- !app_assoc. simpl. split; [reflexivity|].
      rewrite lines_size_app. simpl. lia.
    + inversion H; subst. exists 0%nat. simpl. split; [lia|]. split; [reflexivity|lia].
Qed.

(** It never takes more than the overlap budget. *)
Lemma overlap_loop_budget overlap r : forall acc sz ol osz,
  overlap_loop overlap r acc sz = (ol, osz) -> sz <= overlap -> osz <= overlap.
Proof.
  induction r as [|l r IH]; intros acc sz ol osz H Hsz; simpl in H.
  - inversion H; subst. exact Hsz.
  - destruct (sz + (Py.len l + 1) <=? overlap) eqn:E.
    + eapply IH; [exact H|]. apply Z.leb_le in E. exact E.
    + inversion H; subst. exact Hsz.
Qed.

Section Window.
Variable settings : Settings.
Variable sha256_hexdigest : string -> string.
Variables path repo commit : string.
Variable lang : Language.

Local Abbreviation step :=
  (window_step settings sha256_hexdigest path repo commit lang).
Local Abbreviation loop :=
  (window_loop settings sha256_hexdigest path repo commit lang).
Local Abbreviation mk := (window_chunk sha256_hexdigest path repo commit lang).
Local Abbreviation start :=
  {| chunks := []; current_chunk := []; current_size := 0; w_start_line := 0 |}.

Lemma loop_cons i line lines st :
  loop i (line :: lines) st = loop (S i) lines (step st i line).
Proof. reflexivity. Qed.

Lemma step_current st i line :
  exists pre, current_chunk (step st i line) = (pre ++ [line])%list.
Proof.
  unfold window_step. destruct (_ && _).
  - destruct (overlap_loop _ _ _ _) as [ol osz]. simpl. eauto.
  - simpl. eauto.
Qed.

Lemma loop_current_nonempty lines : forall i st,
  lines <> [] -> current_chunk (loop i lines st) <> [].
Proof.
  induction lines as [|l lines IH]; intros i st H; [congruence|].
  rewrite loop_cons. destruct lines as [|l' lines].
  - destruct (step_current st i l) as [pre Hp].
    cbn [window_loop]. rewrite Hp. destruct pre; discriminate.
  - apply IH. discriminate.
Qed.

(** The final buffer is never empty, so the windowing strategy always
    emits its last chunk. *)
Lemma simple_chunking_nonempty content :
  _simple_chunking settings sha256_hexdigest content path repo commit lang <> [].
Proof.
  unfold _simple_chunking.
  pose proof (loop_current_nonempty (Py.split_nl content) 0 start
                (split_nl_nonempty content)) as H.
  destruct (current_chunk _) as [|x r] eqn:E; [congruence|].
  simpl. intros Habs. apply app_eq_nil in Habs as [_ Habs]. discriminate.
Qed.

(** Every windowing chunk is built by [window_chunk]. *)
Lemma step_chunks_Forall (P : CodeChunk -> Prop) st i line :
  (forall cur s e, P (mk cur s e)) ->
  Forall P (chunks st) -> Forall P (chunks (step st i line)).
Proof.
  intros HP Hst. unfold window_step.
  destruct (_ && _); [|exact Hst].
  destruct (overlap_loop _ _ _ _) as [ol osz]. simpl.
  apply Forall_app. split; [exact Hst|]. constructor; [apply HP | constructor].
Qed.

Lemma loop_chunks_Forall (P : CodeChunk -> Prop) lines : forall i st,
  (forall cur s e, P (mk cur s e)) ->
  Forall P (chunks st) -> Forall P (chunks (loop i lines st)).
Proof.
  induction lines as [|l lines IH]; intros i st HP Hst; [exact Hst|].
  rewrite loop_cons. apply IH; [exact HP|]. now apply step_chunks_Forall.
Qed.

Lemma simple_chunking_Forall (P : CodeChunk -> Prop) content :
  (forall cur s e, P (mk cur s e)) ->
  Forall P (_simple_chunking settings sha256_hexdigest content path repo
                             commit lang).
Proof.
  intros HP. unfold _simple_chunking.
  pose proof (loop_chunks_Forall P (Py.split_nl content) 0 start HP
                (List.Forall_nil P)) as H.
  destruct (negb _); [|exact H].
  apply Forall_app. split; [exact H|]. constructor; [apply HP | constructor].
Qed.

(** *** The size bound *)

Lemma window_chunk_len cur s e :
  cur <> [] -> Py.len (content (mk cur s e)) = Spec.lines_size cur - 1.
Proof. intros H. unfold window_chunk. simpl. now apply len_join_nl. Qed.

Lemma step_bounded st i line :
  0 <= chunk_overlap settings ->
  chunk_overlap settings + Py.len line + 1 <= max_chunk_size settings ->
  Spec.bounded settings st -> Spec.bounded settings (step st i line).
Proof.
  intros Hov Hline (Hsz & Hcur & Hch).
  unfold Spec.bounded, window_step.
  destruct (current_size st + (Py.len line + 1) >? max_chunk_size settings) eqn:E1;
    destruct (negb (Nat.eqb (List.length (current_chunk st)) 0)) eqn:E2; simpl.
  - destruct (overlap_loop _ _ _ _) as [ol osz] eqn:Eo. simpl.
    pose proof (overlap_loop_budget _ _ _ _ _ _ Eo Hov) as Hb.
    apply overlap_loop_suffix in Eo as (k & Hk & -> & ->).
    rewrite app_nil_r in *.
    split; [rewrite lines_size_app; simpl; lia|].
    split; [right; lia|].
    intros c Hc. apply in_app_or in Hc as [Hc | [<- | []]]; [now apply Hch|].
    assert (Hne : current_chunk st <> []).
    { destruct (current_chunk st); discriminate. }
    rewrite window_chunk_len by exact Hne.
    destruct Hcur as [Hcur|Hcur]; [congruence|]. lia.
  - split; [rewrite lines_size_app; simpl; lia|].
    split; [|exact Hch].
    right. apply negb_false_iff, Nat.eqb_eq in E2.
    destruct (current_chunk st); [|discriminate]. simpl in Hsz. lia.
  - rewrite Z.gtb_ltb in E1. apply Z.ltb_ge in E1.
    split; [rewrite lines_size_app; simpl; lia|].
    split; [right; lia | exact Hch].
  - rewrite Z.gtb_ltb in E1. apply Z.ltb_ge in E1.
    split; [rewrite lines_size_app; simpl; lia|].
    split; [right; lia | exact Hch].
Qed.

Lemma loop_bounded lines : forall i st,
  0 <= chunk_overlap settings ->
  (forall line, In line lines ->
     chunk_overlap settings + Py.len line + 1 <= max_chunk_size settings) ->
  Spec.bounded settings st -> Spec.bounded settings (loop i lines st).
Proof.
  induction lines as [|l lines IH]; intros i st Hov Hl Hb; [exact Hb|].
  rewrite loop_cons. apply IH; [exact Hov | intros; apply Hl; now right |].
  apply step_bounded; [exact Hov | apply Hl; now left | exact Hb].
Qed.

End Window.

(** C4, as amended.  When every line, together with its newline and the
    configured overlap, fits the maximum chunk size, every chunk of the
    windowing strategy (the final one included) has a content of at most
    the maximum chunk size.  Lines are never split and the overlap lines
    carried into a new chunk are not weighed against the limit, so
    without that premise a chunk can be larger. *)
Theorem windowing_chunks_bounded
    (settings : Settings) (sha256_hexdigest : string -> string)
    (content path repo commit : string) (lang : Language) :
  0 <= chunk_overlap settings ->
  forallb (fun line =>
             chunk_overlap settings + Py.len line + 1 <=? max_chunk_size settings)
          (Py.split_nl content) = true ->
  Forall (fun c => Py.len (Models.content c) <= max_chunk_size settings)
         (_simple_chunking settings sha256_hexdigest content path repo commit lang).
Proof.
  intros Hov Hlines. rewrite forallb_forall in Hlines.
  assert (Hl : forall line, In line (Py.split_nl content) ->
                 chunk_overlap settings + Py.len line + 1 <= max_chunk_size settings).
  { intros line Hin. apply Z.leb_le. now apply Hlines. }
  destruct (loop_bounded settings sha256_hexdigest path repo commit lang
              (Py.split_nl content) 0
              {| chunks := []; current_chunk := []; current_size := 0;
                 w_start_line := 0 |} Hov Hl) as (Hsz & Hcur & Hch).
  { split; [reflexivity|]. split; [now left|]. intros c []. }
  unfold _simple_chunking. apply List.Forall_forall.
  destruct (negb _) eqn:E; [|exact Hch].
  intros c Hc. apply in_app_or in Hc as [Hc | [<- | []]]; [now apply Hch|].
  assert (Hne : current_chunk
                  (window_loop settings sha256_hexdigest path repo commit lang 0
                     (Py.split_nl content)
                     {| chunks := []; current_chunk := []; current_size := 0;
                        w_start_line := 0 |}) <> []).
  { apply loop_current_nonempty. apply split_nl_nonempty. }
  rewrite window_chunk_len by exact Hne.
  destruct Hcur as [Hcur|Hcur]; [congruence|]. lia.
Qed.

Lemma windowing_chunks_bounded_witness :
  Forall (fun c => Py.len (Models.content c) <= 10)
         (_simple_chunking Examples.small_settings Examples.reverse_digest
                           Examples.short_lines "notes.py" "demo" "c1" PYTHON).
Proof.
  apply (windowing_chunks_bounded Examples.small_settings Examples.reverse_digest
           Examples.short_lines "notes.py" "demo" "c1" PYTHON).
  - simpl. lia.
  - reflexivity.
Defined.

(** C4, as stated, fails: with a maximum of 10 and an overlap of 4 the
    lines "abc", "defghij", "k" give the chunks "abc", "abc\ndefghij"
    and "k"; the second one is not the final chunk and has 11
    characters. *)
Lemma windowing_chunk_exceeds_maximum :
  ~ Forall (fun c => Py.len (Models.content c)
                     <= max_chunk_size Examples.small_settings)
           (removelast
              (_simple_chunking Examples.small_settings Examples.reverse_digest
                                Examples.three_lines "notes.py" "demo" "c1" PYTHON)).
Proof.
  intros H. apply List.Forall_forall with (x :=
    window_chunk Examples.reverse_digest "notes.py" "demo" "c1" PYTHON
                 ["abc"; "defghij"] 0 2) in H.
  - vm_compute in H. apply H. reflexivity.
  - vm_compute. right. left. reflexivity.
Qed.

End WindowFacts.

(* ===================================================================== *)
(** ** Line ranges of the windowing chunks *)
(* ===================================================================== *)

Module LiteralFacts.
Import Models CodeParser PyFacts WindowFacts.

Lemma kept_suffix (cur : list string) k :
  rev (take k (rev cur)) = drop (List.length cur - k) cur.
Proof. rewrite firstn_rev. apply rev_involutive. Qed.

Section Literal.
Variable settings : Settings.
Variable sha256_hexdigest : string -> string.
Variables path repo commit : string.
Variable lang : Language.
Variable content : string.

Local Abbreviation lines := (Py.split_nl content).
Local Abbreviation step :=
  (window_step settings sha256_hexdigest path repo commit lang).
Local Abbreviation loop :=
  (window_loop settings sha256_hexdigest path repo commit lang).
Local Abbreviation mk := (window_chunk sha256_hexdigest path repo commit lang).

Lemma window_chunk_literal pre rest s :
  lines = (pre ++ rest)%list ->
  0 <= s < Z.of_nat (List.length pre) ->
  Spec.literal_chunk content
    (mk (drop (Z.to_nat s) pre) s (Z.of_nat (List.length pre))).
Proof.
  intros Hl Hs. unfold Spec.literal_chunk, window_chunk. simpl.
  rewrite Hl, length_app.
  split; [lia|]. split; [lia|]. split; [lia|].
  unfold Spec.lines_text. rewrite Hl. f_equal.
  unfold Py.slice.
  replace (s + 1 - 1) with s by lia. rewrite Nat2Z.id.
  rewrite drop_app_le by lia.
  rewrite take_app_length'; [reflexivity|].
  rewrite length_drop. lia.
Qed.

Lemma step_tracks pre line st :
  Spec.tracks content pre st ->
  (exists rest, lines = (pre ++ line :: rest)%list) ->
  Spec.tracks content (pre ++ [line]) (step st (List.length pre) line).
Proof.
  intros (Hs & Hcur & Hch) [rest Hl].
  unfold Spec.tracks, window_step. rewrite length_app. simpl (List.length [line]).
  destruct (_ && _) eqn:E.
  - apply andb_true_iff in E as [_ E].
    assert (Hne : (Z.to_nat (w_start_line st) < List.length pre)%nat).
    { rewrite Hcur, length_drop in E.
      apply negb_true_iff, Nat.eqb_neq in E. lia. }
    destruct (overlap_loop _ _ _ _) as [ol osz] eqn:Eo. simpl.
    apply overlap_loop_suffix in Eo as (k & Hk & -> & _).
    rewrite app_nil_r, length_rev in *.
    rewrite kept_suffix.
    rewrite Hcur in *. rewrite length_drop in Hk.
    rewrite length_take, length_rev, drop_drop, !length_drop.
    split; [lia|]. split.
    + rewrite drop_app_le by lia. f_equal. f_equal. lia.
    + intros c Hc. apply in_app_or in Hc as [Hc | [<- | []]]; [now apply Hch|].
      apply (window_chunk_literal pre (line :: rest)); [exact Hl | lia].
  - simpl. split; [lia|]. split.
    + rewrite Hcur. rewrite drop_app_le by lia. reflexivity.
    + exact Hch.
Qed.

Lemma loop_tracks rest : forall pre st,
  lines = (pre ++ rest)%list ->
  Spec.tracks content pre st ->
  Spec.tracks content lines (loop (List.length pre) rest st).
Proof.
  induction rest as [|line rest IH]; intros pre st Hl Ht.
  - rewrite app_nil_r in Hl. rewrite Hl. exact Ht.
  - rewrite loop_cons.
    replace (S (List.length pre)) with (List.length (pre ++ [line]))
      by (rewrite length_app; simpl; lia).
    apply IH.
    + rewrite <- app_assoc. exact Hl.
    + apply step_tracks; [exact Ht | eauto].
Qed.

(** Every windowing chunk carries the text of the lines it names. *)
Lemma simple_chunking_literal :
  Forall (Spec.literal_chunk content)
         (_simple_chunking settings sha256_hexdigest content path repo commit lang).
Proof.
  unfold _simple_chunking.
  destruct (loop_tracks lines []
              {| chunks := []; current_chunk := []; current_size := 0;
                 w_start_line := 0 |} eq_refl) as (Hs & Hcur & Hch).
  { unfold Spec.tracks. simpl. split; [lia|]. split; [reflexivity|]. intros c' []. }
  simpl (List.length []) in *.
  apply List.Forall_forall.
  destruct (negb _) eqn:E; [|exact Hch].
  intros c Hc. apply in_app_or in Hc as [Hc | [<- | []]]; [now apply Hch|].
  rewrite Hcur. apply (window_chunk_literal lines []).
  - now rewrite app_nil_r.
  - rewrite Hcur, length_drop in E.
    apply negb_true_iff, Nat.eqb_neq in E. lia.
Qed.

End Literal.
End LiteralFacts.

(* ===================================================================== *)
(** ** The structural walk *)
(* ===================================================================== *)

Module TraverseFacts.
Import Models CodeParser PyFacts.

(** Induction over a syntax tree, with the hypothesis on all children. *)
Lemma Node_induction (P : Node -> Prop) :
  (forall ty sp ep sb eb kids,
      Forall P kids -> P (mkNode ty sp ep sb eb kids)) ->
  forall node, P node.
Proof.
  intros H. fix IH 1. intros [ty sp ep sb eb kids]. apply H.
  induction kids as [|k kids IHk]; constructor; [apply IH | exact IHk].
Qed.

Lemma flat_map_nil {A B} (f : A -> list B) l :
  Forall (fun x => f x = []) l -> flat_map f l = [].
Proof. induction 1 as [|x l Hx _ IH]; simpl; [reflexivity | now rewrite Hx, IH]. Qed.

Lemma flat_map_ext_Forall {A B} (f g : A -> list B) l :
  Forall (fun x => f x = g x) l -> flat_map f l = flat_map g l.
Proof. induction 1 as [|x l Hx _ IH]; simpl; [reflexivity | now rewrite Hx, IH]. Qed.

Lemma flat_map_flat_map {A B C} (f : B -> list C) (g : A -> list B) l :
  flat_map f (flat_map g l) = flat_map (fun x => flat_map f (g x)) l.
Proof.
  induction l as [|x l IH]; simpl; [reflexivity|].
  now rewrite flat_map_app, IH.
Qed.

Section Traverse.
Variable settings : Settings.
Variable sha256_hexdigest : string -> string.
Variables path repo commit : string.
Variable content : string.

Local Abbreviation lines := (Py.split_nl content).
Local Abbreviation walk :=
  (traverse settings sha256_hexdigest lines content path repo commit).
Local Abbreviation chunk_of ctx node :=
  (node_chunk sha256_hexdigest node content path repo commit ctx
              (fst (start_point node)) (fst (end_point node))
              (Spec.node_text lines node)).

Lemma walk_unfold ty sp ep sb eb kids ctx :
  walk (mkNode ty sp ep sb eb kids) ctx =
  let node := mkNode ty sp ep sb eb kids in
  let descend := flat_map (fun child => walk child ctx) kids in
  if str_in ty target_types then
    if Py.len (Py.strip (Spec.node_text lines node)) <? 10 then []
    else if (Py.len (Spec.node_text lines node) >? max_chunk_size settings * 2)
            && str_in ty ["class_declaration"; "namespace_declaration"]
    then descend
    else
      chunk_of ctx node
      :: (if str_in ty ["method_declaration"; "property_declaration";
                        "constructor_declaration"]
          then [] else descend)
  else descend.
Proof. reflexivity. Qed.

Lemma visited_unfold ty sp ep sb eb kids :
  visited settings lines (mkNode ty sp ep sb eb kids) =
  let node := mkNode ty sp ep sb eb kids in
  let descend := flat_map (visited settings lines) kids in
  if str_in ty target_types then
    if Py.len (Py.strip (Spec.node_text lines node)) <? 10 then [node]
    else if (Py.len (Spec.node_text lines node) >? max_chunk_size settings * 2)
            && str_in ty ["class_declaration"; "namespace_declaration"]
    then node :: descend
    else
      node :: (if str_in ty ["method_declaration"; "property_declaration";
                             "constructor_declaration"]
               then [] else descend)
  else node :: descend.
Proof. reflexivity. Qed.

Lemma emitted_unfold ty sp ep sb eb kids :
  Spec.emitted settings lines (mkNode ty sp ep sb eb kids)
  = str_in ty target_types
    && negb (Py.len (Py.strip (Spec.node_text lines (mkNode ty sp ep sb eb kids)))
             <? 10)
    && negb ((Py.len (Spec.node_text lines (mkNode ty sp ep sb eb kids))
              >? max_chunk_size settings * 2)
             && str_in ty ["class_declaration"; "namespace_declaration"]).
Proof. reflexivity. Qed.

(** The chunks of a walk are those of the nodes it visits. *)
Lemma walk_emits_at_visited ctx node :
  walk node ctx
  = flat_map (fun n => if Spec.emitted settings lines n then [chunk_of ctx n] else [])
             (visited settings lines node).
Proof.
  induction node as [ty sp ep sb eb kids IH] using Node_induction.
  assert (Hd : flat_map (fun child => walk child ctx) kids
               = flat_map (fun n => if Spec.emitted settings lines n
                                    then [chunk_of ctx n] else [])
                          (flat_map (visited settings lines) kids)).
  { rewrite flat_map_flat_map. apply flat_map_ext_Forall. exact IH. }
  rewrite walk_unfold, visited_unfold. cbv zeta. rewrite Hd.
  destruct (str_in ty target_types) eqn:ET.
  2:{ cbn [flat_map]. now rewrite emitted_unfold, ET. }
  destruct (Py.len (Py.strip _) <? 10) eqn:ES.
  { cbn [flat_map]. now rewrite emitted_unfold, ET, ES. }
  destruct (_ && _) eqn:EB.
  { cbn [flat_map]. now rewrite emitted_unfold, ET, ES, EB. }
  cbn [flat_map]. rewrite emitted_unfold, ET, ES, EB.
  destruct (str_in ty ["method_declaration"; "property_declaration";
                       "constructor_declaration"]); reflexivity.
Qed.

Lemma Forall_descend (P : CodeChunk -> Prop) kids ctx :
  Forall (fun child => Forall P (walk child ctx)) kids ->
  Forall P (flat_map (fun child => walk child ctx) kids).
Proof.
  induction 1 as [|k kids Hk _ IH]; simpl; [constructor|].
  apply Forall_app. split; assumption.
Qed.

(** Every chunk the walk emits satisfies [P] as soon as the chunk built
    for any large enough node does; [Q] is a property of the tree that
    passes to the children. *)
Lemma traverse_Forall (P : CodeChunk -> Prop) (Q : Node -> Prop) ctx :
  (forall ty sp ep sb eb kids, Q (mkNode ty sp ep sb eb kids) -> Forall Q kids) ->
  (forall node,
      Q node ->
      10 <= Py.len (Py.strip (Spec.node_text lines node)) ->
      P (chunk_of ctx node)) ->
  forall node, Q node -> Forall P (walk node ctx).
Proof.
  intros HQ HP node. induction node as [ty sp ep sb eb kids IH] using Node_induction.
  intros Hq. pose proof (HQ _ _ _ _ _ _ Hq) as Hkids.
  assert (Hd : Forall P (flat_map (fun child => walk child ctx) kids)).
  { apply Forall_descend. rewrite Forall_forall in *.
    intros k Hk. apply IH; [exact Hk | now apply Hkids]. }
  rewrite walk_unfold. cbv zeta.
  destruct (str_in ty target_types); [|exact Hd].
  destruct (Py.len (Py.strip _) <? 10) eqn:E; [constructor|].
  destruct (_ && _); [exact Hd|].
  constructor.
  - apply (HP (mkNode ty sp ep sb eb kids) Hq). apply Z.ltb_ge in E. exact E.
  - destruct (str_in ty _); [constructor | exact Hd].
Qed.

Lemma rows_in_file_kids n ty sp ep sb eb kids :
  Spec.rows_in_file n (mkNode ty sp ep sb eb kids) = true ->
  Forall (fun k => Spec.rows_in_file n k = true) kids.
Proof.
  simpl. intros H. apply andb_true_iff in H as [_ H].
  rewrite forallb_forall in H. apply List.Forall_forall. exact H.
Qed.

(** Every structural chunk carries the text of the lines it names. *)
Lemma traverse_literal node ctx :
  Spec.rows_in_file (List.length lines) node = true ->
  Forall (Spec.literal_chunk content) (walk node ctx).
Proof.
  apply (traverse_Forall (Spec.literal_chunk content)
           (fun n => Spec.rows_in_file (List.length lines) n = true)).
  - intros. eapply rows_in_file_kids; eassumption.
  - intros [ty sp ep sb eb kids] Hrows Hbig.
    unfold Spec.literal_chunk, node_chunk, Spec.node_text in *. simpl in *.
    apply andb_true_iff in Hrows as [Hrow _]. apply Nat.ltb_lt in Hrow.
    assert (Hse : (fst sp <= fst ep)%nat).
    { destruct (le_lt_dec (fst sp) (fst ep)) as [|Hlt]; [assumption|].
      exfalso. unfold Py.slice in Hbig.
      replace (fst ep + 1 - fst sp)%nat with 0%nat in Hbig by lia.
      simpl in Hbig. unfold Py.len in Hbig. simpl in Hbig. lia. }
    split; [lia|]. split; [lia|]. split; [lia|].
    unfold Spec.lines_text. f_equal. f_equal; lia.
Qed.

Lemma traverse_stamped node ctx :
  Forall (fun c => Models.repo_name c = repo /\ Models.file_path c = path)
         (walk node ctx).
Proof.
  apply (traverse_Forall _ (fun _ => True)); [| |exact I].
  - intros. apply List.Forall_forall. intros; exact I.
  - intros n _ _. simpl. split; reflexivity.
Qed.

(** A node below the minimum size ends the walk of its subtree. *)
Lemma traverse_too_small node ctx :
  Spec.too_small lines node = true ->
  walk node ctx = [] /\ visited settings lines node = [node].
Proof.
  destruct node as [ty sp ep sb eb kids].
  rewrite walk_unfold, visited_unfold. cbv zeta.
  unfold Spec.too_small. cbn [node_type].
  intros H. apply andb_true_iff in H as [Ht Hs].
  rewrite Ht, Hs. split; reflexivity.
Qed.

End Traverse.
End TraverseFacts.

(* ===================================================================== *)
(** ** [parse_file] and the chunk identifiers *)
(* ===================================================================== *)

Module ParseFacts.
Import Models CodeParser PyFacts.

Section Parse.
Variable settings : Settings.
Variable sha256_hexdigest : string -> string.
Variable parsers : Language -> option Parser.
Variables (content path repo commit : string) (lang : Language).

Local Abbreviation result :=
  (parse_file settings sha256_hexdigest parsers content path repo commit lang).
Local Abbreviation windows :=
  (_simple_chunking settings sha256_hexdigest content path repo commit lang).

(** [parse_file] answers with the structural chunks when there are
    some, and with the windowing chunks in every other case. *)
Lemma parse_file_by_strategy :
  result
  = match Spec.structural_result settings sha256_hexdigest parsers content
            path repo commit lang with
    | Some (ch :: chunks) => ch :: chunks
    | _ => windows
    end.
Proof.
  unfold parse_file, Spec.structural_result.
  destruct (parsers lang) as [parser|]; [|reflexivity].
  destruct (parser content) as [root|]; [|reflexivity].
  cbv zeta. destruct (if Language_eqb lang CSHARP then _ else _); reflexivity.
Qed.

Lemma parse_file_cases :
  result = windows
  \/ (exists parser root,
         parsers lang = Some parser /\ parser content = Some root
         /\ result = _parse_csharp settings sha256_hexdigest root content
                                   path repo commit).
Proof.
  unfold parse_file.
  destruct (parsers lang) as [parser|]; [|now left].
  destruct (parser content) as [root|] eqn:Ep; [|now left].
  destruct (Language_eqb lang CSHARP); [|now left].
  destruct (_parse_csharp _ _ _ _ _ _ _) as [|ch chunks] eqn:Ec; [now left|].
  right. exists parser, root. rewrite Ec. now repeat split.
Qed.

Lemma parse_file_not_nil : result <> [].
Proof.
  rewrite parse_file_by_strategy.
  destruct (Spec.structural_result _ _ _ _ _ _ _ _) as [[|ch chunks]|];
    try discriminate; apply WindowFacts.simple_chunking_nonempty.
Qed.

Lemma parse_file_stamped :
  Forall (fun ch => repo_name ch = repo /\ file_path ch = path) result.
Proof.
  destruct parse_file_cases as [-> | (parser & root & _ & _ & ->)].
  - apply WindowFacts.simple_chunking_Forall. intros. split; reflexivity.
  - apply TraverseFacts.traverse_stamped.
Qed.

End Parse.


(** C5.  Every chunk [parse_file] returns, from the structural walk or
    from the windowing strategy, names a 1-indexed inclusive line range
    of the file and has as content exactly those lines joined by
    newlines.  The tree handed back by the parser is assumed to stay
    within the rows of the file, as tree-sitter trees do. *)
Theorem chunks_are_literal_lines
    (settings : Settings) (sha256_hexdigest : string -> string)
    (parsers : Language -> option Parser)
    (content path repo commit : string) (lang : Language) :
  Spec.parsed_rows_in_file parsers content lang = true ->
  Forall (Spec.literal_chunk content)
         (parse_file settings sha256_hexdigest parsers content path repo commit lang).
Proof.
  intros Hrows.
  destruct (parse_file_cases settings sha256_hexdigest parsers content path repo
              commit lang) as [-> | (parser & root & Hp & Hr & ->)].
  - apply LiteralFacts.simple_chunking_literal.
  - unfold Spec.parsed_rows_in_file in Hrows. rewrite Hp, Hr in Hrows.
    apply TraverseFacts.traverse_literal. exact Hrows.
Qed.

Lemma chunks_are_literal_lines_witness :
  Forall (Spec.literal_chunk Examples.calc_content)
         (parse_file Examples.default_settings Examples.reverse_digest
                     Examples.csharp_parsers Examples.calc_content
                     "Calculator.cs" "test-repo" "abc123" CSHARP).
Proof.
  apply (chunks_are_literal_lines Examples.default_settings Examples.reverse_digest
           Examples.csharp_parsers Examples.calc_content
           "Calculator.cs" "test-repo" "abc123" CSHARP).
  reflexivity.
Defined.

Example calc_chunks :
  map (fun c => (chunk_type c, start_line c, end_line c))
      (parse_file Examples.default_settings Examples.reverse_digest
                  Examples.csharp_parsers Examples.calc_content
                  "Calculator.cs" "test-repo" "abc123" CSHARP)
  = [ ("namespace_declaration", 1, 7); ("class_declaration", 3, 6);
      ("method_declaration", 5, 5) ].
Proof. reflexivity. Qed.

(** *** Chunk identifiers *)

Lemma generate_chunk_id_text sha256_hexdigest repo path n commit :
  _generate_chunk_id sha256_hexdigest repo path n commit
  = Py.str_take 16 (sha256_hexdigest (Spec.chunk_id_text repo path n commit)).
Proof. reflexivity. Qed.

Lemma str_app_inv_tail (a b s : string) : a +:+ s = b +:+ s -> a = b.
Proof.
  revert b. induction a as [|x a IH]; intros [|y b] H.
  - reflexivity.
  - exfalso. apply (f_equal String.length) in H.
    rewrite !str_length_app in H. simpl in H. lia.
  - exfalso. apply (f_equal String.length) in H.
    rewrite !str_length_app in H. simpl in H. lia.
  - rewrite !str_app_cons in H. inversion H; subst. f_equal. now apply IH.
Qed.

(** Two repository names give two different texts to digest when path,
    start line and revision agree. *)
Lemma chunk_id_text_repo repo1 repo2 path n commit :
  Spec.chunk_id_text repo1 path n commit = Spec.chunk_id_text repo2 path n commit ->
  repo1 = repo2.
Proof. unfold Spec.chunk_id_text. apply str_app_inv_tail. Qed.

(** So do two paths when repository, start line and revision agree. *)
Lemma chunk_id_text_path repo path1 path2 n commit :
  Spec.chunk_id_text repo path1 n commit = Spec.chunk_id_text repo path2 n commit ->
  path1 = path2.
Proof.
  unfold Spec.chunk_id_text. intros H.
  do 2 apply String.app_inj in H. now apply str_app_inv_tail in H.
Qed.

(** So do two revisions when repository, path and start line agree. *)
Lemma chunk_id_text_commit repo path n commit1 commit2 :
  Spec.chunk_id_text repo path n commit1 = Spec.chunk_id_text repo path n commit2 ->
  commit1 = commit2.
Proof.
  unfold Spec.chunk_id_text. intros H.
  repeat (apply String.app_inj in H). exact H.
Qed.

(** *** The same content under two repository names *)

Lemma map_flat_map_ext {A B C} (f : B -> C) (g h : A -> list B) l :
  Forall (fun x => map f (g x) = map f (h x)) l ->
  map f (flat_map g l) = map f (flat_map h l).
Proof.
  induction 1 as [|x l Hx _ IH]; [reflexivity|].
  cbn [flat_map]. now rewrite !map_app, Hx, IH.
Qed.

Lemma traverse_content_repo settings sha256_hexdigest content path repo1 repo2
    commit ctx node :
  map Models.content
      (traverse settings sha256_hexdigest (Py.split_nl content) content path
                repo1 commit node ctx)
  = map Models.content
        (traverse settings sha256_hexdigest (Py.split_nl content) content path
                  repo2 commit node ctx).
Proof.
  induction node as [ty sp ep sb eb kids IH] using TraverseFacts.Node_induction.
  apply map_flat_map_ext in IH.
  rewrite !TraverseFacts.walk_unfold. cbv zeta.
  destruct (str_in ty target_types); [|exact IH].
  destruct (Py.len (Py.strip _) <? 10); [reflexivity|].
  destruct (_ && _); [exact IH|].
  cbn [map]. f_equal.
  destruct (str_in ty ["method_declaration"; "property_declaration";
                       "constructor_declaration"]); [reflexivity | exact IH].
Qed.

Lemma window_step_content_repo settings sha256_hexdigest path repo1 repo2 commit
    lang st1 st2 i line :
  current_chunk st1 = current_chunk st2 ->
  current_size st1 = current_size st2 ->
  map Models.content (chunks st1) = map Models.content (chunks st2) ->
  current_chunk (window_step settings sha256_hexdigest path repo1 commit lang
                             st1 i line)
  = current_chunk (window_step settings sha256_hexdigest path repo2 commit lang
                               st2 i line)
  /\ current_size (window_step settings sha256_hexdigest path repo1 commit lang
                                st1 i line)
     = current_size (window_step settings sha256_hexdigest path repo2 commit lang
                                 st2 i line)
  /\ map Models.content
         (chunks (window_step settings sha256_hexdigest path repo1 commit lang
                              st1 i line))
     = map Models.content
           (chunks (window_step settings sha256_hexdigest path repo2 commit lang
                                st2 i line)).
Proof.
  intros Hc Hs Hm. unfold window_step. rewrite Hc, Hs.
  destruct (_ && _); [|cbn; now rewrite Hc, Hs].
  destruct (overlap_loop _ _ _ _) as [ol osz]. cbn.
  split; [reflexivity|]. split; [reflexivity|].
  now rewrite !map_app, Hm.
Qed.

Lemma window_loop_content_repo settings sha256_hexdigest path repo1 repo2 commit
    lang lines : forall i st1 st2,
  current_chunk st1 = current_chunk st2 ->
  current_size st1 = current_size st2 ->
  map Models.content (chunks st1) = map Models.content (chunks st2) ->
  current_chunk (window_loop settings sha256_hexdigest path repo1 commit lang
                             i lines st1)
  = current_chunk (window_loop settings sha256_hexdigest path repo2 commit lang
                               i lines st2)
  /\ map Models.content
         (chunks (window_loop settings sha256_hexdigest path repo1 commit lang
                              i lines st1))
     = map Models.content
           (chunks (window_loop settings sha256_hexdigest path repo2 commit lang
                                i lines st2)).
Proof.
  induction lines as [|line lines IH]; intros i st1 st2 Hc Hs Hm; [now split|].
  rewrite !WindowFacts.loop_cons.
  destruct (window_step_content_repo settings sha256_hexdigest path repo1 repo2
              commit lang st1 st2 i line Hc Hs Hm) as (Hc' & Hs' & Hm').
  now apply IH.
Qed.

Lemma simple_chunking_content_repo settings sha256_hexdigest content path
    repo1 repo2 commit lang :
  map Models.content
      (_simple_chunking settings sha256_hexdigest content path repo1 commit lang)
  = map Models.content
        (_simple_chunking settings sha256_hexdigest content path repo2 commit lang).
Proof.
  unfold _simple_chunking.
  destruct (window_loop_content_repo settings sha256_hexdigest path repo1 repo2
              commit lang (Py.split_nl content) 0
              {| chunks := []; current_chunk := []; current_size := 0;
                 w_start_line := 0 |}
              {| chunks := []; current_chunk := []; current_size := 0;
                 w_start_line := 0 |} eq_refl eq_refl eq_refl) as [Hc Hm].
  rewrite Hc. destruct (negb _); [|exact Hm].
  rewrite !map_app, Hm. reflexivity.
Qed.

(** The same file under two repository names gives chunks with the same
    contents, in the same order. *)
Lemma parse_file_content_repo settings sha256_hexdigest parsers content path
    repo1 repo2 commit lang :
  map Models.content
      (parse_file settings sha256_hexdigest parsers content path repo1 commit lang)
  = map Models.content
        (parse_file settings sha256_hexdigest parsers content path repo2 commit lang).
Proof.
  pose proof (simple_chunking_content_repo settings sha256_hexdigest content path
                repo1 repo2 commit lang) as Hw.
  unfold parse_file.
  destruct (parsers lang) as [parser|]; [|exact Hw].
  destruct (parser content) as [root|]; [|exact Hw].
  destruct (Language_eqb lang CSHARP); [|exact Hw].
  pose proof (traverse_content_repo settings sha256_hexdigest content path
                repo1 repo2 commit "" root) as Ht.
  unfold _parse_csharp.
  destruct (traverse _ _ _ _ _ repo1 _ _ _) as [|c1 l1];
    destruct (traverse _ _ _ _ _ repo2 _ _ _) as [|c2 l2];
    try discriminate; [exact Hw | exact Ht].
Qed.

(** C8, evaluated at the failing input.  The fields are joined with ':'
    without escaping, so a ':' can move from the repository name to the
    path without changing the text that is digested: whatever the
    digest, repository [r:q] with path [p] and repository [r] with path
    [q:p] get the same identifier for the same start line and revision.
    In particular the repository "a:b" with the path "c" and the
    repository "a" with the path "b:c" both digest "a:b:c:7:abc123". *)
Theorem chunk_id_separator_collision (sha256_hexdigest : string -> string) :
  (forall r q p n commit,
      _generate_chunk_id sha256_hexdigest (r +:+ ":" +:+ q) p n commit
      = _generate_chunk_id sha256_hexdigest r (q +:+ ":" +:+ p) n commit)
  /\ "a:b" <> "a" /\ "c" <> "b:c"
  /\ _generate_chunk_id sha256_hexdigest "a:b" "c" 7 "abc123"
     = _generate_chunk_id sha256_hexdigest "a" "b:c" 7 "abc123".
Proof.
  split.
  - intros r q p n commit. rewrite !generate_chunk_id_text.
    unfold Spec.chunk_id_text. now rewrite !str_app_assoc.
  - split; [discriminate|]. split; [discriminate | reflexivity].
Qed.

End ParseFacts.

(* ===================================================================== *)
(** ** Pruning below the minimum size *)
(* ===================================================================== *)

Module StripFacts.
Import PyFacts.

Lemma rstrip_length_cons a x :
  String.length (Py.rstrip (String a x))
  = if Nat.eqb (String.length (Py.rstrip x)) 0
    then (if Py.isspace a then 0%nat else 1%nat)
    else S (String.length (Py.rstrip x)).
Proof.
  simpl. destruct (Py.rstrip x) as [|c r]; simpl; [|reflexivity].
  now destruct (Py.isspace a).
Qed.

Lemma rstrip_cons_le a x :
  (String.length (Py.rstrip x) <= String.length (Py.rstrip (String a x)))%nat.
Proof.
  rewrite rstrip_length_cons.
  destruct (Nat.eqb_spec (String.length (Py.rstrip x)) 0); lia.
Qed.

Lemma rstrip_app_le t v :
  (String.length (Py.rstrip t) <= String.length (Py.rstrip (t +:+ v)))%nat.
Proof.
  induction t as [|a t IH]; [simpl; lia|].
  rewrite str_app_cons, !rstrip_length_cons.
  destruct (Nat.eqb_spec (String.length (Py.rstrip t)) 0) as [E1|E1];
    destruct (Nat.eqb_spec (String.length (Py.rstrip (t +:+ v))) 0) as [E2|E2];
    destruct (Py.isspace a); lia.
Qed.

Lemma lstrip_app s v :
  Py.lstrip s <> "" -> Py.lstrip (s +:+ v) = Py.lstrip s +:+ v.
Proof.
  induction s as [|a s IH]; [simpl; congruence|].
  rewrite str_app_cons. cbn [Py.lstrip].
  destruct (Py.isspace a); [exact IH | reflexivity].
Qed.

Lemma strip_app_le s v :
  (String.length (Py.strip s) <= String.length (Py.strip (s +:+ v)))%nat.
Proof.
  unfold Py.strip. destruct (Py.lstrip s) as [|c r] eqn:E; [simpl; lia|].
  rewrite lstrip_app by (rewrite E; discriminate).
  rewrite E. apply rstrip_app_le.
Qed.

Lemma rstrip_lstrip_le s :
  (String.length (Py.rstrip (Py.lstrip s)) <= String.length (Py.rstrip s))%nat.
Proof.
  induction s as [|a s IH]; [simpl; lia|].
  cbn [Py.lstrip]. destruct (Py.isspace a); [|lia].
  pose proof (rstrip_cons_le a s). lia.
Qed.

Lemma strip_cons_le a s :
  (String.length (Py.strip s) <= String.length (Py.strip (String a s)))%nat.
Proof.
  unfold Py.strip. cbn [Py.lstrip]. destruct (Py.isspace a); [lia|].
  pose proof (rstrip_cons_le a s). pose proof (rstrip_lstrip_le s). lia.
Qed.

(** Stripping a text leaves at least as much as stripping any part of
    it. *)
Lemma strip_infix_le u s v :
  (String.length (Py.strip s) <= String.length (Py.strip (u +:+ s +:+ v)))%nat.
Proof.
  induction u as [|a u IH].
  - change ("" +:+ s +:+ v) with (s +:+ v). apply strip_app_le.
  - rewrite str_app_cons.
    pose proof (strip_cons_le a (u +:+ s +:+ v)). lia.
Qed.

Lemma join_prefix X M : exists u, Py.join_nl (X ++ M) = u +:+ Py.join_nl M.
Proof.
  induction X as [|x X [u IH]]; [now exists ""|].
  change ((x :: X) ++ M)%list with (x :: (X ++ M))%list. rewrite join_cons.
  destruct (X ++ M)%list as [|y l] eqn:E.
  - apply app_eq_nil in E as [_ ->]. exists x. unfold Py.join_nl at 1. simpl.
    now rewrite str_app_nil_r.
  - rewrite IH. exists (x +:+ Py.nl +:+ u). now rewrite !str_app_assoc.
Qed.

Lemma join_suffix M Y : exists v, Py.join_nl (M ++ Y) = Py.join_nl M +:+ v.
Proof.
  induction M as [|m M [v IH]]; [now exists (Py.join_nl Y)|].
  change ((m :: M) ++ Y)%list with (m :: (M ++ Y))%list. rewrite !join_cons.
  destruct (M ++ Y)%list as [|y l] eqn:E.
  - apply app_eq_nil in E as [-> _]. exists "". now rewrite str_app_nil_r.
  - rewrite IH. destruct M as [|m' M].
    + exists (Py.nl +:+ v). reflexivity.
    + exists v. now rewrite !str_app_assoc.
Qed.

Lemma join_infix X M Y :
  exists u v, Py.join_nl (X ++ M ++ Y) = u +:+ Py.join_nl M +:+ v.
Proof.
  destruct (join_prefix X (M ++ Y)) as [u Hu].
  destruct (join_suffix M Y) as [v Hv].
  exists u, v. now rewrite Hu, Hv.
Qed.

Lemma slice_infix {A} (l : list A) a b a' b' :
  (a <= a')%nat -> (b' <= b)%nat ->
  exists X Y, Py.slice l a b = (X ++ Py.slice l a' b' ++ Y)%list.
Proof.
  intros Ha Hb. unfold Py.slice.
  destruct (le_lt_dec b' a') as [Hle | Hlt].
  - replace (b' - a')%nat with 0%nat by lia. simpl.
    exists (take (b - a) (drop a l)), []. now rewrite app_nil_r.
  - exists (take (a' - a) (drop a l)), (take (b - b') (drop (b' - a') (drop a' l))).
    replace (b - a)%nat with ((a' - a) + (b - a'))%nat by lia.
    rewrite <- take_take_drop. f_equal.
    rewrite drop_drop. replace (a + (a' - a))%nat with a' by lia.
    replace (b - a')%nat with ((b' - a') + (b - b'))%nat by lia.
    now rewrite <- take_take_drop.
Qed.

(** The stripped text of a line range is no longer than that of any
    range around it. *)
Lemma strip_slice_le lines a b a' b' :
  (a <= a')%nat -> (b' <= b)%nat ->
  Py.len (Py.strip (Py.join_nl (Py.slice lines a' b')))
  <= Py.len (Py.strip (Py.join_nl (Py.slice lines a b))).
Proof.
  intros Ha Hb. destruct (slice_infix lines a b a' b' Ha Hb) as (X & Y & ->).
  destruct (join_infix X (Py.slice lines a' b') Y) as (u & v & ->).
  unfold Py.len. pose proof (strip_infix_le u (Py.join_nl (Py.slice lines a' b')) v).
  lia.
Qed.

End StripFacts.

Module PruneFacts.
Import Models CodeParser PyFacts StripFacts TraverseFacts.

Section Prune.
Variable settings : Settings.
Variable sha256_hexdigest : string -> string.
Variables path repo commit : string.
Variable content : string.

Local Abbreviation lines := (Py.split_nl content).
Local Abbreviation walk :=
  (traverse settings sha256_hexdigest lines content path repo commit).

(** Inside a line range whose stripped text is below the threshold no
    node is large enough to be emitted. *)
Lemma silent_subtree ctx node : forall a b,
  (a <= fst (start_point node))%nat ->
  (fst (end_point node) <= b)%nat ->
  Spec.nested_spans node = true ->
  Py.len (Py.strip (Py.join_nl (Py.slice lines a (b + 1)))) < 10 ->
  walk node ctx = [].
Proof.
  induction node as [ty sp ep sb eb kids IH] using Node_induction.
  intros a b Ha Hb Hnest Hsmall. cbn [start_point end_point] in Ha, Hb.
  assert (Hd : flat_map (fun child => walk child ctx) kids = []).
  { apply flat_map_nil. simpl in Hnest. rewrite forallb_forall in Hnest.
    rewrite List.Forall_forall in IH |- *. intros k Hk.
    specialize (Hnest k Hk).
    apply andb_true_iff in Hnest as [Hspan Hn].
    apply andb_true_iff in Hspan as [Hs He].
    apply Nat.leb_le in Hs, He.
    apply (IH k Hk a b); [lia | lia | exact Hn | exact Hsmall]. }
  rewrite walk_unfold. cbv zeta. rewrite Hd.
  destruct (str_in ty target_types); [|reflexivity].
  assert (Hlt : (Py.len (Py.strip (Spec.node_text lines
                                     (mkNode ty sp ep sb eb kids))) <? 10) = true).
  { apply Z.ltb_lt. unfold Spec.node_text. cbn [start_point end_point].
    pose proof (strip_slice_le lines a (b + 1) (fst sp) (fst ep + 1)
                  ltac:(lia) ltac:(lia)). lia. }
  now rewrite Hlt.
Qed.

Lemma too_small_children_silent ctx node :
  Spec.too_small lines node = true ->
  Spec.nested_spans node = true ->
  flat_map (fun child => walk child ctx) (children node) = [].
Proof.
  destruct node as [ty sp ep sb eb kids]. intros Hs Hn.
  unfold Spec.too_small, Spec.node_text in Hs.
  cbn [node_type start_point end_point children] in *.
  apply andb_true_iff in Hs as [_ Hs]. apply Z.ltb_lt in Hs.
  apply flat_map_nil. apply List.Forall_forall. intros k Hk.
  simpl in Hn. rewrite forallb_forall in Hn. specialize (Hn k Hk).
  apply andb_true_iff in Hn as [Hspan Hn].
  apply andb_true_iff in Hspan as [Hs' He'].
  apply Nat.leb_le in Hs', He'.
  apply (silent_subtree ctx k (fst sp) (fst ep)); assumption.
Qed.

End Prune.

(** C3, as amended.  For a node of a target kind whose stripped text is
    shorter than the 10-character threshold, the walk emits no chunk and
    returns at once: neither the node nor anything below it yields a
    chunk, and its children are not visited.  On a tree whose children
    lie within the lines of their parent this loses nothing, since the
    children would not have yielded a chunk either. *)
Theorem too_small_node_ends_walk
    (settings : Settings) (sha256_hexdigest : string -> string)
    (path repo commit content : string) (node : Node) (ctx : string) :
  Spec.too_small (Py.split_nl content) node = true ->
  traverse settings sha256_hexdigest (Py.split_nl content) content path repo
           commit node ctx = []
  /\ visited settings (Py.split_nl content) node = [node]
  /\ (Spec.nested_spans node = true ->
      flat_map (fun child =>
                  traverse settings sha256_hexdigest (Py.split_nl content)
                           content path repo commit child ctx)
               (children node) = []).
Proof.
  intros Hsmall.
  destruct (traverse_too_small settings sha256_hexdigest path repo commit content
              node ctx Hsmall) as [Hw Hv].
  split; [exact Hw|]. split; [exact Hv|].
  intros Hn. now apply too_small_children_silent.
Qed.

Lemma too_small_node_ends_walk_witness :
  Spec.too_small (Py.split_nl "class A{}") Examples.tiny_class = true
  /\ traverse Examples.default_settings Examples.reverse_digest
              (Py.split_nl "class A{}") "class A{}" "A.cs" "demo" "c1"
              Examples.tiny_class "" = []
  /\ visited Examples.default_settings (Py.split_nl "class A{}")
             Examples.tiny_class = [Examples.tiny_class].
Proof.
  split; [reflexivity|].
  pose proof (too_small_node_ends_walk Examples.default_settings
                Examples.reverse_digest "A.cs" "demo" "c1" "class A{}"
                Examples.tiny_class "" eq_refl) as (Hw & Hv & _).
  split; [exact Hw | exact Hv].
Defined.

(** C3, as stated, fails: the class declaration "class A{}" has nine
    characters, and the walk that reaches it does not go on to its
    children. *)
Lemma too_small_node_children_not_visited :
  Spec.too_small Examples.tiny_lines Examples.tiny_class = true
  /\ In Examples.tiny_body (children Examples.tiny_class)
  /\ ~ In Examples.tiny_body
          (visited Examples.default_settings Examples.tiny_lines Examples.tiny_class).
Proof.
  split; [reflexivity|]. split; [right; left; reflexivity|].
  intros [H | []]. discriminate H.
Qed.

End PruneFacts.

(* ===================================================================== *)
(** ** The change detector *)
(* ===================================================================== *)

Module GitFacts.
Import Models GitManager.

Lemma add_all_files_spec config items : forall acc p,
  p ∈ add_all_files config items acc <->
  p ∈ acc \/ exists item, In item items /\ item_type item = "blob"
                          /\ item_path item = p
                          /\ _should_process_file config p = true.
Proof.
  induction items as [|it items IH]; intros acc p.
  - split; [auto | intros [H | (i & [] & _)]; exact H].
  - unfold add_all_files in *. cbn [fold_left]. rewrite IH. clear IH.
    destruct (String.eqb (item_type it) "blob") eqn:Et; cbn [andb].
    + apply String.eqb_eq in Et.
      destruct (_should_process_file config (item_path it)) eqn:Es.
      * rewrite elem_of_union, elem_of_singleton. split.
        -- intros [[H | ->] | (i & Hi & H)]; [auto | right | right].
           ++ exists it. split; [now left | auto].
           ++ exists i. split; [now right | auto].
        -- intros [H | (i & [<- | Hi] & Hb & Hp & Hs)]; [auto | | right; eauto].
           left. right. auto.
      * split.
        -- intros [H | (i & Hi & H)]; [auto | right; exists i; split; [now right | auto]].
        -- intros [H | (i & [<- | Hi] & Hb & Hp & Hs)]; [auto | | right; eauto].
           congruence.
    + split.
      * intros [H | (i & Hi & H)]; [auto | right; exists i; split; [now right | auto]].
      * intros [H | (i & [<- | Hi] & Hb & Hp & Hs)]; [auto | | right; eauto].
        apply String.eqb_neq in Et. congruence.
Qed.

(** The first-run result: every admissible blob of the snapshot is
    added, nothing is modified or deleted. *)
Lemma first_run_result config repo :
  get_changed_files config repo None
  = (add_all_files config (tree_items repo) ∅, ∅, ∅).
Proof. reflexivity. Qed.

(** A path gets into [modified] only after the admission check. *)
Lemma diff_step_modified config acc d :
  (forall q, q ∈ acc.1.2 -> _should_process_file config q = true) ->
  forall q, q ∈ (diff_step config acc d).1.2 ->
            _should_process_file config q = true.
Proof.
  intros Hacc. destruct acc as [[a m] dl]. unfold diff_step.
  destruct (_should_process_file config _) eqn:Es; cbn [negb]; [|exact Hacc].
  destruct (String.eqb (change_type d) "A"); [exact Hacc|].
  destruct (String.eqb (change_type d) "M").
  { cbn [fst snd] in *. intros q Hq.
    apply elem_of_union in Hq as [Hq | Hq]; [now apply Hacc|].
    apply elem_of_singleton in Hq. now subst. }
  destruct (String.eqb (change_type d) "D"); [exact Hacc|].
  destruct (String.eqb (change_type d) "R"); exact Hacc.
Qed.

Lemma modified_is_admissible config repo old_commit p :
  p ∈ (get_changed_files config repo old_commit).1.2 ->
  _should_process_file config p = true.
Proof.
  assert (Hempty : forall q : string,
             q ∈ (∅ : gset string) -> _should_process_file config q = true).
  { intros q Hq. now apply not_elem_of_empty in Hq. }
  assert (Hfold : forall items acc,
             (forall q, q ∈ acc.1.2 -> _should_process_file config q = true) ->
             forall q, q ∈ (fold_left (diff_step config) items acc).1.2 ->
                       _should_process_file config q = true).
  { induction items as [|d items IH]; intros acc Hacc; [exact Hacc|].
    cbn [fold_left]. apply IH. now apply diff_step_modified. }
  unfold get_changed_files.
  destruct old_commit as [old|]; [|apply Hempty].
  destruct (String.eqb old ""); [apply Hempty|].
  destruct (diff repo old) as [items|]; [|apply Hempty].
  apply Hfold. apply Hempty.
Qed.

(** When the diff holds no rename, every reported path is admissible. *)
Lemma diff_step_admissible config acc d :
  change_type d <> "R" ->
  Spec.all_admissible config acc -> Spec.all_admissible config (diff_step config acc d).
Proof.
  intros HR Hacc. destruct acc as [[a m] dl]. unfold diff_step.
  destruct (_should_process_file config _) eqn:Es; cbn [negb]; [|exact Hacc].
  unfold Spec.all_admissible in *; cbn [fst snd] in *.
  set (fp := if String.eqb (a_path d) "" then b_path d else a_path d) in *.
  assert (Hstep : forall a' m' dl' : gset string,
             (forall p, p ∈ a' ∪ m' ∪ dl' -> p ∈ a ∪ m ∪ dl \/ p = fp) ->
             forall p, p ∈ (a', m', dl').1.1 ∪ (a', m', dl').1.2 ∪ (a', m', dl').2 ->
                       _should_process_file config p = true).
  { intros a' m' dl' Hsub p Hp. cbn [fst snd] in Hp.
    destruct (Hsub p Hp) as [H | ->]; [now apply Hacc | exact Es]. }
  destruct (String.eqb (change_type d) "A").
  { apply Hstep. intros p. rewrite !elem_of_union, elem_of_singleton. tauto. }
  destruct (String.eqb (change_type d) "M").
  { apply Hstep. intros p. rewrite !elem_of_union, elem_of_singleton. tauto. }
  destruct (String.eqb (change_type d) "D").
  { apply Hstep. intros p. rewrite !elem_of_union, elem_of_singleton. tauto. }
  destruct (String.eqb (change_type d) "R") eqn:ER; [|exact Hacc].
  apply String.eqb_eq in ER. congruence.
Qed.

Lemma changed_files_admissible_without_rename config repo old_commit diff_index :
  old_commit <> "" ->
  diff repo old_commit = Some diff_index ->
  Forall (fun d => change_type d <> "R") diff_index ->
  Spec.all_admissible config (get_changed_files config repo (Some old_commit)).
Proof.
  intros Hne Hd Hall. unfold get_changed_files.
  apply String.eqb_neq in Hne. rewrite Hne, Hd. clear Hd.
  assert (H0 : Spec.all_admissible config (∅, ∅, ∅)).
  { intros p Hp. cbn [fst snd] in Hp. rewrite !elem_of_union in Hp.
    destruct Hp as [[Hp | Hp] | Hp]; now apply not_elem_of_empty in Hp. }
  revert H0. generalize ((∅, ∅, ∅) : gset string * gset string * gset string).
  induction Hall as [|d ds Hd' _ IH]; intros acc Hacc; [exact Hacc|].
  cbn [fold_left]. apply IH. now apply diff_step_admissible.
Qed.

(** C7.  When the diff between the previous marker and the head cannot
    be computed, the change detector returns what it returns on a first
    run: the added set holds exactly the admissible paths of the current
    snapshot, and the modified and deleted sets are empty. *)
Theorem diff_failure_degrades_to_first_run
    (config : RepositoryConfig) (repo : GitRepo) (old_commit : string) :
  diff repo old_commit = None ->
  get_changed_files config repo (Some old_commit)
  = get_changed_files config repo None
  /\ (get_changed_files config repo (Some old_commit)).1.2 = ∅
  /\ (get_changed_files config repo (Some old_commit)).2 = ∅
  /\ forall p, p ∈ (get_changed_files config repo (Some old_commit)).1.1
               <-> Spec.in_snapshot config repo p.
Proof.
  intros Hdiff.
  assert (E : get_changed_files config repo (Some old_commit)
              = (add_all_files config (tree_items repo) ∅, ∅, ∅)).
  { unfold get_changed_files. rewrite Hdiff. now destruct (String.eqb old_commit ""). }
  rewrite E. cbn [fst snd]. split; [reflexivity|].
  split; [reflexivity|]. split; [reflexivity|].
  intros p. rewrite add_all_files_spec. split.
  - intros [H | H]; [now apply not_elem_of_empty in H | exact H].
  - intros H. right. exact H.
Qed.

Lemma diff_failure_degrades_to_first_run_witness :
  diff Examples.broken_history_repo "c0" = None
  /\ get_changed_files Examples.demo_config Examples.broken_history_repo (Some "c0")
     = get_changed_files Examples.demo_config Examples.broken_history_repo None.
Proof.
  split; [reflexivity|].
  apply (diff_failure_degrades_to_first_run Examples.demo_config
           Examples.broken_history_repo "c0").
  reflexivity.
Defined.

Example broken_history_changes :
  get_changed_files Examples.demo_config Examples.broken_history_repo (Some "c0")
  = ({[ "src/util.py" ]}, ∅, ∅).
Proof. vm_compute. reflexivity. Qed.

(** A rename whose old path passes the admission check adds the new
    path, whatever the admission predicate says about it. *)
Lemma rename_adds_new_path_unchecked config acc d :
  change_type d = "R" ->
  a_path d <> "" ->
  _should_process_file config (a_path d) = true ->
  b_path d ∈ (diff_step config acc d).1.1
  /\ a_path d ∈ (diff_step config acc d).2.
Proof.
  intros HR Ha Hs. destruct acc as [[a m] dl]. unfold diff_step.
  apply String.eqb_neq in Ha. rewrite Ha, Hs, HR. cbn.
  rewrite !elem_of_union, !elem_of_singleton. auto.
Qed.

(** C6, evaluated at the failing input.  For a rename only the old path
    goes through the admission check; the new path is added unchecked.
    With C# and Python tracked, renaming [src/Calc.cs] to
    [docs/Calc.txt] puts [docs/Calc.txt] into the added set although it
    does not pass the admission predicate. *)
Theorem rename_target_escapes_admission :
  "docs/Calc.txt"
    ∈ (get_changed_files Examples.demo_config Examples.renamed_repo (Some "c0")).1.1
  /\ _should_process_file Examples.demo_config "docs/Calc.txt" = false.
Proof.
  split; [|reflexivity].
  apply (bool_decide_unpack _). vm_compute. exact I.
Qed.

End GitFacts.

(* ===================================================================== *)
(** ** The chunk store *)
(* ===================================================================== *)

Module StoreFacts.
Import Models VectorStore.

(** *** Deletion *)

Lemma get_ids_spec (m : gmap string Entry) (w : Metadata -> bool) i :
  In i (map fst (List.filter (fun kv => w (meta (snd kv))) (map_to_list m)))
  <-> exists e, m !! i = Some e /\ w (meta e) = true.
Proof.
  rewrite in_map_iff. split.
  - intros ([k e] & <- & H). apply filter_In in H as [H Hw].
    apply list_elem_of_In, elem_of_map_to_list in H. eauto.
  - intros (e & He & Hw). exists (i, e). split; [reflexivity|].
    apply filter_In. split; [|exact Hw].
    apply list_elem_of_In, elem_of_map_to_list. exact He.
Qed.

Lemma delete_where_unreachable c w :
  reachable c = false -> delete_where c w = (c, 0).
Proof. intros H. unfold delete_where, collection_get. now rewrite H. Qed.

Lemma delete_where_reachable c w :
  reachable (delete_where c w).1 = reachable c.
Proof.
  unfold delete_where, collection_get, collection_delete.
  destruct (reachable c) eqn:E; [|exact E].
  destruct (map fst _); simpl; [exact E | reflexivity].
Qed.

(** On a reachable store exactly the matching records go. *)
Lemma delete_where_lookup c w i :
  reachable c = true ->
  entries (delete_where c w).1 !! i
  = match entries c !! i with
    | Some e => if w (meta e) then None else Some e
    | None => None
    end.
Proof.
  intros Hr. unfold delete_where, collection_get, collection_delete. rewrite Hr.
  pose proof (get_ids_spec (entries c) w) as Hids.
  destruct (map fst _) as [|j ids] eqn:E.
  - simpl. destruct (entries c !! i) as [e|] eqn:Ei; [|reflexivity].
    destruct (w (meta e)) eqn:Ew; [|reflexivity].
    exfalso. apply (proj2 (Hids i)). eauto.
  - simpl.
    change (delete j (foldr delete (entries c) ids))
      with (foldr delete (entries c) (j :: ids)).
    destruct (entries c !! i) as [e|] eqn:Ei.
    + destruct (w (meta e)) eqn:Ew.
      * apply lookup_foldr_delete. apply list_elem_of_In, Hids. eauto.
      * rewrite lookup_foldr_delete_not_elem_of; [exact Ei|].
        intros Hin. apply list_elem_of_In, Hids in Hin as (e' & He' & Hw').
        congruence.
    + rewrite lookup_foldr_delete_not_elem_of; [exact Ei|].
      intros Hin. apply list_elem_of_In, Hids in Hin as (e' & He' & Hw').
      congruence.
Qed.

Lemma delete_where_none c w :
  (forall i e, entries c !! i = Some e -> w (meta e) = false) ->
  delete_where c w = (c, 0).
Proof.
  intros H. unfold delete_where, collection_get.
  destruct (reachable c); [|reflexivity].
  pose proof (get_ids_spec (entries c) w) as Hids.
  destruct (map fst _) as [|j ids]; [reflexivity|].
  exfalso. destruct (proj1 (Hids j)) as (e & He & Hw); [now left|].
  rewrite (H _ _ He) in Hw. discriminate.
Qed.

(** Deletion only removes records. *)
Lemma delete_where_sub c w i e :
  entries (delete_where c w).1 !! i = Some e -> entries c !! i = Some e.
Proof.
  destruct (reachable c) eqn:Er.
  - rewrite delete_where_lookup by exact Er.
    destruct (entries c !! i) as [e'|]; [|discriminate].
    destruct (w (meta e')); [discriminate | auto].
  - now rewrite delete_where_unreachable.
Qed.

Lemma delete_where_keeps c w i e :
  entries c !! i = Some e -> w (meta e) = false ->
  entries (delete_where c w).1 !! i = Some e.
Proof.
  intros He Hw. destruct (reachable c) eqn:Er.
  - rewrite delete_where_lookup by exact Er. now rewrite He, Hw.
  - now rewrite delete_where_unreachable.
Qed.

Lemma by_file_true repo q e :
  (String.eqb (m_repo_name (meta e)) repo && String.eqb (m_file_path (meta e)) q)
  = true
  <-> Spec.of_file repo q e.
Proof.
  unfold Spec.of_file. rewrite andb_true_iff, !String.eqb_eq. reflexivity.
Qed.

(** *** Insertion *)

Lemma add_record_keeps m r i e : m !! i = Some e -> add_record m r !! i = Some e.
Proof.
  intros H. unfold add_record. destruct (m !! fst r) eqn:E; [exact H|].
  rewrite lookup_insert_ne; [exact H | congruence].
Qed.

(** Records already present survive an insertion. *)
Lemma add_records_keep records : forall m i e,
  m !! i = Some e -> fold_left add_record records m !! i = Some e.
Proof.
  induction records as [|r records IH]; intros m i e H; [exact H|].
  cbn [fold_left]. apply IH. now apply add_record_keeps.
Qed.

(** Whatever is present after an insertion was present before or is one
    of the inserted records. *)
Lemma add_records_origin records : forall m i e,
  fold_left add_record records m !! i = Some e ->
  m !! i = Some e \/ In (i, e) records.
Proof.
  induction records as [|r records IH]; intros m i e H; [now left|].
  cbn [fold_left] in H. apply IH in H as [H | H]; [|now right; right].
  unfold add_record in H. destruct (m !! fst r) eqn:E; [now left|].
  destruct (decide (fst r = i)) as [<-|Hne].
  - rewrite lookup_insert_eq in H. inversion H; subst.
    right. left. now destruct r.
  - rewrite lookup_insert_ne in H by exact Hne. now left.
Qed.

(** A record with an unused identifier, inserted among records with
    distinct identifiers, is present afterwards. *)
Lemma add_records_fresh records : forall m i e,
  NoDup (map fst records) ->
  In (i, e) records ->
  m !! i = None ->
  fold_left add_record records m !! i = Some e.
Proof.
  induction records as [|r records IH]; intros m i e Hnd Hin Hm; [destruct Hin|].
  cbn [fold_left map] in *. apply NoDup_cons in Hnd as [Hr Hnd].
  destruct Hin as [-> | Hin].
  - apply add_records_keep. unfold add_record. cbn [fst snd].
    rewrite Hm. apply lookup_insert_eq.
  - apply IH; [exact Hnd | exact Hin |].
    unfold add_record. destruct (m !! fst r) eqn:E; [exact Hm|].
    rewrite lookup_insert_ne; [exact Hm|].
    intros Heq. apply Hr. apply list_elem_of_In, in_map_iff.
    exists (i, e). split; [simpl; congruence | exact Hin].
Qed.

Section Add.
Variable embed : string -> bool.

Lemma add_chunks_entries c chunks :
  (add_chunks embed c chunks).1 = c
  \/ (reachable c = true
      /\ (add_chunks embed c chunks).1
         = {| entries := fold_left add_record (prepare_records embed chunks)
                                   (entries c);
              reachable := reachable c |}).
Proof.
  unfold add_chunks. destruct chunks as [|ch chunks]; [now left|].
  destruct (prepare_records embed (ch :: chunks)) as [|r rs] eqn:E; [now left|].
  unfold collection_add. destruct (reachable c) eqn:Er; [|now left].
  right. split; reflexivity.
Qed.

Lemma add_chunks_ok c chunks :
  reachable c = true ->
  entries (add_chunks embed c chunks).1
  = fold_left add_record (prepare_records embed chunks) (entries c).
Proof.
  intros Hr. unfold add_chunks. destruct chunks as [|ch chunks]; [reflexivity|].
  destruct (prepare_records embed (ch :: chunks)) as [|r rs] eqn:E; [reflexivity|].
  unfold collection_add. rewrite Hr. reflexivity.
Qed.

Lemma add_chunks_reachable c chunks :
  reachable (add_chunks embed c chunks).1 = reachable c.
Proof.
  destruct (add_chunks_entries c chunks) as [-> | [_ ->]]; reflexivity.
Qed.

Lemma add_chunks_keeps c chunks i e :
  entries c !! i = Some e -> entries (add_chunks embed c chunks).1 !! i = Some e.
Proof.
  intros H. destruct (add_chunks_entries c chunks) as [-> | [_ ->]];
    [exact H|]. cbn [entries]. now apply add_records_keep.
Qed.

Lemma prepare_records_in chunks i e :
  In (i, e) (prepare_records embed chunks) ->
  exists ch, In ch chunks /\ i = id ch /\ e = Spec.entry_of ch.
Proof.
  unfold prepare_records. rewrite in_flat_map. intros (ch & Hch & H).
  destruct (embed _); [|destruct H].
  destruct H as [H | []]. inversion H; subst. eauto.
Qed.

Lemma prepare_records_all chunks :
  Forall (fun ch => embed (_prepare_chunk_text ch) = true) chunks ->
  prepare_records embed chunks = map (fun ch => (id ch, Spec.entry_of ch)) chunks.
Proof.
  induction 1 as [|ch chunks Hch _ IH]; [reflexivity|].
  unfold prepare_records in *. cbn [flat_map map]. rewrite Hch, IH. reflexivity.
Qed.

Lemma add_chunks_origin c chunks i e :
  entries (add_chunks embed c chunks).1 !! i = Some e ->
  entries c !! i = Some e
  \/ exists ch, In ch chunks /\ i = id ch /\ e = Spec.entry_of ch.
Proof.
  destruct (add_chunks_entries c chunks) as [-> | [_ ->]]; [now left|].
  cbn [entries]. intros H. apply add_records_origin in H as [H | H]; [now left|].
  right. eapply prepare_records_in. exact H.
Qed.

End Add.
End StoreFacts.

(* ===================================================================== *)
(** ** Reconciliation of one repository *)
(* ===================================================================== *)

Module RebuildFacts.
Import Models VectorStore IngestionService StoreFacts.

Lemma admissible_has_language config p :
  GitManager._should_process_file config p = true ->
  exists language, _detect_language p = Some language.
Proof.
  unfold GitManager._should_process_file, _detect_language.
  destruct (CodeParser.str_in _ _) eqn:E; [|discriminate]. intros _.
  unfold CodeParser.str_in in E. apply existsb_exists in E as (ext & Hin & He).
  apply String.eqb_eq in He. rewrite He.
  apply in_flat_map in Hin as (lang & _ & Hin).
  destruct lang; simpl in Hin;
    repeat (destruct Hin as [<- | Hin]; [simpl; eauto|]); destruct Hin.
Qed.

Section Rebuild.
Variable settings : Settings.
Variable sha256_hexdigest : string -> string.
Variable parsers : Language -> option CodeParser.Parser.
Variable embed : string -> bool.
Variable repo_config : RepositoryConfig.
Variable git : GitManager.GitRepo.
Variable modified_files : gset string.
Variable path : string.

Local Abbreviation repo := (name repo_config).
Local Abbreviation commit := (GitManager.head_commit git).
Local Abbreviation fresh_of :=
  (Spec.fresh_chunks settings sha256_hexdigest parsers git repo commit).
Local Abbreviation fresh := (fresh_of path).
Local Abbreviation step :=
  (process_file settings sha256_hexdigest parsers embed repo_config git commit
                modified_files).
Local Abbreviation own_or_free := (Spec.own_or_free fresh repo path).
Local Abbreviation rebuilt := (Spec.rebuilt fresh repo path).

Lemma fresh_stamped q ch :
  In ch (fresh_of q) -> Spec.of_file repo q (Spec.entry_of ch).
Proof.
  unfold Spec.fresh_chunks.
  destruct (_detect_language q) as [lang|]; [|intros []].
  destruct (GitManager.get_file_content git q) as [content|]; [|intros []].
  destruct (String.eqb _ ""); [intros []|].
  intros H.
  pose proof (ParseFacts.parse_file_stamped settings sha256_hexdigest parsers
                content q repo commit lang) as Hs.
  rewrite List.Forall_forall in Hs. apply Hs in H. exact H.
Qed.

(** The store after one iteration of the rebuild loop. *)
Lemma step_store stats store q :
  (step (stats, store) q).2
  = match fresh_of q with
    | [] => store
    | _ :: _ =>
        (add_chunks embed
           (if bool_decide (q ∈ modified_files)
            then (delete_chunks_by_file store repo q).1 else store)
           (fresh_of q)).1
    end.
Proof.
  unfold process_file, Spec.fresh_chunks.
  destruct (_detect_language q) as [lang|]; [|reflexivity].
  destruct (GitManager.get_file_content git q) as [content|]; [|reflexivity].
  destruct (String.eqb content ""); [reflexivity|].
  pose proof (ParseFacts.parse_file_not_nil settings sha256_hexdigest parsers
                content q repo commit lang) as Hne.
  destruct (CodeParser.parse_file _ _ _ _ _ _ _ _) as [|ch chunks] eqn:Ep;
    [congruence|].
  destruct (bool_decide (q ∈ modified_files)).
  - destruct (delete_chunks_by_file store repo q) as [s1 n1]. cbv beta iota zeta.
    cbn [fst snd].
    destruct (add_chunks embed s1 (ch :: chunks)) as [s2 n2]. reflexivity.
  - cbv beta iota zeta.
    destruct (add_chunks embed store (ch :: chunks)) as [s2 n2]. reflexivity.
Qed.

Lemma step_reachable stats store q :
  reachable (step (stats, store) q).2 = reachable store.
Proof.
  rewrite step_store. destruct (fresh_of q); [reflexivity|].
  rewrite add_chunks_reachable.
  destruct (bool_decide _); [apply delete_where_reachable | reflexivity].
Qed.

Lemma retire_store stats store q :
  (retire_file repo_config (stats, store) q).2
  = (delete_chunks_by_file store repo q).1.
Proof.
  unfold retire_file. now destruct (delete_chunks_by_file store repo q).
Qed.

Lemma retire_own_or_free stats store q :
  own_or_free store -> own_or_free (retire_file repo_config (stats, store) q).2.
Proof.
  intros H ch e Hch He. rewrite retire_store in He.
  apply delete_where_sub in He. eauto.
Qed.

Lemma rebuilt_own_or_free store : rebuilt store -> own_or_free store.
Proof.
  intros [H _] ch e Hch He. rewrite (H _ Hch) in He. inversion He; subst.
  now apply fresh_stamped.
Qed.

Lemma ids_apart_spec others ch other :
  Spec.ids_apart fresh others = true -> In ch fresh -> In other others ->
  id ch <> id other.
Proof.
  unfold Spec.ids_apart. rewrite forallb_forall. intros H Hch Ho Heq.
  specialize (H _ Ho). apply negb_true_iff in H.
  assert (Ht : existsb (fun c => String.eqb (id c) (id other)) fresh = true).
  { apply existsb_exists. exists ch. split; [exact Hch|]. now apply String.eqb_eq. }
  congruence.
Qed.

(** Another file's iteration leaves both invariants alone. *)
Lemma step_other_own_or_free stats store q :
  Spec.ids_apart fresh (fresh_of q) = true ->
  own_or_free store -> own_or_free (step (stats, store) q).2.
Proof.
  intros Hapart H ch e Hch He. rewrite step_store in He.
  destruct (fresh_of q) as [|c0 cs] eqn:Eq; [eauto|].
  apply add_chunks_origin in He as [He | (ch' & Hch' & Hid & _)].
  - destruct (bool_decide _); [apply delete_where_sub in He|]; eauto.
  - exfalso. eapply ids_apart_spec; eauto.
Qed.

Lemma step_other_rebuilt stats store q :
  q <> path -> rebuilt store -> rebuilt (step (stats, store) q).2.
Proof.
  intros Hq [H1 H2]. rewrite step_store.
  destruct (fresh_of q) as [|c0 cs] eqn:Eq; [now split|].
  split.
  - intros ch Hch. apply add_chunks_keeps.
    destruct (bool_decide _); [|now apply H1].
    apply delete_where_keeps; [now apply H1|].
    apply not_true_is_false. intros Hw. apply by_file_true in Hw.
    destruct (fresh_stamped path ch Hch) as [_ Hp].
    destruct Hw as [_ Hw]. congruence.
  - intros i e He Hof.
    apply add_chunks_origin in He as [He | (ch' & Hch' & _ & ->)].
    + destruct (bool_decide _); [apply delete_where_sub in He|]; eauto.
    + exfalso. rewrite <- Eq in Hch'. apply fresh_stamped in Hch'.
      destruct Hch' as [_ Hp]. destruct Hof as [_ Hp']. congruence.
Qed.

(** The file's own iteration retires its records and stores the fresh
    chunks. *)
Lemma step_own_rebuilt stats store :
  path ∈ modified_files ->
  reachable store = true ->
  Spec.all_embedded embed fresh = true ->
  NoDup (map id fresh) ->
  fresh <> [] ->
  own_or_free store -> rebuilt (step (stats, store) path).2.
Proof.
  intros Hmod Hr Hemb Hnd Hne Hown. rewrite step_store.
  destruct fresh as [|c0 cs] eqn:Ef; [congruence|]. rewrite <- Ef in *.
  rewrite bool_decide_eq_true_2 by exact Hmod.
  set (s1 := (delete_chunks_by_file store repo path).1).
  assert (Hr1 : reachable s1 = true).
  { unfold s1, delete_chunks_by_file. now rewrite delete_where_reachable. }
  assert (Hgone : forall i e, entries s1 !! i = Some e -> ~ Spec.of_file repo path e).
  { intros i e He Hof. unfold s1, delete_chunks_by_file in He.
    rewrite delete_where_lookup in He by exact Hr.
    destruct (entries store !! i) as [e'|]; [|discriminate].
    destruct (_ && _) eqn:Ew; [discriminate|].
    inversion He; subst. apply by_file_true in Hof. congruence. }
  assert (Hrec : prepare_records embed fresh
                 = map (fun ch => (id ch, Spec.entry_of ch)) fresh).
  { apply prepare_records_all. apply List.Forall_forall.
    unfold Spec.all_embedded in Hemb. rewrite forallb_forall in Hemb. exact Hemb. }
  pose proof (add_chunks_ok embed s1 fresh Hr1) as Hent.
  split.
  - intros ch Hch. rewrite Hent, Hrec. apply add_records_fresh.
    + rewrite map_map. exact Hnd.
    + apply in_map_iff. now exists ch.
    + destruct (entries s1 !! id ch) as [e|] eqn:E1; [|reflexivity].
      exfalso. apply (Hgone _ _ E1). apply (Hown ch e Hch).
      unfold s1 in E1. now apply delete_where_sub in E1.
  - intros i e He Hof.
    apply add_chunks_origin in He as [He | H]; [|exact H].
    exfalso. now apply (Hgone _ _ He).
Qed.

(** The rebuild loop over any list of files that contains the path. *)
Lemma rebuild_loop files : forall stats store,
  path ∈ modified_files ->
  reachable store = true ->
  Spec.all_embedded embed fresh = true ->
  NoDup (map id fresh) ->
  fresh <> [] ->
  forallb (fun q => String.eqb q path || Spec.ids_apart fresh (fresh_of q)) files
  = true ->
  own_or_free store ->
  rebuilt store \/ In path files ->
  rebuilt (fold_left step files (stats, store)).2.
Proof.
  induction files as [|q files IH];
    intros stats store Hmod Hr Hemb Hnd Hne Hap Hown Hin.
  - destruct Hin as [H | []]. exact H.
  - cbn [forallb] in Hap. apply andb_true_iff in Hap as [Hq Hap].
    cbn [fold_left].
    destruct (step (stats, store) q) as [stats' store'] eqn:Es.
    assert (Es' : store' = (step (stats, store) q).2) by now rewrite Es.
    destruct (String.eqb q path) eqn:Eq.
    + apply String.eqb_eq in Eq. subst q.
      assert (Hreb : rebuilt store').
      { rewrite Es'. now apply step_own_rebuilt. }
      apply IH; try assumption.
      * rewrite Es'. now rewrite step_reachable.
      * now apply rebuilt_own_or_free.
      * now left.
    + apply String.eqb_neq in Eq. cbn [orb] in Hq.
      apply IH; try assumption.
      * rewrite Es'. now rewrite step_reachable.
      * rewrite Es'. now apply step_other_own_or_free.
      * destruct Hin as [Hreb | [-> | Hin]]; [|congruence|now right].
        left. rewrite Es'. now apply step_other_rebuilt.
Qed.

Lemma retire_loop files : forall stats store,
  own_or_free store ->
  own_or_free (fold_left (retire_file repo_config) files (stats, store)).2
  /\ reachable (fold_left (retire_file repo_config) files (stats, store)).2
     = reachable store.
Proof.
  induction files as [|q files IH]; intros stats store Hown; [now split|].
  cbn [fold_left].
  destruct (retire_file repo_config (stats, store) q) as [stats' store'] eqn:Er.
  assert (Er' : store' = (retire_file repo_config (stats, store) q).2)
    by now rewrite Er.
  destruct (IH stats' store') as [H1 H2].
  - rewrite Er'. now apply retire_own_or_free.
  - split; [exact H1|]. rewrite H2, Er', retire_store.
    apply delete_where_reachable.
Qed.

(** Once rebuilt, the file holds as many records as fresh chunks. *)
Lemma rebuilt_count store :
  rebuilt store ->
  NoDup (map id fresh) ->
  count_of_file store repo path = List.length fresh.
Proof.
  intros [H1 H2] Hnd. unfold count_of_file, ids_of_file.
  rewrite <- (length_map id), <- (size_list_to_set (C := gset string)) by exact Hnd.
  f_equal. apply set_eq. intros i.
  rewrite elem_of_dom, elem_of_list_to_set. split.
  - intros [e He]. apply map_lookup_filter_Some in He as [He Hof].
    destruct (H2 i e He Hof) as (ch & Hch & -> & _).
    apply list_elem_of_In, in_map. exact Hch.
  - intros Hi. apply list_elem_of_In, in_map_iff in Hi as (ch & <- & Hch).
    exists (Spec.entry_of ch). apply map_lookup_filter_Some.
    split; [now apply H1 | now apply fresh_stamped].
Qed.

End Rebuild.
End RebuildFacts.

Module PassFacts.
Import Models VectorStore IngestionService StoreFacts RebuildFacts.

(** What the pass does for a modified path it rebuilds.  For a path
    reported as modified whose new content
    is read and is not empty, [process_repository] removes the stored
    chunks of that (repository, path) and then inserts the chunks
    extracted from the new content.  When the store answers, every fresh
    chunk is embedded, and the fresh identifiers are pairwise distinct
    and held by no record or fresh chunk of another file, the records of
    the path after the pass are exactly the fresh chunks: their number
    is the number extracted and none comes from the prior revision. *)
Theorem modified_path_is_rebuilt
    (settings : Settings) (sha256_hexdigest : string -> string)
    (parsers : Language -> option CodeParser.Parser)
    (_get_embedding : string -> bool) (utcnow : Z) (write_outcome : WriteOutcome)
    (svc : Service) (repo_config : RepositoryConfig) (git : GitManager.GitRepo)
    (force has_changes : bool) (path content : string) :
  GitManager.clone_or_open git = true ->
  GitManager.pull_latest git = Some has_changes ->
  negb force && truthy (states svc !! name repo_config) && negb has_changes = false ->
  path ∈ (GitManager.get_changed_files repo_config git
            (old_commit_of (states svc !! name repo_config) force)).1.2 ->
  GitManager.get_file_content git path = Some content ->
  content <> "" ->
  reachable (vector_store svc) = true ->
  Spec.all_embedded _get_embedding
    (Spec.fresh_chunks settings sha256_hexdigest parsers git (name repo_config)
                       (GitManager.head_commit git) path) = true ->
  NoDup (map id
           (Spec.fresh_chunks settings sha256_hexdigest parsers git
                              (name repo_config) (GitManager.head_commit git)
                              path)) ->
  Spec.ids_available (vector_store svc) (name repo_config) path
    (Spec.fresh_chunks settings sha256_hexdigest parsers git (name repo_config)
                       (GitManager.head_commit git) path) = true ->
  forallb (fun q =>
             String.eqb q path
             || Spec.ids_apart
                  (Spec.fresh_chunks settings sha256_hexdigest parsers git
                     (name repo_config) (GitManager.head_commit git) path)
                  (Spec.fresh_chunks settings sha256_hexdigest parsers git
                     (name repo_config) (GitManager.head_commit git) q))
          (elements (GitManager.get_changed_files repo_config git
                       (old_commit_of (states svc !! name repo_config) force)).1.1
           ++ elements (GitManager.get_changed_files repo_config git
                          (old_commit_of (states svc !! name repo_config) force)).1.2)
  = true ->
  count_of_file
    (vector_store
       (process_repository settings sha256_hexdigest parsers _get_embedding utcnow
                           write_outcome svc repo_config git force).2)
    (name repo_config) path
  = List.length
      (Spec.fresh_chunks settings sha256_hexdigest parsers git (name repo_config)
                         (GitManager.head_commit git) path)
  /\ forall i e,
       entries
         (vector_store
            (process_repository settings sha256_hexdigest parsers _get_embedding
                                utcnow write_outcome svc repo_config git force).2)
       !! i = Some e ->
       Spec.of_file (name repo_config) path e ->
       exists ch,
         In ch (Spec.fresh_chunks settings sha256_hexdigest parsers git
                                  (name repo_config) (GitManager.head_commit git)
                                  path)
         /\ i = id ch /\ e = Spec.entry_of ch.
Proof.
  intros Hclone Hpull Hrun Hmod Hcontent Hne Hr Hemb Hnd Havail Hapart.
  set (fresh := Spec.fresh_chunks settings sha256_hexdigest parsers git
                  (name repo_config) (GitManager.head_commit git) path) in *.
  assert (Hfresh : fresh <> []).
  { destruct (admissible_has_language _ _ (GitFacts.modified_is_admissible _ _ _ _ Hmod))
      as [lang Hl].
    unfold fresh, Spec.fresh_chunks. rewrite Hl, Hcontent.
    apply String.eqb_neq in Hne. rewrite Hne.
    apply ParseFacts.parse_file_not_nil. }
  assert (Hreb : Spec.rebuilt fresh (name repo_config) path
                   (vector_store
                      (process_repository settings sha256_hexdigest parsers
                         _get_embedding utcnow write_outcome svc repo_config git
                         force).2)).
  { unfold process_repository. rewrite Hclone, Hpull. cbn [negb].
    cbv beta iota zeta. rewrite Hrun.
    destruct (GitManager.get_changed_files repo_config git _)
      as [[added modified] deleted] eqn:Ec.
    cbn [fst snd] in Hmod, Hapart.
    destruct (fold_left (retire_file repo_config) (elements deleted) _)
      as [stats0 store0] eqn:Ed.
    destruct (fold_left (process_file _ _ _ _ _ _ _ _) _ _)
      as [stats1 store1] eqn:Ep.
    cbn [fst snd _save_states vector_store].
    assert (Hown0 : Spec.own_or_free fresh (name repo_config) path (vector_store svc)).
    { intros ch e Hch He. unfold Spec.ids_available in Havail.
      rewrite forallb_forall in Havail. specialize (Havail ch Hch).
      rewrite He in Havail. now apply by_file_true. }
    destruct (retire_loop settings sha256_hexdigest parsers repo_config git path
                (elements deleted) zero_stats (vector_store svc) Hown0)
      as [Hown1 Hr1].
    rewrite Ed in Hown1, Hr1. cbn [fst snd] in Hown1, Hr1.
    pose proof (rebuild_loop settings sha256_hexdigest parsers _get_embedding
                  repo_config git modified path
                  (elements added ++ elements modified)
                  stats0 store0 Hmod) as Hloop.
    rewrite Ep in Hloop. apply Hloop; try assumption.
    - congruence.
    - right. apply in_or_app. right. apply list_elem_of_In, elem_of_elements, Hmod. }
  split; [|apply Hreb].
  now apply (rebuilt_count settings sha256_hexdigest parsers repo_config git path).
Qed.

Lemma modified_path_is_rebuilt_witness :
  count_of_file
    (vector_store
       (process_repository Examples.default_settings Examples.reverse_digest
          Examples.no_parsers (fun _ => true) 200 WriteCompletes
          Examples.demo_service Examples.demo_config
          (Examples.modified_repo Examples.readable_files) false).2)
    "demo" "src/util.py"
  = List.length
      (Spec.fresh_chunks Examples.default_settings Examples.reverse_digest
         Examples.no_parsers (Examples.modified_repo Examples.readable_files)
         "demo" "c1" "src/util.py").
Proof.
  apply (modified_path_is_rebuilt Examples.default_settings Examples.reverse_digest
           Examples.no_parsers (fun _ => true) 200 WriteCompletes
           Examples.demo_service Examples.demo_config
           (Examples.modified_repo Examples.readable_files) false true
           "src/util.py" "print(1)").
  - reflexivity.
  - reflexivity.
  - reflexivity.
  - apply (bool_decide_unpack _). vm_compute. exact I.
  - reflexivity.
  - discriminate.
  - reflexivity.
  - reflexivity.
  - apply (bool_decide_unpack _). vm_compute. exact I.
  - reflexivity.
  - vm_compute. reflexivity.
Defined.

Example modified_path_counts :
  count_of_file Examples.demo_store "demo" "src/util.py" = 2%nat
  /\ count_of_file
       (vector_store
          (process_repository Examples.default_settings Examples.reverse_digest
             Examples.no_parsers (fun _ => true) 200 WriteCompletes
             Examples.demo_service Examples.demo_config
             (Examples.modified_repo Examples.readable_files) false).2)
       "demo" "src/util.py" = 1%nat.
Proof. split; vm_compute; reflexivity. Qed.

(** A modified path whose content cannot be read is skipped before
    the removal, as step 6 of the specification has it.  The two chunks
    stored for
    [src/util.py] at revision [c0] are still there after the pass at
    revision [c1], and nothing was extracted. *)
Lemma unreadable_modified_path_keeps_stale_chunks :
  "src/util.py"
    ∈ (GitManager.get_changed_files Examples.demo_config
         (Examples.modified_repo Examples.unreadable_files) (Some "c0")).1.2
  /\ Spec.fresh_chunks Examples.default_settings Examples.reverse_digest
       Examples.no_parsers (Examples.modified_repo Examples.unreadable_files)
       "demo" "c1" "src/util.py" = []
  /\ count_of_file
       (vector_store
          (process_repository Examples.default_settings Examples.reverse_digest
             Examples.no_parsers (fun _ => true) 200 WriteCompletes
             Examples.demo_service Examples.demo_config
             (Examples.modified_repo Examples.unreadable_files) false).2)
       "demo" "src/util.py" = 2%nat
  /\ entries
       (vector_store
          (process_repository Examples.default_settings Examples.reverse_digest
             Examples.no_parsers (fun _ => true) 200 WriteCompletes
             Examples.demo_service Examples.demo_config
             (Examples.modified_repo Examples.unreadable_files) false).2)
     !! "old1" = Some (Examples.stored "src/util.py" 1).
Proof.
  split; [apply (bool_decide_unpack _); vm_compute; exact I|].
  split; [reflexivity|].
  split; vm_compute; reflexivity.
Qed.

(** C1 fails in the code.  [if not content] treats a file that was
    read and is empty like a file that could not be read: the
    iteration ends before [delete_chunks_by_file] is reached, for any
    service and any repository.  On the demo service, [src/util.py] is
    reported as modified and was emptied at revision [c1], and
    [parse_file] extracts exactly one chunk from the empty text; yet
    the pass returns all-zero statistics, the two chunks stored for
    the path at revision [c0] are still there, and the state of the
    repository has advanced to [c1], so no later pass comes back to
    the path. *)
Theorem emptied_modified_path_keeps_stale_chunks :
  (forall settings sha256_hexdigest parsers _get_embedding repo_config git
          current_commit modified_files acc file_path,
      GitManager.get_file_content git file_path = Some "" ->
      process_file settings sha256_hexdigest parsers _get_embedding repo_config
                   git current_commit modified_files acc file_path
      = acc)
  /\ "src/util.py"
       ∈ (GitManager.get_changed_files Examples.demo_config
            (Examples.modified_repo (fun _ => Some "")) (Some "c0")).1.2
  /\ List.length
       (CodeParser.parse_file Examples.default_settings Examples.reverse_digest
          Examples.no_parsers "" "src/util.py" "demo" "c1" PYTHON)
     = 1%nat
  /\ process_repository Examples.default_settings Examples.reverse_digest
       Examples.no_parsers (fun _ => true) 200 WriteCompletes
       Examples.demo_service Examples.demo_config
       (Examples.modified_repo (fun _ => Some "")) false
     = (Ok zero_stats,
        {| vector_store := Examples.demo_store;
           states :=
             {[ "demo" := {| st_repo_name := "demo";
                             last_commit_hash := Some "c1";
                             last_processed_at := Some 200;
                             total_chunks := 0;
                             total_files := 0 |} ]};
           state_file :=
             Saved {[ "demo" := {| st_repo_name := "demo";
                                   last_commit_hash := Some "c1";
                                   last_processed_at := Some 200;
                                   total_chunks := 0;
                                   total_files := 0 |} ]} |})
  /\ count_of_file Examples.demo_store "demo" "src/util.py" = 2%nat
  /\ m_commit_hash <$> (meta <$> entries Examples.demo_store !! "old1")
     = Some "c0".
Proof.
  split.
  { intros settings sha256_hexdigest parsers embed repo_config git commit
           modified [stats store] q Hq.
    unfold process_file. rewrite Hq.
    now destruct (_detect_language q). }
  split; [apply (bool_decide_unpack _); vm_compute; exact I|].
  split; [vm_compute; reflexivity|].
  split; [|split; vm_compute; reflexivity].
  unfold process_repository. cbn [negb andb Examples.modified_repo
    GitManager.clone_or_open GitManager.pull_latest GitManager.head_commit].
  vm_compute. reflexivity.
Qed.

(** C2, as amended.  A failure of the final state write is not fatal:
    [_save_states] catches it, so [process_repository] returns the same
    result, the same store and the same in-memory state map (already
    holding the new state) as when the write completes, and it raises
    only when acquiring or advancing the working copy raises.  Only the
    state file differs: it keeps its previous content when it cannot be
    opened. *)
Theorem state_write_failure_is_swallowed
    (settings : Settings) (sha256_hexdigest : string -> string)
    (parsers : Language -> option CodeParser.Parser)
    (_get_embedding : string -> bool) (utcnow : Z) (write_outcome : WriteOutcome)
    (svc : Service) (repo_config : RepositoryConfig) (git : GitManager.GitRepo)
    (force : bool) :
  (process_repository settings sha256_hexdigest parsers _get_embedding utcnow
                      write_outcome svc repo_config git force).1
  = (process_repository settings sha256_hexdigest parsers _get_embedding utcnow
                        WriteCompletes svc repo_config git force).1
  /\ vector_store
       (process_repository settings sha256_hexdigest parsers _get_embedding utcnow
                           write_outcome svc repo_config git force).2
     = vector_store
         (process_repository settings sha256_hexdigest parsers _get_embedding
                             utcnow WriteCompletes svc repo_config git force).2
  /\ states
       (process_repository settings sha256_hexdigest parsers _get_embedding utcnow
                           write_outcome svc repo_config git force).2
     = states
         (process_repository settings sha256_hexdigest parsers _get_embedding
                             utcnow WriteCompletes svc repo_config git force).2
  /\ (forall error,
        (process_repository settings sha256_hexdigest parsers _get_embedding utcnow
                            write_outcome svc repo_config git force).1
        = Raise error ->
        GitManager.clone_or_open git = false \/ GitManager.pull_latest git = None)
  /\ (write_outcome = OpenRaises ->
      state_file
        (process_repository settings sha256_hexdigest parsers _get_embedding utcnow
                            write_outcome svc repo_config git force).2
      = state_file svc).
Proof.
  unfold process_repository.
  destruct (GitManager.clone_or_open git); cbn [negb];
    [|repeat split; auto].
  destruct (GitManager.pull_latest git) as [has_changes|];
    [|repeat split; auto].
  destruct (_ && _); [repeat split; intros; discriminate|].
  cbv beta iota zeta.
  destruct (GitManager.get_changed_files repo_config git _) as [[added modified] deleted].
  destruct (fold_left (process_file _ _ _ _ _ _ _ _) _ _) as [stats store].
  cbn [fst snd _save_states vector_store states state_file].
  repeat split; try discriminate.
  intros ->. reflexivity.
Qed.

(** C2, as stated, fails: with the state file impossible to open, the
    pass over [demo] returns its statistics instead of an error, and the
    state map now holds revision [c1] where it held [c0]. *)
Lemma state_write_failure_returns_stats :
  (process_repository Examples.default_settings Examples.reverse_digest
     Examples.no_parsers (fun _ => true) 200 OpenRaises
     Examples.demo_service Examples.demo_config
     (Examples.modified_repo Examples.readable_files) false).1
  = Ok {| files_processed := 1; files_added := 0; files_modified := 1;
          files_deleted := 0; chunks_added := 1; chunks_deleted := 2 |}
  /\ states Examples.demo_service !! "demo" = Some Examples.demo_state
  /\ states
       (process_repository Examples.default_settings Examples.reverse_digest
          Examples.no_parsers (fun _ => true) 200 OpenRaises
          Examples.demo_service Examples.demo_config
          (Examples.modified_repo Examples.readable_files) false).2
     !! "demo"
     = Some {| st_repo_name := "demo"; last_commit_hash := Some "c1";
               last_processed_at := Some 200; total_chunks := -1;
               total_files := 1 |}.
Proof. split; [|split]; vm_compute; reflexivity. Qed.

End PassFacts.

(* ===================================================================== *)
(** ** Resetting a repository *)
(* ===================================================================== *)

Module ServiceFacts.
Import Models VectorStore IngestionService StoreFacts.

(** C10.  [reset_repository] returns without error; on a store that
    answers it deletes exactly the records whose repository name is the
    given one and leaves every other record as it was; it removes that
    name's entry from the state map and no other; and when the name has
    neither a state entry nor a record, nothing changes. *)
Theorem reset_repository_frame
    (write_outcome : WriteOutcome) (svc : Service) (repo : string) :
  reachable (vector_store svc) = true ->
  (reset_repository write_outcome svc repo).1 = Ok tt
  /\ (forall i,
        entries (vector_store (reset_repository write_outcome svc repo).2) !! i
        = match entries (vector_store svc) !! i with
          | Some e => if String.eqb (m_repo_name (meta e)) repo then None else Some e
          | None => None
          end)
  /\ states (reset_repository write_outcome svc repo).2 = delete repo (states svc)
  /\ (states svc !! repo = None ->
      (forall i e, entries (vector_store svc) !! i = Some e ->
                   m_repo_name (meta e) <> repo) ->
      (reset_repository write_outcome svc repo).2 = svc).
Proof.
  intros Hr. unfold reset_repository, delete_chunks_by_repo.
  pose proof (delete_where_lookup (vector_store svc)
                (fun m => String.eqb (m_repo_name m) repo)) as Hl.
  destruct (delete_where (vector_store svc) _) as [store n] eqn:Ed.
  cbn [fst] in Hl.
  split; [now destruct (states svc !! repo)|].
  split; [intros i; destruct (states svc !! repo); cbn; now apply Hl|].
  split.
  - destruct (states svc !! repo) eqn:Es; cbn; [reflexivity|].
    symmetry. now apply delete_id.
  - intros Hs Hnone. rewrite Hs. cbn.
    rewrite delete_where_none in Ed.
    + inversion Ed; subst. now destruct svc.
    + intros i e He. apply String.eqb_neq. eapply Hnone; eauto.
Qed.

(** When the store does not answer, both deletion methods swallow the
    error: the records stay, and the state entry is removed all the
    same. *)
Lemma reset_repository_store_down write_outcome svc repo :
  reachable (vector_store svc) = false ->
  vector_store (reset_repository write_outcome svc repo).2 = vector_store svc
  /\ states (reset_repository write_outcome svc repo).2 = delete repo (states svc).
Proof.
  intros Hr. unfold reset_repository, delete_chunks_by_repo.
  rewrite delete_where_unreachable by exact Hr.
  destruct (states svc !! repo) eqn:Es; cbn; split; try reflexivity.
  symmetry. now apply delete_id.
Qed.

Lemma reset_repository_frame_witness :
  reachable (vector_store Examples.demo_service) = true
  /\ (reset_repository WriteCompletes Examples.demo_service "demo").1 = Ok tt
  /\ states (reset_repository WriteCompletes Examples.demo_service "demo").2
     = delete "demo" (states Examples.demo_service).
Proof.
  split; [reflexivity|].
  pose proof (reset_repository_frame WriteCompletes Examples.demo_service "demo"
                eq_refl) as (Hok & _ & Hstates & _).
  split; [exact Hok | exact Hstates].
Defined.

Example reset_demo :
  map fst (map_to_list
             (entries (vector_store
                         (reset_repository WriteCompletes Examples.demo_service
                                           "demo").2)))
  = ["other"]
  /\ states (reset_repository WriteCompletes Examples.demo_service "demo").2 = ∅.
Proof. split; vm_compute; reflexivity. Qed.

End ServiceFacts.

(* ===================================================================== *)
(** ** Splitting into lines and joining back *)
(* ===================================================================== *)

Module SplitFacts.
Import PyFacts.

Lemma join_split s : Py.join_nl (Py.split_nl s) = s.
Proof.
  induction s as [|c r IH]; [reflexivity|].
  simpl. destruct (Ascii.eqb_spec c Py.newline) as [->|Hc].
  - rewrite join_cons. destruct (Py.split_nl r) eqn:E.
    + now destruct (split_nl_nonempty r).
    + rewrite IH. reflexivity.
  - destruct (Py.split_nl r) as [|h t] eqn:E.
    + now destruct (split_nl_nonempty r).
    + rewrite join_cons. rewrite join_cons in IH.
      destruct t; rewrite ?str_app_cons; now rewrite IH.
Qed.

Lemma split_single_cons c r :
  Py.split_nl (String c r) = [String c r] ->
  Ascii.eqb c Py.newline = false /\ Py.split_nl r = [r].
Proof.
  simpl. destruct (Ascii.eqb c Py.newline); [discriminate|].
  destruct (Py.split_nl r) as [|h t] eqn:E.
  - now destruct (split_nl_nonempty r).
  - intros [= -> ->]. now split.
Qed.

Lemma split_app_nl a b :
  Py.split_nl a = [a] ->
  Py.split_nl (a +:+ Py.nl +:+ b) = a :: Py.split_nl b.
Proof.
  induction a as [|c r IH]; intros Ha.
  - reflexivity.
  - apply split_single_cons in Ha as [Hc Hr].
    rewrite str_app_cons. simpl. rewrite Hc, (IH Hr). reflexivity.
Qed.

Lemma split_join ls :
  ls <> [] ->
  Forall (fun l => Py.split_nl l = [l]) ls ->
  Py.split_nl (Py.join_nl ls) = ls.
Proof.
  intros Hne Hall. induction Hall as [|l ls Hl Hall IH]; [done|].
  rewrite join_cons. destruct ls as [|l' ls']; [exact Hl|].
  rewrite split_app_nl by exact Hl. f_equal. now apply IH.
Qed.

Lemma len_content s : Spec.lines_size (Py.split_nl s) = Py.len s + 1.
Proof.
  pose proof (len_join_nl (Py.split_nl s) (split_nl_nonempty s)) as H.
  rewrite join_split in H. lia.
Qed.

End SplitFacts.

(* ===================================================================== *)
(** ** The windowing strategy walks the whole file in order *)
(* ===================================================================== *)

Module OrderFacts.
Import Models CodeParser PyFacts WindowFacts LiteralFacts.

Lemma last_range_app a b cs c :
  Spec.last_range a b (cs ++ [c]) = (start_line c, end_line c).
Proof. unfold Spec.last_range. now rewrite fold_left_app. Qed.

Lemma last_range_cons a b c cs :
  Spec.last_range a b (c :: cs) = Spec.last_range (start_line c) (end_line c) cs.
Proof. reflexivity. Qed.

Lemma advancing_app cs : forall a b c,
  Spec.advancing a b (cs ++ [c])
  = Spec.advancing a b cs
    && ((Spec.last_range a b cs).1 <=? start_line c)
    && (start_line c <=? (Spec.last_range a b cs).2 + 1)
    && ((Spec.last_range a b cs).2 <? end_line c).
Proof.
  induction cs as [|x cs IH]; intros a b c.
  - simpl. rewrite andb_true_r. reflexivity.
  - change ((x :: cs) ++ [c])%list with (x :: (cs ++ [c]))%list.
    cbn [Spec.advancing]. rewrite IH, last_range_cons.
    rewrite !andb_assoc. reflexivity.
Qed.

Lemma advancing_covers cs : forall a b n,
  Spec.advancing a b cs = true ->
  b < n <= (Spec.last_range a b cs).2 ->
  exists c, In c cs /\ Spec.covers c n = true.
Proof.
  induction cs as [|c cs IH]; intros a b n Hadv Hn.
  - simpl in Hn. lia.
  - cbn [Spec.advancing] in Hadv. rewrite last_range_cons in Hn.
    rewrite !andb_true_iff in Hadv. destruct Hadv as [[[H1 H2] H3] H4].
    destruct (Z.le_gt_cases n (end_line c)) as [Hle | Hgt].
    + exists c. split; [now left|]. unfold Spec.covers.
      apply andb_true_iff. split; lia.
    + destruct (IH _ _ n H4) as (c' & Hin & Hc'); [lia|].
      exists c'. split; [now right | exact Hc'].
Qed.

Section Order.
Variable settings : Settings.
Variable sha256_hexdigest : string -> string.
Variables path repo commit : string.
Variable lang : Language.
Variable content : string.

Local Abbreviation lines := (Py.split_nl content).
Local Abbreviation step :=
  (window_step settings sha256_hexdigest path repo commit lang).
Local Abbreviation loop :=
  (window_loop settings sha256_hexdigest path repo commit lang).
Local Abbreviation mk := (window_chunk sha256_hexdigest path repo commit lang).
Local Abbreviation windows :=
  (_simple_chunking settings sha256_hexdigest content path repo commit lang).

Lemma step_advances pre line st :
  Spec.tracks content pre st ->
  Spec.advances (List.length pre) st ->
  Spec.advances (List.length (pre ++ [line])) (step st (List.length pre) line).
Proof.
  intros (Hs & Hcur & _) (Hadv & H1 & H2 & H3 & H4).
  unfold Spec.advances, window_step. rewrite length_app. simpl (List.length [line]).
  destruct (_ && _) eqn:E.
  - apply andb_true_iff in E as [_ E].
    apply negb_true_iff, Nat.eqb_neq in E.
    destruct H4 as [H4 | H4]; [now rewrite H4 in E|].
    destruct (overlap_loop _ _ _ _) as [ol osz] eqn:Eo. simpl.
    apply overlap_loop_suffix in Eo as (k & Hk & -> & _).
    rewrite app_nil_r, length_rev in *.
    rewrite Hcur, length_drop in Hk. rewrite Hcur, length_drop in E.
    rewrite length_take, length_rev, Hcur, length_drop.
    rewrite advancing_app, last_range_app. simpl.
    rewrite Hadv. split.
    + rewrite !andb_true_iff. repeat split; lia.
    + split; [lia|]. split; [lia|]. split; [lia|]. right. lia.
  - simpl. split; [exact Hadv|]. split; [lia|]. split; [lia|]. split; [lia|].
    right. destruct H4 as [H4 | H4]; [|lia].
    (* the buffer is empty only before the first line *)
    rewrite Hcur in H4. apply (f_equal (@List.length _)) in H4.
    rewrite length_drop in H4. simpl in H4. lia.
Qed.

Lemma loop_advances rest : forall pre st,
  lines = (pre ++ rest)%list ->
  Spec.tracks content pre st ->
  Spec.advances (List.length pre) st ->
  Spec.advances (List.length lines) (loop (List.length pre) rest st).
Proof.
  induction rest as [|line rest IH]; intros pre st Hl Ht Ha.
  - rewrite app_nil_r in Hl. rewrite Hl. exact Ha.
  - rewrite loop_cons.
    replace (S (List.length pre)) with (List.length (pre ++ [line]))
      by (rewrite length_app; simpl; lia).
    apply IH.
    + rewrite <- app_assoc. exact Hl.
    + apply step_tracks; [exact Ht | eauto].
    + now apply step_advances.
Qed.

Lemma simple_chunking_advancing :
  Spec.advancing 1 0 windows = true
  /\ (Spec.last_range 1 0 windows).2 = Z.of_nat (List.length lines).
Proof.
  unfold _simple_chunking.
  pose (start := {| chunks := []; current_chunk := []; current_size := 0;
                    w_start_line := 0 |}).
  assert (Ht0 : Spec.tracks content [] start).
  { unfold Spec.tracks. simpl. split; [lia|]. split; [reflexivity|]. intros c' []. }
  assert (Ha0 : Spec.advances (List.length (@nil string)) start).
  { unfold Spec.advances. simpl. repeat split; try lia. now left. }
  pose proof (loop_tracks settings sha256_hexdigest path repo commit lang content
                lines [] start eq_refl Ht0) as (Hs & Hcur & _).
  pose proof (loop_advances lines [] start eq_refl Ht0 Ha0)
    as (Hadv & H1 & H2 & H3 & H4).
  simpl (List.length []) in *. fold start.
  destruct (negb _) eqn:E.
  - apply negb_true_iff, Nat.eqb_neq in E.
    destruct H4 as [H4 | H4]; [now rewrite H4 in E|].
    rewrite advancing_app, last_range_app. simpl. split; [|reflexivity].
    rewrite Hadv, !andb_true_iff. repeat split; lia.
  - apply negb_false_iff, Nat.eqb_eq in E.
    destruct (loop_current_nonempty settings sha256_hexdigest path repo commit
                lang lines 0%nat start (split_nl_nonempty content)).
    now apply length_zero_iff_nil.
Qed.

End Order.

(** X1 ([_simple_chunking], src/code_parser.py): the windowing strategy
    loses no line.  Every line number of the file, from 1 to the number
    of lines, lies in the range of at least one of the chunks. *)
Theorem windowing_covers_every_line
    (settings : Settings) (sha256_hexdigest : string -> string)
    (content path repo commit : string) (lang : Language) (n : Z) :
  1 <= n <= Z.of_nat (List.length (Py.split_nl content)) ->
  exists c,
    In c (_simple_chunking settings sha256_hexdigest content path repo commit lang)
    /\ start_line c <= n <= end_line c.
Proof.
  intros Hn.
  destruct (simple_chunking_advancing settings sha256_hexdigest path repo commit
              lang content) as [Hadv Hlast].
  destruct (advancing_covers _ 1 0 n Hadv) as (c & Hin & Hc); [lia|].
  exists c. split; [exact Hin|].
  unfold Spec.covers in Hc. apply andb_true_iff in Hc. lia.
Qed.

Lemma windowing_covers_every_line_witness :
  exists c,
    In c (_simple_chunking Examples.small_settings Examples.reverse_digest
                           Examples.three_lines "notes.py" "demo" "c1" PYTHON)
    /\ start_line c <= 2 <= end_line c.
Proof.
  apply (windowing_covers_every_line Examples.small_settings
           Examples.reverse_digest Examples.three_lines "notes.py" "demo" "c1"
           PYTHON 2).
  vm_compute. split; discriminate.
Defined.

(** X2 ([_simple_chunking], src/code_parser.py): the windowing chunks
    come in file order.  The first chunk starts at line 1; every later
    chunk starts no earlier than the chunk before it, no later than the
    line after that chunk's end, and ends strictly further down; the
    last chunk ends at the last line of the file. *)
Theorem windowing_chunks_advance
    (settings : Settings) (sha256_hexdigest : string -> string)
    (content path repo commit : string) (lang : Language) :
  Spec.advancing 1 0
    (_simple_chunking settings sha256_hexdigest content path repo commit lang)
  = true
  /\ (Spec.last_range 1 0
        (_simple_chunking settings sha256_hexdigest content path repo commit
                          lang)).2
     = Z.of_nat (List.length (Py.split_nl content)).
Proof. apply simple_chunking_advancing. Qed.

End OrderFacts.

(* ===================================================================== *)
(** ** What every extracted chunk carries *)
(* ===================================================================== *)

Module ChunkFacts.
Import Models CodeParser PyFacts WindowFacts TraverseFacts.

Section Chunks.
Variable settings : Settings.
Variable sha256_hexdigest : string -> string.
Variable parsers : Language -> option Parser.
Variables (content path repo commit : string) (lang : Language).

Local Abbreviation lines := (Py.split_nl content).
Local Abbreviation result :=
  (parse_file settings sha256_hexdigest parsers content path repo commit lang).
Local Abbreviation windows :=
  (_simple_chunking settings sha256_hexdigest content path repo commit lang).
Local Abbreviation walk :=
  (traverse settings sha256_hexdigest lines content path repo commit).
Local Abbreviation chunk_of ctx node :=
  (node_chunk sha256_hexdigest node content path repo commit ctx
              (fst (start_point node)) (fst (end_point node))
              (Spec.node_text lines node)).

Lemma parse_file_strategies :
  result = windows
  \/ (lang = CSHARP
      /\ exists root,
           result = _parse_csharp settings sha256_hexdigest root content
                                  path repo commit).
Proof.
  unfold parse_file.
  destruct (parsers lang) as [parser|]; [|now left].
  destruct (parser content) as [root|] eqn:Ep; [|now left].
  destruct (Language_eqb lang CSHARP) eqn:El; [|now left].
  destruct (_parse_csharp _ _ _ _ _ _ _) as [|ch chunks] eqn:Ec; [now left|].
  right. split; [now destruct lang|]. exists root. now rewrite Ec.
Qed.

Lemma parse_file_Forall (P : CodeChunk -> Prop) :
  (forall cur s e,
      P (window_chunk sha256_hexdigest path repo commit lang cur s e)) ->
  (lang = CSHARP -> forall node, P (chunk_of "" node)) ->
  Forall P result.
Proof.
  intros Hw Hs.
  destruct parse_file_strategies as [-> | (Hl & root & ->)].
  - now apply simple_chunking_Forall.
  - unfold _parse_csharp.
    apply (traverse_Forall _ _ _ _ _ _ P (fun _ => True)); [| |exact I].
    + intros. apply List.Forall_forall. intros; exact I.
    + intros node _ _. now apply Hs.
Qed.

Lemma walk_Forall_emitted (P : CodeChunk -> Prop) ctx node :
  (forall n, Spec.emitted settings lines n = true -> P (chunk_of ctx n)) ->
  Forall P (walk node ctx).
Proof.
  intros HP. rewrite walk_emits_at_visited.
  induction (visited settings lines node) as [|n ns IH]; [constructor|].
  cbn [flat_map]. apply Forall_app. split; [|exact IH].
  destruct (Spec.emitted settings lines n) eqn:E; [|constructor].
  constructor; [now apply HP | constructor].
Qed.

End Chunks.

(** X3 ([parse_file], [_simple_chunking], [_parse_csharp.traverse],
    src/code_parser.py): whichever strategy produced it, every chunk
    carries the repository name, path, commit and language the caller
    passed, and its [byte_size] metadata is the length of its content.
    The structural walk stamps C# unconditionally and is only run for
    C#. *)
Theorem parse_file_stamps_its_arguments
    (settings : Settings) (sha256_hexdigest : string -> string)
    (parsers : Language -> option Parser)
    (content path repo commit : string) (lang : Language) :
  Forall (fun c =>
            repo_name c = repo /\ file_path c = path
            /\ commit_hash c = commit /\ language c = lang
            /\ VectorStore.metadata_get "byte_size" (metadata c)
               = Some (MInt (Py.len (Models.content c))))
         (parse_file settings sha256_hexdigest parsers content path repo commit
                     lang).
Proof.
  apply parse_file_Forall.
  - intros cur s e. now repeat split.
  - intros -> node. now repeat split.
Qed.

(** X4 ([_generate_chunk_id] as used by [parse_file],
    src/code_parser.py): the identifier of a chunk is computed from
    the repository, the path, the commit and the chunk's start line
    only (0-based), never from its content or end line.  Two chunks of
    one file that start on the same line therefore share their
    identifier. *)
Theorem chunk_id_depends_on_start_line_only
    (settings : Settings) (sha256_hexdigest : string -> string)
    (parsers : Language -> option Parser)
    (content path repo commit : string) (lang : Language) :
  Forall (fun c =>
            id c = _generate_chunk_id sha256_hexdigest repo path
                                      (start_line c - 1) commit)
         (parse_file settings sha256_hexdigest parsers content path repo commit
                     lang)
  /\ forall c1 c2,
       In c1 (parse_file settings sha256_hexdigest parsers content path repo
                         commit lang) ->
       In c2 (parse_file settings sha256_hexdigest parsers content path repo
                         commit lang) ->
       start_line c1 = start_line c2 -> id c1 = id c2.
Proof.
  assert (H : Forall (fun c =>
            id c = _generate_chunk_id sha256_hexdigest repo path
                                      (start_line c - 1) commit)
         (parse_file settings sha256_hexdigest parsers content path repo commit
                     lang)).
  { apply parse_file_Forall.
    - intros cur s e. simpl. f_equal. lia.
    - intros _ node. simpl. f_equal. lia. }
  split; [exact H|].
  rewrite List.Forall_forall in H.
  intros c1 c2 H1 H2 Hs. rewrite (H c1 H1), (H c2 H2), Hs. reflexivity.
Qed.

(** X5 ([_parse_csharp.traverse], src/code_parser.py): what the
    structural walk emits.  Every chunk is a declaration of one of the
    eight target kinds, is stamped C#, holds at least 10 characters
    once stripped, and, when it is a class or a namespace, is at most
    twice [max_chunk_size] long: a larger container is never emitted,
    only its members are. *)
Theorem structural_chunks_are_sized_declarations
    (settings : Settings) (sha256_hexdigest : string -> string)
    (root_node : Node) (content path repo commit : string) :
  Forall (fun c =>
            str_in (chunk_type c) target_types = true
            /\ language c = CSHARP
            /\ 10 <= Py.len (Py.strip (Models.content c))
            /\ (str_in (chunk_type c)
                       ["class_declaration"; "namespace_declaration"] = true ->
                Py.len (Models.content c) <= max_chunk_size settings * 2))
         (_parse_csharp settings sha256_hexdigest root_node content path repo
                        commit).
Proof.
  unfold _parse_csharp. apply walk_Forall_emitted.
  intros [ty sp ep sb eb kids] He. rewrite emitted_unfold in He.
  rewrite !andb_true_iff, !negb_true_iff in He. destruct He as [[Ht Hs] Hb].
  cbn [node_chunk chunk_type language Models.content node_type].
  split; [exact Ht|]. split; [reflexivity|]. split.
  - apply Z.ltb_ge in Hs. exact Hs.
  - intros Hc. rewrite Hc, andb_true_r in Hb. rewrite Z.gtb_ltb in Hb.
    apply Z.ltb_ge in Hb. exact Hb.
Qed.

(** X6 ([_parse_csharp.traverse], [_extract_name],
    src/code_parser.py): the walk never extends [parent_context].
    Every recursive call passes the context it received, and the first
    call passes the empty string, so the [context] metadata of every
    structural chunk is just its own [name], also for a method inside
    a class inside a namespace. *)
Theorem structural_context_is_the_bare_name
    (settings : Settings) (sha256_hexdigest : string -> string)
    (root_node : Node) (content path repo commit : string) :
  Forall (fun c =>
            exists name,
              VectorStore.metadata_get "name" (metadata c) = Some (MStr name)
              /\ VectorStore.metadata_get "context" (metadata c)
                 = Some (MStr name))
         (_parse_csharp settings sha256_hexdigest root_node content path repo
                        commit).
Proof.
  unfold _parse_csharp. apply walk_Forall_emitted.
  intros n _. exists (_extract_name n content). now split.
Qed.

End ChunkFacts.

(* ===================================================================== *)
(** ** Small files and colliding windows *)
(* ===================================================================== *)

Module WindowEdgeFacts.
Import Models CodeParser PyFacts WindowFacts SplitFacts.

Lemma lines_size_nonneg l : 0 <= Spec.lines_size l.
Proof.
  induction l as [|x l IH]; simpl; [lia|].
  pose proof (len_nonneg x). lia.
Qed.

Section Edge.
Variable settings : Settings.
Variable sha256_hexdigest : string -> string.
Variables path repo commit : string.
Variable lang : Language.

Local Abbreviation step :=
  (window_step settings sha256_hexdigest path repo commit lang).
Local Abbreviation loop :=
  (window_loop settings sha256_hexdigest path repo commit lang).
Local Abbreviation mk := (window_chunk sha256_hexdigest path repo commit lang).

Lemma loop_within_budget rest : forall pre,
  Spec.lines_size (pre ++ rest) <= max_chunk_size settings ->
  loop (List.length pre) rest
       {| chunks := []; current_chunk := pre;
          current_size := Spec.lines_size pre; w_start_line := 0 |}
  = {| chunks := []; current_chunk := (pre ++ rest)%list;
       current_size := Spec.lines_size (pre ++ rest); w_start_line := 0 |}.
Proof.
  induction rest as [|line rest IH]; intros pre Hsz.
  - now rewrite app_nil_r.
  - rewrite loop_cons.
    assert (Hstep : step {| chunks := []; current_chunk := pre;
                            current_size := Spec.lines_size pre;
                            w_start_line := 0 |} (List.length pre) line
                    = {| chunks := []; current_chunk := (pre ++ [line])%list;
                         current_size := Spec.lines_size (pre ++ [line]);
                         w_start_line := 0 |}).
    { unfold window_step. cbn [current_size current_chunk chunks w_start_line].
      rewrite lines_size_app in Hsz. cbn [Spec.lines_size] in Hsz.
      pose proof (lines_size_nonneg rest).
      replace (Spec.lines_size pre + (Py.len line + 1) >? max_chunk_size settings)
        with false by (symmetry; rewrite Z.gtb_ltb; apply Z.ltb_ge; lia).
      cbn [andb current_size current_chunk chunks w_start_line].
      rewrite lines_size_app. cbn [Spec.lines_size]. f_equal. lia. }
    rewrite Hstep.
    replace (S (List.length pre)) with (List.length (pre ++ [line]))
      by (rewrite length_app; simpl; lia).
    replace (pre ++ line :: rest)%list with ((pre ++ [line]) ++ rest)%list
      by now rewrite <- app_assoc.
    apply IH. rewrite <- app_assoc. exact Hsz.
Qed.

End Edge.

(** X7 ([_simple_chunking], src/code_parser.py): a file shorter than
    [max_chunk_size] characters becomes exactly one chunk, which holds
    the whole file unchanged and addresses lines 1 to the last. *)
Theorem small_file_is_one_window
    (settings : Settings) (sha256_hexdigest : string -> string)
    (content path repo commit : string) (lang : Language) :
  Py.len content < max_chunk_size settings ->
  _simple_chunking settings sha256_hexdigest content path repo commit lang
  = [ {| id := _generate_chunk_id sha256_hexdigest repo path 0 commit;
         repo_name := repo;
         file_path := path;
         language := lang;
         Models.content := content;
         start_line := 1;
         end_line := Z.of_nat (List.length (Py.split_nl content));
         commit_hash := commit;
         chunk_type := "simple_chunk";
         metadata := [ ("byte_size", MInt (Py.len content)) ] |} ].
Proof.
  intros Hlen. unfold _simple_chunking.
  pose proof (loop_within_budget settings sha256_hexdigest path repo commit lang
                (Py.split_nl content) []) as Hloop.
  cbn [app List.length Spec.lines_size] in Hloop.
  rewrite Hloop by (rewrite len_content; lia).
  cbn [current_chunk chunks w_start_line].
  destruct (Py.split_nl content) as [|l ls] eqn:E.
  { now destruct (split_nl_nonempty content). }
  cbn [List.length Nat.eqb negb app]. unfold window_chunk.
  rewrite <- E, join_split. reflexivity.
Qed.

Lemma small_file_is_one_window_witness :
  map (fun c => (Models.content c, start_line c, end_line c))
      (_simple_chunking Examples.default_settings Examples.reverse_digest
                        Examples.calc_content "Calculator.cs" "test-repo"
                        "abc123" CSHARP)
  = [ (Examples.calc_content, 1, 7) ].
Proof.
  rewrite (small_file_is_one_window Examples.default_settings
             Examples.reverse_digest Examples.calc_content "Calculator.cs"
             "test-repo" "abc123" CSHARP); [reflexivity|].
  vm_compute. reflexivity.
Defined.

(** X8 ([_simple_chunking], [_generate_chunk_id],
    src/code_parser.py): when the lines of a closed chunk all fit in
    the overlap budget, the next chunk restarts on the same line.  For
    a first line that fits the overlap followed by a second line that
    overflows [max_chunk_size], the strategy returns two chunks that
    both start at line 1 and carry the same identifier; the first holds
    line 1 alone, the second both lines. *)
Theorem short_line_then_long_line_share_an_identifier
    (settings : Settings) (sha256_hexdigest : string -> string)
    (l1 l2 path repo commit : string) (lang : Language) :
  Py.split_nl l1 = [l1] ->
  Py.split_nl l2 = [l2] ->
  Py.len l1 + 1 <= chunk_overlap settings ->
  max_chunk_size settings < Py.len l1 + Py.len l2 + 2 ->
  exists c1 c2,
    _simple_chunking settings sha256_hexdigest (Py.join_nl [l1; l2]) path repo
                     commit lang
    = [c1; c2]
    /\ id c1 = id c2
    /\ (start_line c1, end_line c1, Models.content c1) = (1, 1, l1)
    /\ (start_line c2, end_line c2, Models.content c2)
       = (1, 2, Py.join_nl [l1; l2]).
Proof.
  intros H1 H2 Hov Hmax. unfold _simple_chunking.
  rewrite split_join by (repeat constructor; assumption || discriminate).
  cbn [window_loop].
  set (st0 := {| chunks := []; current_chunk := []; current_size := 0;
                 w_start_line := 0 |}).
  assert (E0 : window_step settings sha256_hexdigest path repo commit lang
                           st0 0 l1
               = {| chunks := []; current_chunk := [l1];
                    current_size := 0 + (Py.len l1 + 1); w_start_line := 0 |}).
  { unfold window_step, st0.
    cbn [current_chunk current_size List.length Nat.eqb negb].
    rewrite andb_false_r. reflexivity. }
  rewrite E0. clear E0 st0.
  set (c1 := window_chunk sha256_hexdigest path repo commit lang [l1] 0 1).
  assert (E1 : window_step settings sha256_hexdigest path repo commit lang
                 {| chunks := []; current_chunk := [l1];
                    current_size := 0 + (Py.len l1 + 1); w_start_line := 0 |}
                 1 l2
               = {| chunks := [c1]; current_chunk := [l1; l2];
                    current_size := 0 + (Py.len l1 + 1) + (Py.len l2 + 1);
                    w_start_line := 0 |}).
  { unfold window_step.
    cbn [current_chunk current_size chunks w_start_line List.length Nat.eqb negb].
    destruct (_ >? _) eqn:E;
      [|rewrite Z.gtb_ltb in E; apply Z.ltb_ge in E; lia].
    cbn [andb rev app overlap_loop].
    destruct (_ <=? _) eqn:E2; [|apply Z.leb_gt in E2; lia].
    reflexivity. }
  rewrite E1. clear E1.
  cbn [current_chunk chunks w_start_line List.length Nat.eqb negb app].
  eexists _, _. split; [reflexivity|].
  unfold c1, window_chunk. cbn [id start_line end_line Models.content].
  repeat split.
Qed.

Lemma short_line_then_long_line_share_an_identifier_witness :
  exists c1 c2,
    _simple_chunking Examples.small_settings Examples.reverse_digest
                     (Py.join_nl ["abc"; "defghij"]) "notes.py" "demo" "c1" PYTHON
    = [c1; c2]
    /\ id c1 = id c2
    /\ (start_line c1, end_line c1, Models.content c1) = (1, 1, "abc")
    /\ (start_line c2, end_line c2, Models.content c2)
       = (1, 2, Py.join_nl ["abc"; "defghij"]).
Proof.
  apply (short_line_then_long_line_share_an_identifier Examples.small_settings
           Examples.reverse_digest "abc" "defghij" "notes.py" "demo" "c1" PYTHON);
    vm_compute; reflexivity || discriminate.
Defined.

End WindowEdgeFacts.

(* ===================================================================== *)
(** ** How full the windows are and how much they share *)
(* ===================================================================== *)

Module FillFacts.
Import Models CodeParser PyFacts WindowFacts LiteralFacts OrderFacts.

Lemma last_range_end a a' b cs :
  (Spec.last_range a b cs).2 = (Spec.last_range a' b cs).2.
Proof. destruct cs as [|c cs]; reflexivity. Qed.

Lemma overlaps_within_app overlap lines cs : forall b c,
  Spec.overlaps_within overlap lines b (cs ++ [c])
  = Spec.overlaps_within overlap lines b cs
    && (Spec.lines_size
          (Py.slice lines (Z.to_nat (start_line c - 1))
                    (Z.to_nat (Spec.last_range 1 b cs).2))
        <=? overlap).
Proof.
  induction cs as [|x cs IH]; intros b c.
  - cbn. now rewrite andb_true_r.
  - change ((x :: cs) ++ [c])%list with (x :: (cs ++ [c]))%list.
    cbn [Spec.overlaps_within]. rewrite IH, last_range_cons, andb_assoc.
    now rewrite (last_range_end 1 (start_line x)).
Qed.

Section Fill.
Variable settings : Settings.
Variable sha256_hexdigest : string -> string.
Variables path repo commit : string.
Variable lang : Language.
Variable content : string.

Local Abbreviation lines := (Py.split_nl content).
Local Abbreviation step :=
  (window_step settings sha256_hexdigest path repo commit lang).
Local Abbreviation loop :=
  (window_loop settings sha256_hexdigest path repo commit lang).
Local Abbreviation mk := (window_chunk sha256_hexdigest path repo commit lang).
Local Abbreviation windows :=
  (_simple_chunking settings sha256_hexdigest content path repo commit lang).
Local Abbreviation start :=
  {| chunks := []; current_chunk := []; current_size := 0; w_start_line := 0 |}.

Lemma step_filling pre line rest st :
  lines = (pre ++ line :: rest)%list ->
  Spec.filling settings lines st ->
  Spec.filling settings lines (step st (List.length pre) line).
Proof.
  intros Hl [Hsz Hfull]. unfold Spec.filling, window_step.
  destruct (_ && _) eqn:E.
  - apply andb_true_iff in E as [E1 E2].
    apply negb_true_iff, Nat.eqb_neq in E2.
    destruct (overlap_loop _ _ _ _) as [ol osz] eqn:Eo. simpl.
    apply overlap_loop_suffix in Eo as (k & Hk & -> & ->).
    rewrite app_nil_r, lines_size_app. split; [simpl; lia|].
    apply Forall_app. split; [exact Hfull|]. constructor; [|constructor].
    unfold Spec.full. cbn [end_line window_chunk Models.content].
    rewrite Nat2Z.id, Hl, nth_error_app2, Nat.sub_diag by lia. cbn [nth_error].
    rewrite Z.gtb_ltb in E1. apply Z.ltb_lt in E1. apply Z.ltb_lt.
    rewrite len_join_nl by (intros H; now rewrite H in E2). lia.
  - simpl. rewrite lines_size_app. split; [simpl; lia | exact Hfull].
Qed.

Lemma loop_filling rest : forall pre st,
  lines = (pre ++ rest)%list ->
  Spec.filling settings lines st ->
  Spec.filling settings lines (loop (List.length pre) rest st).
Proof.
  induction rest as [|line rest IH]; intros pre st Hl Hf; [exact Hf|].
  rewrite loop_cons.
  replace (S (List.length pre)) with (List.length (pre ++ [line]))
    by (rewrite length_app; simpl; lia).
  apply IH; [now rewrite <- app_assoc|]. now apply (step_filling pre line rest).
Qed.

Lemma step_overlapping pre line rest st :
  0 <= chunk_overlap settings ->
  lines = (pre ++ line :: rest)%list ->
  Spec.tracks content pre st ->
  Spec.advances (List.length pre) st ->
  Spec.overlapping settings lines st ->
  Spec.overlapping settings lines (step st (List.length pre) line).
Proof.
  intros Hov Hl (Hs & Hcur & _) (_ & _ & _ & H3 & _) [Hin Hlast].
  unfold Spec.overlapping, window_step.
  destruct (_ && _) eqn:E.
  - apply andb_true_iff in E as [_ E].
    apply negb_true_iff, Nat.eqb_neq in E.
    destruct (overlap_loop _ _ _ _) as [ol osz] eqn:Eo. simpl.
    pose proof (overlap_loop_budget _ _ _ _ _ _ Eo Hov) as Hb.
    apply overlap_loop_suffix in Eo as (k & Hk & -> & ->).
    rewrite app_nil_r, length_rev in *.
    rewrite overlaps_within_app, last_range_app. cbn [snd start_line window_chunk].
    rewrite Hin. split.
    + apply andb_true_iff. split; [reflexivity|]. apply Z.leb_le.
      replace (w_start_line st + 1 - 1) with (w_start_line st) by lia.
      exact Hlast.
    + cbn [end_line window_chunk].
      rewrite length_take, length_rev. rewrite kept_suffix in Hb.
      rewrite Hcur, length_drop in Hk. rewrite Hcur, length_drop in E.
      rewrite Hcur, length_drop, drop_drop in Hb. rewrite Hcur, length_drop.
      rewrite Nat2Z.id. unfold Py.slice.
      replace (Z.to_nat (Z.of_nat (List.length pre)
                         - Z.of_nat (k `min` (List.length pre
                                              - Z.to_nat (w_start_line st)))))
        with (List.length pre - k)%nat by lia.
      replace (Z.to_nat (w_start_line st)
               + (List.length pre - Z.to_nat (w_start_line st) - k))%nat
        with (List.length pre - k)%nat in Hb by lia.
      rewrite Hl. rewrite drop_app_le by lia.
      rewrite take_app_le by (rewrite length_drop; lia).
      rewrite take_ge by (rewrite length_drop; lia).
      lia.
  - simpl. split; [exact Hin | exact Hlast].
Qed.

Lemma loop_overlapping rest : forall pre st,
  0 <= chunk_overlap settings ->
  lines = (pre ++ rest)%list ->
  Spec.tracks content pre st ->
  Spec.advances (List.length pre) st ->
  Spec.overlapping settings lines st ->
  Spec.overlapping settings lines (loop (List.length pre) rest st).
Proof.
  induction rest as [|line rest IH]; intros pre st Hov Hl Ht Ha Ho; [exact Ho|].
  rewrite loop_cons.
  replace (S (List.length pre)) with (List.length (pre ++ [line]))
    by (rewrite length_app; simpl; lia).
  apply IH; [exact Hov | now rewrite <- app_assoc | | |].
  - apply step_tracks; [exact Ht | eauto].
  - now apply (step_advances settings sha256_hexdigest path repo commit lang
                 content).
  - now apply (step_overlapping pre line rest).
Qed.

End Fill.

(** X27 ([_simple_chunking], src/code_parser.py): a window is closed
    only when the next line does not fit.  For every chunk but the
    last, the chunk's text, a newline and the line that follows the
    chunk in the file (with its newline) are together longer than
    [max_chunk_size]. *)
Theorem closed_windows_are_full
    (settings : Settings) (sha256_hexdigest : string -> string)
    (content path repo commit : string) (lang : Language) :
  Forall (fun c =>
            exists line,
              nth_error (Py.split_nl content) (Z.to_nat (end_line c)) = Some line
              /\ max_chunk_size settings
                 < Py.len (Models.content c) + 1 + (Py.len line + 1))
         (removelast
            (_simple_chunking settings sha256_hexdigest content path repo commit
                              lang)).
Proof.
  unfold _simple_chunking.
  set (start := {| chunks := []; current_chunk := []; current_size := 0;
                   w_start_line := 0 |}).
  assert (Hf0 : Spec.filling settings (Py.split_nl content) start).
  { split; [reflexivity | constructor]. }
  pose proof (loop_filling settings sha256_hexdigest path repo commit lang content
                (Py.split_nl content) [] start eq_refl Hf0) as [_ Hfull].
  simpl (List.length []) in *.
  assert (Hall : forall cs,
             Forall (fun c => Spec.full settings (Py.split_nl content) c = true) cs ->
             Forall (fun c =>
                       exists line,
                         nth_error (Py.split_nl content) (Z.to_nat (end_line c))
                         = Some line
                         /\ max_chunk_size settings
                            < Py.len (Models.content c) + 1 + (Py.len line + 1))
                    cs).
  { intros cs Hcs. eapply Forall_impl; [exact Hcs|].
    intros c Hc. unfold Spec.full in Hc.
    destruct (nth_error _ _) as [line|]; [|discriminate].
    exists line. split; [reflexivity|]. now apply Z.ltb_lt. }
  destruct (negb _) eqn:E.
  - rewrite removelast_last. now apply Hall.
  - apply negb_false_iff, Nat.eqb_eq in E.
    destruct (loop_current_nonempty settings sha256_hexdigest path repo commit
                lang (Py.split_nl content) 0%nat start (split_nl_nonempty content)).
    now apply length_zero_iff_nil.
Qed.

(** X28 ([_simple_chunking], src/code_parser.py): consecutive windows
    repeat at most [chunk_overlap] characters.  With a non-negative
    overlap setting, the lines a chunk shares with the chunk before
    it, each counted with its newline, never exceed the overlap
    budget. *)
Theorem windows_share_at_most_the_overlap
    (settings : Settings) (sha256_hexdigest : string -> string)
    (content path repo commit : string) (lang : Language) :
  0 <= chunk_overlap settings ->
  Spec.overlaps_within (chunk_overlap settings) (Py.split_nl content) 0
    (_simple_chunking settings sha256_hexdigest content path repo commit lang)
  = true.
Proof.
  intros Hov. unfold _simple_chunking.
  set (start := {| chunks := []; current_chunk := []; current_size := 0;
                   w_start_line := 0 |}).
  assert (Ht0 : Spec.tracks content [] start).
  { unfold Spec.tracks. simpl. split; [lia|]. split; [reflexivity|]. intros c' []. }
  assert (Ha0 : Spec.advances (List.length (@nil string)) start).
  { unfold Spec.advances. simpl. repeat split; try lia. now left. }
  assert (Ho0 : Spec.overlapping settings (Py.split_nl content) start).
  { split; [reflexivity|]. cbn. unfold Py.slice. now rewrite take_0. }
  pose proof (loop_overlapping settings sha256_hexdigest path repo commit lang
                content (Py.split_nl content) [] start Hov eq_refl Ht0 Ha0 Ho0)
    as [Hin Hlast].
  simpl (List.length []) in *.
  destruct (negb _); [|exact Hin].
  rewrite overlaps_within_app, Hin. cbn [andb start_line window_chunk].
  apply Z.leb_le.
  replace (w_start_line _ + 1 - 1) with
    (w_start_line (window_loop settings sha256_hexdigest path repo commit lang 0
                               (Py.split_nl content) start)) by lia.
  exact Hlast.
Qed.

Lemma windows_share_at_most_the_overlap_witness :
  Spec.overlaps_within 4 (Py.split_nl Examples.short_lines) 0
    (_simple_chunking Examples.small_settings Examples.reverse_digest
                      Examples.short_lines "notes.py" "demo" "c1" PYTHON)
  = true.
Proof.
  apply (windows_share_at_most_the_overlap Examples.small_settings
           Examples.reverse_digest Examples.short_lines "notes.py" "demo" "c1"
           PYTHON).
  vm_compute. discriminate.
Defined.

End FillFacts.

(* ===================================================================== *)
(** ** Admission of paths, listings and the clone URL *)
(* ===================================================================== *)

Module AdmissionFacts.
Import Models GitManager PyFacts GitFacts.

Lemma contains_empty s : Py.contains "" s = true.
Proof. destruct s; reflexivity. Qed.

Lemma substring_whole s : substring 0 (String.length s) s = s.
Proof. induction s as [|c s IH]; [reflexivity|]. simpl. now rewrite IH. Qed.

Lemma prefix_app a s : String.prefix a s = true -> exists rest, s = a +:+ rest.
Proof.
  revert s. induction a as [|c a IH]; intros s H.
  - now exists s.
  - destruct s as [|d s]; [discriminate|]. simpl in H.
    destruct (ascii_dec c d) as [->|]; [|discriminate].
    destruct (IH s H) as [rest ->]. exists rest. now rewrite str_app_cons.
Qed.

Lemma prefix_app_true a rest : String.prefix a (a +:+ rest) = true.
Proof.
  induction a as [|c a IH]; [now destruct rest|].
  rewrite str_app_cons. simpl. destruct (ascii_dec c c); [exact IH | congruence].
Qed.

Lemma suffix_of_detected p lang :
  IngestionService._detect_language p = Some lang ->
  In (Py.lower (Py.path_suffix p)) (language_extensions (Language_value lang)).
Proof.
  unfold IngestionService._detect_language.
  repeat match goal with
         | |- context [String.eqb ?a ?b] =>
             destruct (String.eqb_spec a b) as [->|_];
             [intros [= <-]; simpl; auto|]
         end.
  discriminate.
Qed.

Lemma detected_of_suffix p lang :
  In (Py.lower (Py.path_suffix p)) (language_extensions (Language_value lang)) ->
  IngestionService._detect_language p = Some lang.
Proof.
  unfold IngestionService._detect_language. intros Hin.
  destruct lang; simpl in Hin;
    repeat (destruct Hin as [<- | Hin]; [reflexivity|]); destruct Hin.
Qed.

(** X9 ([_should_process_file], src/git_manager.py, against
    [_detect_language], src/ingestion_service.py): the two extension
    tables agree.  A path is accepted exactly when the language
    [_detect_language] finds for it is one the repository tracks and
    no exclusion pattern, stripped of its wildcards, occurs in the
    path.  So the ingestion loop never drops an accepted path for want
    of a language. *)
Theorem admission_agrees_with_language_detection
    (config : RepositoryConfig) (file_path : string) :
  _should_process_file config file_path = true
  <-> (exists lang, IngestionService._detect_language file_path = Some lang
                    /\ In lang (languages config))
      /\ forall pattern,
           In pattern (exclude_patterns config) ->
           Py.contains (Py.replace "/*" "" (Py.replace "*/" "" pattern)) file_path
           = false.
Proof.
  unfold _should_process_file. split.
  - destruct (CodeParser.str_in _ _) eqn:E; [|discriminate]. cbn [negb].
    intros Hall. split.
    + unfold CodeParser.str_in in E. apply existsb_exists in E as (ext & Hin & He).
      apply String.eqb_eq in He. subst ext.
      apply in_flat_map in Hin as (lang & Hl & Hin).
      exists lang. split; [now apply detected_of_suffix | exact Hl].
    + intros pattern Hp. rewrite forallb_forall in Hall.
      apply negb_true_iff. now apply Hall.
  - intros [(lang & Hd & Hl) Hex].
    replace (CodeParser.str_in _ _) with true.
    + cbn [negb]. apply forallb_forall. intros pattern Hp.
      apply negb_true_iff. now apply Hex.
    + symmetry. apply existsb_exists.
      exists (Py.lower (Py.path_suffix file_path)). split; [|apply String.eqb_refl].
      apply in_flat_map. exists lang. split; [exact Hl|].
      now apply suffix_of_detected.
Qed.

(** X10 ([_should_process_file], src/git_manager.py): an exclusion
    pattern that is nothing but wildcards shuts the repository out.
    The pattern is reduced by deleting every ["*/"] and then every
    ["/*"]; when nothing is left (patterns [""], ["*/"], ["/*"]), the
    empty text occurs in every path and no file at all is accepted. *)
Theorem blank_pattern_excludes_every_path
    (config : RepositoryConfig) (pattern file_path : string) :
  In pattern (exclude_patterns config) ->
  Py.replace "/*" "" (Py.replace "*/" "" pattern) = "" ->
  _should_process_file config file_path = false.
Proof.
  intros Hin Hblank. unfold _should_process_file.
  destruct (negb _); [reflexivity|].
  apply not_true_is_false. intros Hall. rewrite forallb_forall in Hall.
  specialize (Hall pattern Hin). rewrite Hblank, contains_empty in Hall.
  discriminate.
Qed.

Lemma blank_pattern_excludes_every_path_witness :
  _should_process_file
    {| name := "demo"; url := "https://example.org/demo.git"; branch := "master";
       local_path := "demo"; enabled := true; languages := [PYTHON];
       exclude_patterns := ["*/"] |}
    "src/util.py" = false.
Proof.
  apply (blank_pattern_excludes_every_path _ "*/"); [now left | reflexivity].
Defined.

Lemma diff_step_old_path config acc d :
  a_path d <> "" ->
  _should_process_file config (a_path d) = false ->
  diff_step config acc d = acc.
Proof.
  intros Ha Hs. destruct acc as [[a m] dl]. unfold diff_step.
  apply String.eqb_neq in Ha. now rewrite Ha, Hs.
Qed.

(** X11 ([get_changed_files], src/git_manager.py): a diff entry is
    judged by its old path alone.  When no entry of the diff has an
    admissible old path, no change at all is reported, whatever the
    change types and the new paths are; a file renamed from an
    excluded or untracked path to an admissible one is not picked
    up. *)
Theorem changes_are_judged_by_old_path
    (config : RepositoryConfig) (repo : GitRepo) (old_commit : string)
    (diff_index : list DiffItem) :
  old_commit <> "" ->
  diff repo old_commit = Some diff_index ->
  Forall (fun d => a_path d <> ""
                   /\ _should_process_file config (a_path d) = false)
         diff_index ->
  get_changed_files config repo (Some old_commit) = (∅, ∅, ∅).
Proof.
  intros Hne Hd Hall. unfold get_changed_files.
  apply String.eqb_neq in Hne. rewrite Hne, Hd. clear Hd.
  generalize ((∅, ∅, ∅) : gset string * gset string * gset string).
  induction Hall as [|d ds [Ha Hs] _ IH]; intros acc; [reflexivity|].
  cbn [fold_left]. rewrite diff_step_old_path by assumption. apply IH.
Qed.

Lemma changes_are_judged_by_old_path_witness :
  _should_process_file Examples.demo_config "src/Gen.cs" = true
  /\ get_changed_files Examples.demo_config Examples.moved_into_scope_repo
                       (Some "c0")
     = (∅, ∅, ∅).
Proof.
  split; [reflexivity|].
  apply (changes_are_judged_by_old_path Examples.demo_config
           Examples.moved_into_scope_repo "c0"
           [ {| a_path := "bin/Gen.cs"; b_path := "src/Gen.cs";
                change_type := "R" |} ]).
  - discriminate.
  - reflexivity.
  - repeat constructor. discriminate.
Defined.

(** X12 ([get_all_files], src/git_manager.py, against the first-run
    branch of [get_changed_files]): the listing and the first-run
    change set are the same files.  A path is listed by
    [get_all_files] exactly when a first run reports it as added, and
    exactly when it is the path of a blob of the tree that passes the
    admission predicate; the listing keeps the order of the tree. *)
Theorem get_all_files_is_the_first_run_set
    (config : RepositoryConfig) (repo : GitRepo) :
  (forall p, In p (get_all_files config repo)
             <-> p ∈ (get_changed_files config repo None).1.1)
  /\ (forall p, In p (get_all_files config repo)
                <-> exists item,
                      In item (tree_items repo)
                      /\ item_type item = "blob"
                      /\ item_path item = p
                      /\ _should_process_file config p = true)
  /\ get_all_files config repo
     = map item_path
           (List.filter (fun item =>
                           String.eqb (item_type item) "blob"
                           && _should_process_file config (item_path item))
                        (tree_items repo)).
Proof.
  assert (Hin : forall p, In p (get_all_files config repo)
                          <-> Spec.in_snapshot config repo p).
  { intros p. unfold get_all_files, Spec.in_snapshot. rewrite in_flat_map.
    split.
    - intros (item & Hitem & Hp).
      destruct (String.eqb (item_type item) "blob") eqn:Et; [|destruct Hp].
      destruct (_should_process_file config (item_path item)) eqn:Es;
        [|destruct Hp].
      destruct Hp as [<- | []]. apply String.eqb_eq in Et. eauto.
    - intros (item & Hitem & Ht & <- & Hs). exists item. split; [exact Hitem|].
      rewrite Ht, Hs. now left. }
  split; [|split].
  - intros p. rewrite Hin, first_run_result. cbn [fst].
    rewrite add_all_files_spec. unfold Spec.in_snapshot. split; [eauto|].
    intros [H | H]; [now apply not_elem_of_empty in H | exact H].
  - exact Hin.
  - unfold get_all_files.
    induction (tree_items repo) as [|item items IH]; [reflexivity|].
    cbn [flat_map List.filter]. rewrite IH.
    now destruct (String.eqb (item_type item) "blob"
                  && _should_process_file config (item_path item)).
Qed.

(** X13 ([_get_authenticated_url], src/git_manager.py): the token goes
    right after the scheme of an HTTPS URL and nowhere else.  Either a
    non-empty token is configured and the URL is ["https://"] followed
    by some rest, and the result is ["https://"], the token, ["@"] and
    that rest; or the result is the configured URL itself (no token,
    an empty token, or any other scheme such as SSH). *)
Theorem authenticated_url_cases
    (git_token : option string) (config : RepositoryConfig) :
  (exists token rest,
      git_token = Some token /\ token <> ""
      /\ url config = "https://" +:+ rest
      /\ _get_authenticated_url git_token config
         = "https://" +:+ token +:+ "@" +:+ rest)
  \/ ((git_token = None \/ git_token = Some ""
       \/ Py.startswith "https://" (url config) = false)
      /\ _get_authenticated_url git_token config = url config).
Proof.
  unfold _get_authenticated_url.
  destruct git_token as [token|]; [|right; auto].
  destruct (String.eqb_spec token "") as [->|Hne]; cbn [negb andb]; [right; auto|].
  destruct (Py.startswith "https://" (url config)) eqn:Ep; [|right; auto].
  left. unfold Py.startswith in Ep. apply prefix_app in Ep as [rest Hrest].
  exists token, rest. rewrite Hrest. repeat split; [exact Hne|].
  assert (Hs : Py.split_once "://" ("https://" +:+ rest) = ["https"; rest]).
  { rewrite !str_app_cons. change ("" +:+ rest) with rest.
    cbn. replace (String.prefix "" rest) with true by now destruct rest.
    rewrite Nat.sub_0_r, substring_whole. reflexivity. }
  rewrite Hs. reflexivity.
Qed.

End AdmissionFacts.

(* ===================================================================== *)
(** ** Counts reported by the store *)
(* ===================================================================== *)

Module CountFacts.
Import Models VectorStore StoreFacts.

Lemma NoDup_map_fst_filter {A B} (f : A * B -> bool) (l : list (A * B)) :
  NoDup (map fst l) -> NoDup (map fst (List.filter f l)).
Proof.
  induction l as [|x l IH]; simpl; intros H; [constructor|].
  apply NoDup_cons in H as [Hx H].
  destruct (f x); simpl; [|now apply IH].
  apply NoDup_cons. split; [|now apply IH].
  intros Hin. apply Hx. apply list_elem_of_In. apply list_elem_of_In in Hin.
  apply in_map_iff in Hin as (y & Hy & Hin). apply filter_In in Hin as [Hin _].
  apply in_map_iff. eauto.
Qed.

Local Abbreviation matching w :=
  (fun kv : string * Entry => w (meta (snd kv)) = true).

Lemma get_ids_length (m : gmap string Entry) (w : Metadata -> bool) :
  List.length (map fst (List.filter (fun kv => w (meta (snd kv))) (map_to_list m)))
  = size (filter (matching w) m).
Proof.
  rewrite <- (size_dom (D := gset string)).
  rewrite <- (size_list_to_set (C := gset string)).
  - f_equal. apply set_eq. intros i.
    rewrite elem_of_list_to_set, elem_of_dom, list_elem_of_In, get_ids_spec.
    split.
    + intros (e & He & Hw). exists e. now apply map_lookup_filter_Some.
    + intros [e He]. apply map_lookup_filter_Some in He as [He Hw]. eauto.
  - apply NoDup_map_fst_filter. apply (NoDup_fst_map_to_list m).
Qed.

Lemma delete_where_count c w :
  reachable c = true ->
  (delete_where c w).2 = Z.of_nat (size (filter (matching w) (entries c))).
Proof.
  intros Hr. rewrite <- get_ids_length.
  unfold delete_where, collection_get, collection_delete. rewrite Hr.
  destruct (map fst _) as [|j ids]; reflexivity.
Qed.

Lemma delete_where_entries c w :
  reachable c = true ->
  entries (delete_where c w).1
  = filter (fun kv => ~ matching w kv) (entries c).
Proof.
  intros Hr. apply map_eq. intros i. rewrite delete_where_lookup by exact Hr.
  symmetry. destruct (entries c !! i) as [e|] eqn:E.
  - destruct (w (meta e)) eqn:Ew.
    + apply map_lookup_filter_None. right. intros e' He'. simpl.
      assert (e' = e) as -> by congruence. tauto.
    + apply map_lookup_filter_Some. split; [exact E|]. simpl. congruence.
  - apply map_lookup_filter_None. now left.
Qed.

Lemma delete_where_size c w :
  reachable c = true ->
  Z.of_nat (size (entries (delete_where c w).1)) + (delete_where c w).2
  = Z.of_nat (size (entries c)).
Proof.
  intros Hr. rewrite delete_where_count, delete_where_entries by exact Hr.
  rewrite <- (map_filter_union_complement (matching w) (entries c)) at 3.
  rewrite map_size_disj_union by apply map_disjoint_filter_complement.
  lia.
Qed.


Lemma count_of_file_matching c repo path :
  count_of_file c repo path
  = size (filter (matching (fun m => String.eqb (m_repo_name m) repo
                                     && String.eqb (m_file_path m) path))
                 (entries c)).
Proof.
  unfold count_of_file, ids_of_file. rewrite size_dom. f_equal.
  apply map_filter_ext. intros i e _. cbn [snd].
  symmetry. apply (by_file_true repo path e).
Qed.

(** X14 ([delete_chunks_by_file], src/vector_store.py): on a store
    that answers, the count returned is exact.  It is the number of
    records the (repository, path) held; afterwards the path holds
    none, the store has shrunk by exactly that number, and every
    record of another file or repository is still there unchanged. *)
Theorem delete_chunks_by_file_count_is_exact
    (c : Collection) (repo path : string) :
  reachable c = true ->
  (delete_chunks_by_file c repo path).2 = Z.of_nat (count_of_file c repo path)
  /\ count_of_file (delete_chunks_by_file c repo path).1 repo path = 0%nat
  /\ (size (entries (delete_chunks_by_file c repo path).1)
      + count_of_file c repo path)%nat
     = size (entries c)
  /\ forall i e,
       entries c !! i = Some e ->
       ~ Spec.of_file repo path e ->
       entries (delete_chunks_by_file c repo path).1 !! i = Some e.
Proof.
  intros Hr. unfold delete_chunks_by_file.
  pose proof (delete_where_size c
                (fun m => String.eqb (m_repo_name m) repo
                          && String.eqb (m_file_path m) path) Hr) as Hsz.
  rewrite delete_where_count in * by exact Hr.
  rewrite <- count_of_file_matching in *.
  split; [reflexivity|]. split; [|split; [lia|]].
  - unfold count_of_file, ids_of_file.
    rewrite size_dom. apply map_size_empty_iff. apply map_eq. intros i.
    rewrite lookup_empty. apply map_lookup_filter_None. right.
    intros e He [H1 H2]. rewrite delete_where_lookup in He by exact Hr.
    destruct (entries c !! i) as [e0|]; [|discriminate].
    destruct (_ && _) eqn:Ew; [discriminate|].
    assert (e0 = e) as -> by congruence.
    cbn [snd] in H1, H2. rewrite H1, H2, !String.eqb_refl in Ew. discriminate.
  - intros i e He Hof. apply delete_where_keeps; [exact He|].
    apply not_true_is_false. intros Hw. now apply Hof, by_file_true.
Qed.

Lemma delete_chunks_by_file_count_is_exact_witness :
  (delete_chunks_by_file Examples.demo_store "demo" "src/util.py").2
  = Z.of_nat (count_of_file Examples.demo_store "demo" "src/util.py")
  /\ count_of_file (delete_chunks_by_file Examples.demo_store "demo"
                                          "src/util.py").1
                   "demo" "src/util.py" = 0%nat.
Proof.
  destruct (delete_chunks_by_file_count_is_exact Examples.demo_store "demo"
              "src/util.py" eq_refl) as (H1 & H2 & _).
  split; [exact H1 | exact H2].
Defined.


Section Add.
Variable embed : string -> bool.

Local Abbreviation first_with i :=
  (List.find (fun ch => String.eqb (id ch) i && embed (_prepare_chunk_text ch))).

Lemma add_record_lookup m r i :
  add_record m r !! i
  = match m !! i with
    | Some e => Some e
    | None => if String.eqb (fst r) i then Some (snd r) else None
    end.
Proof.
  unfold add_record. destruct (String.eqb_spec (fst r) i) as [->|Hne].
  - destruct (m !! i) eqn:E; [exact E|]. apply lookup_insert_eq.
  - destruct (m !! fst r) eqn:Er.
    + now destruct (m !! i).
    + rewrite lookup_insert_ne by exact Hne. now destruct (m !! i).
Qed.

Lemma add_records_lookup records : forall m i,
  fold_left add_record records m !! i
  = match m !! i with
    | Some e => Some e
    | None => option_map snd (List.find (fun r => String.eqb (fst r) i) records)
    end.
Proof.
  induction records as [|r rs IH]; intros m i.
  - simpl. now destruct (m !! i).
  - cbn [fold_left List.find]. rewrite IH, add_record_lookup.
    destruct (m !! i); [reflexivity|].
    now destruct (String.eqb (fst r) i).
Qed.

Lemma find_prepare_records chunks i :
  option_map snd (List.find (fun r => String.eqb (fst r) i)
                            (prepare_records embed chunks))
  = option_map Spec.entry_of (first_with i chunks).
Proof.
  induction chunks as [|ch chunks IH]; [reflexivity|].
  unfold prepare_records in *. cbn [flat_map List.find].
  destruct (embed (_prepare_chunk_text ch)).
  - cbn [app List.find fst]. rewrite andb_true_r.
    destruct (String.eqb (id ch) i); [reflexivity | exact IH].
  - rewrite andb_false_r. exact IH.
Qed.

Lemma add_chunks_lookup c chunks i :
  reachable c = true ->
  entries (add_chunks embed c chunks).1 !! i
  = match entries c !! i with
    | Some e => Some e
    | None => option_map Spec.entry_of (first_with i chunks)
    end.
Proof.
  intros Hr. rewrite add_chunks_ok by exact Hr.
  rewrite add_records_lookup, find_prepare_records. reflexivity.
Qed.

Lemma add_chunks_count c chunks :
  (add_chunks embed c chunks).2
  = if reachable c then Z.of_nat (List.length (prepare_records embed chunks))
    else 0.
Proof.
  unfold add_chunks, collection_add. destruct chunks as [|ch chunks].
  - now destruct (reachable c).
  - destruct (prepare_records embed (ch :: chunks)) as [|r rs];
      destruct (reachable c); reflexivity.
Qed.

Lemma add_records_size records : forall m,
  (size m <= size (fold_left add_record records m)
   <= size m + List.length records)%nat.
Proof.
  induction records as [|r rs IH]; intros m; [simpl; lia|].
  cbn [fold_left List.length]. specialize (IH (add_record m r)).
  assert (size m <= size (add_record m r) <= S (size m))%nat.
  { unfold add_record. destruct (m !! fst r) eqn:E; [lia|].
    rewrite map_size_insert_None by exact E. lia. }
  lia.
Qed.

Lemma prepare_records_length chunks :
  (List.length (prepare_records embed chunks) <= List.length chunks)%nat.
Proof.
  induction chunks as [|ch chunks IH]; [simpl; lia|].
  unfold prepare_records in *. cbn [flat_map]. rewrite length_app.
  destruct (embed _); simpl; lia.
Qed.

End Add.

Lemma find_absent (f : CodeChunk -> bool) chunks i :
  (forall ch, In ch chunks -> id ch <> i) ->
  List.find (fun ch => String.eqb (id ch) i && f ch) chunks = None.
Proof.
  induction chunks as [|x xs IH]; intros Hall; [reflexivity|].
  cbn [List.find].
  replace (String.eqb (id x) i) with false
    by (symmetry; apply String.eqb_neq, Hall; now left).
  cbn [andb]. apply IH. intros ch Hch. apply Hall. now right.
Qed.

Lemma find_unique (f : CodeChunk -> bool) chunks ch :
  NoDup (map id chunks) ->
  In ch chunks ->
  List.find (fun x => String.eqb (id x) (id ch) && f x) chunks
  = if f ch then Some ch else None.
Proof.
  induction chunks as [|x xs IH]; intros Hnd Hin; [destruct Hin|].
  cbn [map] in Hnd. apply NoDup_cons in Hnd as [Hx Hnd].
  assert (Hfresh : forall y, In y xs -> id y <> id x).
  { intros y Hy Heq. apply Hx. rewrite <- Heq.
    apply list_elem_of_In, in_map, Hy. }
  cbn [List.find]. destruct Hin as [-> | Hin].
  - rewrite String.eqb_refl. cbn [andb]. destruct (f ch); [reflexivity|].
    now apply find_absent.
  - replace (String.eqb (id x) (id ch)) with false
      by (symmetry; apply String.eqb_neq; intros Heq;
          now apply (Hfresh ch Hin)).
    cbn [andb]. now apply IH.
Qed.

Lemma find_absent_any (f g : CodeChunk -> bool) chunks i :
  Forall (fun ch => f ch = true) chunks ->
  List.find (fun ch => String.eqb (id ch) i && f ch) chunks = None ->
  List.find (fun ch => String.eqb (id ch) i && g ch) chunks = None.
Proof.
  induction 1 as [|x xs Hx _ IH]; [reflexivity|].
  cbn [List.find]. rewrite Hx, andb_true_r.
  destruct (String.eqb (id x) i); [discriminate|]. exact IH.
Qed.

Lemma prepare_records_filter embed chunks :
  List.length (prepare_records embed chunks)
  = List.length (List.filter (fun ch => embed (_prepare_chunk_text ch)) chunks).
Proof.
  induction chunks as [|ch chunks IH]; [reflexivity|].
  unfold prepare_records in *. cbn [flat_map List.filter]. rewrite length_app, IH.
  now destruct (embed (_prepare_chunk_text ch)).
Qed.

(** X16 ([add_chunks], src/vector_store.py, over the store contract of
    section 6): what a call leaves in the store.  On a store that
    answers and for chunks with pairwise distinct identifiers, every
    record already stored is still there unchanged; a chunk whose
    identifier was unused has its record stored when its embedding
    call returned and has no record when that call raised, the other
    chunks being stored all the same; and no identifier other than
    those of the chunks is touched. *)
Theorem add_chunks_stores_the_embedded_chunks
    (_get_embedding : string -> bool) (c : Collection)
    (chunks : list CodeChunk) :
  reachable c = true ->
  NoDup (map id chunks) ->
  (forall i e,
      entries c !! i = Some e ->
      entries (add_chunks _get_embedding c chunks).1 !! i = Some e)
  /\ (forall ch,
        In ch chunks ->
        entries c !! id ch = None ->
        entries (add_chunks _get_embedding c chunks).1 !! id ch
        = if _get_embedding (_prepare_chunk_text ch)
          then Some (Spec.entry_of ch) else None)
  /\ (forall i,
        (forall ch, In ch chunks -> id ch <> i) ->
        entries (add_chunks _get_embedding c chunks).1 !! i = entries c !! i).
Proof.
  intros Hr Hnd. split; [|split].
  - intros i e He. rewrite add_chunks_lookup by exact Hr. now rewrite He.
  - intros ch Hin Hnone. rewrite add_chunks_lookup by exact Hr.
    rewrite Hnone, (find_unique _ chunks ch Hnd Hin).
    now destruct (_get_embedding (_prepare_chunk_text ch)).
  - intros i Hout. rewrite add_chunks_lookup by exact Hr.
    rewrite (find_absent _ chunks i Hout). now destruct (entries c !! i).
Qed.

Lemma add_chunks_stores_the_embedded_chunks_witness :
  (forall i e,
      entries Examples.demo_store !! i = Some e ->
      entries (add_chunks (fun text => negb (Py.contains "ab" text))
                 Examples.demo_store
                 (CodeParser._simple_chunking Examples.small_settings
                    Examples.reverse_digest Examples.short_lines
                    "notes.py" "demo" "c1" PYTHON)).1 !! i = Some e)
  /\ (forall ch,
        In ch (CodeParser._simple_chunking Examples.small_settings
                 Examples.reverse_digest Examples.short_lines
                 "notes.py" "demo" "c1" PYTHON) ->
        entries Examples.demo_store !! id ch = None ->
        entries (add_chunks (fun text => negb (Py.contains "ab" text))
                   Examples.demo_store
                   (CodeParser._simple_chunking Examples.small_settings
                      Examples.reverse_digest Examples.short_lines
                      "notes.py" "demo" "c1" PYTHON)).1 !! id ch
        = if negb (Py.contains "ab" (_prepare_chunk_text ch))
          then Some (Spec.entry_of ch) else None)
  /\ (forall i,
        (forall ch,
            In ch (CodeParser._simple_chunking Examples.small_settings
                     Examples.reverse_digest Examples.short_lines
                     "notes.py" "demo" "c1" PYTHON) ->
            id ch <> i) ->
        entries (add_chunks (fun text => negb (Py.contains "ab" text))
                   Examples.demo_store
                   (CodeParser._simple_chunking Examples.small_settings
                      Examples.reverse_digest Examples.short_lines
                      "notes.py" "demo" "c1" PYTHON)).1 !! i
        = entries Examples.demo_store !! i).
Proof.
  apply (add_chunks_stores_the_embedded_chunks
           (fun text => negb (Py.contains "ab" text)) Examples.demo_store
           (CodeParser._simple_chunking Examples.small_settings
              Examples.reverse_digest Examples.short_lines
              "notes.py" "demo" "c1" PYTHON)).
  - reflexivity.
  - apply (bool_decide_unpack _). vm_compute. exact I.
Defined.

(** The batch of the witness holds two chunks; the embedding call of
    the first one raises, the second one is stored. *)
Example embedded_chunks_stored :
  map (fun kv => (kv.1, document kv.2))
      (map_to_list
         (entries (add_chunks (fun text => negb (Py.contains "ab" text))
                     {| entries := ∅; reachable := true |}
                     (CodeParser._simple_chunking Examples.small_settings
                        Examples.reverse_digest Examples.short_lines
                        "notes.py" "demo" "c1" PYTHON)).1))
  = [ ("1c:2:yp.seton:om", Py.join_nl ["ef"; "gh"]) ].
Proof. vm_compute. reflexivity. Qed.

(** X17 ([add_chunks], src/vector_store.py, over the store contract of
    section 6): adding the same chunks again changes nothing, and the
    count is not the number of records gained.  On a store that
    answers and for chunks with pairwise distinct identifiers that
    were all embedded in a first call, the first call returns the
    number of chunks, also when some identifiers were already stored;
    a second call with the same chunks leaves the store exactly as the
    first call left it, whichever embedding calls return this time,
    and returns the number of chunks embedded in this second call. *)
Theorem re_adding_embedded_chunks_changes_nothing
    (_get_embedding _get_embedding' : string -> bool) (c : Collection)
    (chunks : list CodeChunk) :
  reachable c = true ->
  NoDup (map id chunks) ->
  Forall (fun ch => _get_embedding (_prepare_chunk_text ch) = true) chunks ->
  (add_chunks _get_embedding c chunks).2 = Z.of_nat (List.length chunks)
  /\ add_chunks _get_embedding' (add_chunks _get_embedding c chunks).1 chunks
     = ((add_chunks _get_embedding c chunks).1,
        Z.of_nat
          (List.length
             (List.filter (fun ch => _get_embedding' (_prepare_chunk_text ch))
                          chunks))).
Proof.
  intros Hr _ Hall. split.
  - rewrite add_chunks_count, Hr, prepare_records_all by exact Hall.
    now rewrite length_map.
  - pose proof (add_chunks_reachable _get_embedding c chunks) as Hr1.
    rewrite Hr in Hr1.
    pose proof (add_chunks_lookup _get_embedding c chunks) as L1.
    destruct (add_chunks _get_embedding c chunks) as [c1 n1]. cbn [fst] in *.
    pose proof (add_chunks_reachable _get_embedding' c1 chunks) as Hr2.
    pose proof (add_chunks_lookup _get_embedding' c1 chunks) as L2.
    pose proof (add_chunks_count _get_embedding' c1 chunks) as Hn2.
    rewrite Hr1, prepare_records_filter in Hn2.
    destruct (add_chunks _get_embedding' c1 chunks) as [c2 n2].
    cbn [fst snd] in *. f_equal; [|exact Hn2].
    assert (He : entries c2 = entries c1).
    { apply map_eq. intros i. rewrite (L2 i Hr1).
      destruct (entries c1 !! i) as [e|] eqn:Ei; [reflexivity|].
      rewrite (L1 i Hr) in Ei.
      destruct (entries c !! i); [discriminate|].
      rewrite (find_absent_any
                 (fun ch => _get_embedding (_prepare_chunk_text ch))
                 (fun ch => _get_embedding' (_prepare_chunk_text ch))
                 chunks i Hall); [reflexivity|].
      now destruct (List.find _ chunks). }
    destruct c1, c2. cbn in *. congruence.
Qed.

Lemma re_adding_embedded_chunks_changes_nothing_witness :
  (add_chunks (fun _ => true) Examples.demo_store
     (CodeParser._simple_chunking Examples.small_settings
        Examples.reverse_digest Examples.short_lines
        "notes.py" "demo" "c1" PYTHON)).2
  = 2
  /\ add_chunks (fun text => negb (Py.contains "ab" text))
       (add_chunks (fun _ => true) Examples.demo_store
          (CodeParser._simple_chunking Examples.small_settings
             Examples.reverse_digest Examples.short_lines
             "notes.py" "demo" "c1" PYTHON)).1
       (CodeParser._simple_chunking Examples.small_settings
          Examples.reverse_digest Examples.short_lines
          "notes.py" "demo" "c1" PYTHON)
     = ((add_chunks (fun _ => true) Examples.demo_store
           (CodeParser._simple_chunking Examples.small_settings
              Examples.reverse_digest Examples.short_lines
              "notes.py" "demo" "c1" PYTHON)).1,
        1).
Proof.
  apply (re_adding_embedded_chunks_changes_nothing (fun _ => true)
           (fun text => negb (Py.contains "ab" text)) Examples.demo_store
           (CodeParser._simple_chunking Examples.small_settings
              Examples.reverse_digest Examples.short_lines
              "notes.py" "demo" "c1" PYTHON)).
  - reflexivity.
  - apply (bool_decide_unpack _). vm_compute. exact I.
  - vm_compute. repeat constructor.
Defined.

(** X18 ([get_stats] against [delete_chunks_by_repo] and [add_chunks],
    src/vector_store.py): the total follows the operations.  On a
    store that answers, [total_chunks] drops by exactly the count
    [delete_chunks_by_repo] returns, and after [add_chunks] it has not
    shrunk and has grown by at most the count returned. *)
Theorem get_stats_follows_the_counts
    (_get_embedding : string -> bool) (c : Collection) (repo : string)
    (chunks : list CodeChunk) :
  reachable c = true ->
  stats_total_chunks (get_stats (delete_chunks_by_repo c repo).1)
  = stats_total_chunks (get_stats c) - (delete_chunks_by_repo c repo).2
  /\ stats_total_chunks (get_stats c)
     <= stats_total_chunks (get_stats (add_chunks _get_embedding c chunks).1)
     <= stats_total_chunks (get_stats c) + (add_chunks _get_embedding c chunks).2.
Proof.
  intros Hr. unfold get_stats, collection_count, delete_chunks_by_repo.
  rewrite delete_where_reachable, add_chunks_reachable, Hr.
  cbn [stats_total_chunks]. split.
  - pose proof (delete_where_size c
                  (fun m => String.eqb (m_repo_name m) repo) Hr). lia.
  - rewrite add_chunks_count, Hr, add_chunks_ok by exact Hr.
    pose proof (add_records_size (prepare_records _get_embedding chunks)
                  (entries c)). lia.
Qed.

Lemma get_stats_follows_the_counts_witness :
  stats_total_chunks (get_stats (delete_chunks_by_repo Examples.demo_store
                                                       "demo").1)
  = stats_total_chunks (get_stats Examples.demo_store)
    - (delete_chunks_by_repo Examples.demo_store "demo").2.
Proof.
  apply (get_stats_follows_the_counts (fun _ => true) Examples.demo_store "demo"
           [] eq_refl).
Defined.

End CountFacts.

(* ===================================================================== *)
(** ** What a pass leaves alone, and what it retires *)
(* ===================================================================== *)

Module FrameFacts.
Import Models VectorStore IngestionService StoreFacts RebuildFacts.

Section Frame.
Variable settings : Settings.
Variable sha256_hexdigest : string -> string.
Variable parsers : Language -> option CodeParser.Parser.
Variable embed : string -> bool.
Variable repo_config : RepositoryConfig.
Variable git : GitManager.GitRepo.
Variable modified_files : gset string.

Local Abbreviation repo := (name repo_config).
Local Abbreviation commit := (GitManager.head_commit git).
Local Abbreviation fresh_of :=
  (Spec.fresh_chunks settings sha256_hexdigest parsers git repo commit).
Local Abbreviation step :=
  (process_file settings sha256_hexdigest parsers embed repo_config git commit
                modified_files).
Local Abbreviation retire := (retire_file repo_config).

Lemma by_file_keeps store q i e :
  entries store !! i = Some e ->
  ~ Spec.of_file repo q e ->
  entries (delete_chunks_by_file store repo q).1 !! i = Some e.
Proof.
  intros He Hof. apply delete_where_keeps; [exact He|].
  apply not_true_is_false. intros Hw. now apply Hof, by_file_true.
Qed.

Lemma retire_keeps stats store q i e :
  entries store !! i = Some e ->
  ~ Spec.of_file repo q e ->
  entries (retire (stats, store) q).2 !! i = Some e.
Proof. rewrite retire_store. apply by_file_keeps. Qed.

Lemma step_keeps stats store q i e :
  entries store !! i = Some e ->
  ~ Spec.of_file repo q e ->
  entries (step (stats, store) q).2 !! i = Some e.
Proof.
  intros He Hof. rewrite step_store. destruct (fresh_of q); [exact He|].
  apply add_chunks_keeps.
  destruct (bool_decide _); [now apply by_file_keeps | exact He].
Qed.

Lemma retire_loop_keeps files i e : forall stats store,
  entries store !! i = Some e ->
  (forall q, In q files -> ~ Spec.of_file repo q e) ->
  entries (fold_left retire files (stats, store)).2 !! i = Some e.
Proof.
  induction files as [|q files IH]; intros stats store He Hof; [exact He|].
  cbn [fold_left].
  destruct (retire (stats, store) q) as [stats' store'] eqn:Er.
  apply IH; [|intros q' Hq'; apply Hof; now right].
  replace store' with (retire (stats, store) q).2 by now rewrite Er.
  apply retire_keeps; [exact He | apply Hof; now left].
Qed.

Lemma step_loop_keeps files i e : forall stats store,
  entries store !! i = Some e ->
  (forall q, In q files -> ~ Spec.of_file repo q e) ->
  entries (fold_left step files (stats, store)).2 !! i = Some e.
Proof.
  induction files as [|q files IH]; intros stats store He Hof; [exact He|].
  cbn [fold_left].
  destruct (step (stats, store) q) as [stats' store'] eqn:Er.
  apply IH; [|intros q' Hq'; apply Hof; now right].
  replace store' with (step (stats, store) q).2 by now rewrite Er.
  apply step_keeps; [exact He | apply Hof; now left].
Qed.

(** No record of the (repository, path) is stored. *)
Local Abbreviation clean p store :=
  (forall i e, entries store !! i = Some e -> ~ Spec.of_file repo p e).

Lemma retire_clean stats store p :
  reachable store = true -> clean p (retire (stats, store) p).2.
Proof.
  intros Hr i e He Hof. rewrite retire_store in He.
  unfold delete_chunks_by_file in He. rewrite delete_where_lookup in He by exact Hr.
  destruct (entries store !! i) as [e0|]; [|discriminate].
  destruct (_ && _) eqn:Ew; [discriminate|].
  assert (e0 = e) as -> by congruence.
  apply by_file_true in Hof. congruence.
Qed.

Lemma retire_stays_clean stats store p q :
  clean p store -> clean p (retire (stats, store) q).2.
Proof.
  intros Hc i e He. rewrite retire_store in He.
  apply delete_where_sub in He. now apply (Hc i).
Qed.

Lemma retire_loop_clean p files : forall stats store,
  reachable store = true ->
  clean p store \/ In p files ->
  clean p (fold_left retire files (stats, store)).2.
Proof.
  induction files as [|q files IH]; intros stats store Hr Hc.
  - destruct Hc as [Hc | []]. exact Hc.
  - cbn [fold_left].
    destruct (retire (stats, store) q) as [stats' store'] eqn:Er.
    assert (Er' : store' = (retire (stats, store) q).2) by now rewrite Er.
    apply IH.
    + rewrite Er', retire_store. unfold delete_chunks_by_file.
      rewrite delete_where_reachable. exact Hr.
    + destruct Hc as [Hc | [-> | Hin]].
      * left. rewrite Er'. now apply retire_stays_clean.
      * left. rewrite Er'. now apply retire_clean.
      * now right.
Qed.

Lemma step_stays_clean stats store p q :
  q <> p -> clean p store -> clean p (step (stats, store) q).2.
Proof.
  intros Hne Hc i e He. rewrite step_store in He.
  destruct (fresh_of q) as [|ch chunks] eqn:Ef; [now apply (Hc i)|].
  apply add_chunks_origin in He as [He | (ch' & Hin & -> & ->)].
  - destruct (bool_decide _); [|now apply (Hc i)].
    apply delete_where_sub in He. now apply (Hc i).
  - rewrite <- Ef in Hin.
    apply (fresh_stamped settings sha256_hexdigest parsers repo_config git)
      in Hin as [_ Hq].
    intros [_ Hp]. congruence.
Qed.

Lemma step_loop_clean p files : forall stats store,
  ~ In p files ->
  clean p store ->
  clean p (fold_left step files (stats, store)).2.
Proof.
  induction files as [|q files IH]; intros stats store Hnin Hc; [exact Hc|].
  cbn [fold_left].
  destruct (step (stats, store) q) as [stats' store'] eqn:Er.
  apply IH; [intros Hin; apply Hnin; now right|].
  replace store' with (step (stats, store) q).2 by now rewrite Er.
  apply step_stays_clean; [|exact Hc].
  intros ->. apply Hnin. now left.
Qed.

Lemma clean_count p store : clean p store -> count_of_file store repo p = 0%nat.
Proof.
  intros Hc. unfold count_of_file, ids_of_file.
  rewrite size_dom. apply map_size_empty_iff. apply map_eq. intros i.
  rewrite lookup_empty. apply map_lookup_filter_None. right.
  intros e He Hof. now apply (Hc i e He).
Qed.

End Frame.

(** X19 ([process_repository], src/ingestion_service.py): a pass
    touches only the files it was told have changed.  It deletes by
    (repository, path) for the paths of the change sets only, and the
    store never replaces a record on insertion.  So whatever the
    outcome of the call, a stored record survives it unchanged when it
    belongs to another repository or to a path that is in none of the
    three change sets, and the state of every other repository stays
    as it was. *)
Theorem pass_leaves_other_records_alone
    (settings : Settings) (sha256_hexdigest : string -> string)
    (parsers : Language -> option CodeParser.Parser)
    (_get_embedding : string -> bool) (utcnow : Z) (write_outcome : WriteOutcome)
    (svc : Service) (repo_config : RepositoryConfig) (git : GitManager.GitRepo)
    (force : bool) :
  (forall i e,
      entries (vector_store svc) !! i = Some e ->
      m_repo_name (meta e) <> name repo_config
      \/ m_file_path (meta e)
         ∉ (GitManager.get_changed_files repo_config git
              (old_commit_of (states svc !! name repo_config) force)).1.1
           ∪ (GitManager.get_changed_files repo_config git
                (old_commit_of (states svc !! name repo_config) force)).1.2
           ∪ (GitManager.get_changed_files repo_config git
                (old_commit_of (states svc !! name repo_config) force)).2 ->
      entries
        (vector_store
           (process_repository settings sha256_hexdigest parsers _get_embedding
                               utcnow write_outcome svc repo_config git force).2)
      !! i = Some e)
  /\ forall other,
       other <> name repo_config ->
       get_repository_state
         (process_repository settings sha256_hexdigest parsers _get_embedding
                             utcnow write_outcome svc repo_config git force).2
         other
       = get_repository_state svc other.
Proof.
  unfold process_repository, get_repository_state.
  destruct (GitManager.clone_or_open git); cbn [negb]; [|split; auto].
  destruct (GitManager.pull_latest git) as [has_changes|]; [|split; auto].
  destruct (_ && _); [split; auto|].
  cbv beta iota zeta.
  destruct (GitManager.get_changed_files repo_config git _)
    as [[added modified] deleted].
  cbn [fst snd].
  destruct (fold_left (retire_file repo_config) (elements deleted) _)
    as [stats0 store0] eqn:Ed.
  destruct (fold_left (process_file _ _ _ _ _ _ _ _) _ _)
    as [stats1 store1] eqn:Ep.
  cbn [fst snd _save_states vector_store states].
  split.
  - intros i e He Hout.
    assert (Hof : forall q, q ∈ added ∪ modified ∪ deleted ->
                            ~ Spec.of_file (name repo_config) q e).
    { intros q Hq [H1 H2]. destruct Hout as [Hout | Hout]; [congruence|].
      apply Hout. now rewrite H2. }
    replace store1 with
      (fold_left (process_file settings sha256_hexdigest parsers _get_embedding
                    repo_config git (GitManager.head_commit git) modified)
                 (elements added ++ elements modified) (stats0, store0)).2
      by now rewrite Ep.
    apply step_loop_keeps.
    + replace store0 with
        (fold_left (retire_file repo_config) (elements deleted)
                   (zero_stats, vector_store svc)).2 by now rewrite Ed.
      apply retire_loop_keeps; [exact He|].
      intros q Hq. apply Hof. apply list_elem_of_In, elem_of_elements in Hq.
      rewrite !elem_of_union. auto.
    + intros q Hq. apply Hof. apply in_app_or in Hq.
      destruct Hq as [Hq | Hq]; apply list_elem_of_In, elem_of_elements in Hq;
        rewrite !elem_of_union; auto.
  - intros other Hne. now apply lookup_insert_ne.
Qed.

(** X20 ([process_repository], src/ingestion_service.py, with
    [delete_chunks_by_file]): a deleted path is retired.  When the
    pass runs (clone and pull succeed, the skip test fails) on a store
    that answers, a path reported as deleted that is not also reported
    as added or modified has no stored chunk left afterwards. *)
Theorem deleted_path_is_retired
    (settings : Settings) (sha256_hexdigest : string -> string)
    (parsers : Language -> option CodeParser.Parser)
    (_get_embedding : string -> bool) (utcnow : Z) (write_outcome : WriteOutcome)
    (svc : Service) (repo_config : RepositoryConfig) (git : GitManager.GitRepo)
    (force has_changes : bool) (path : string) :
  GitManager.clone_or_open git = true ->
  GitManager.pull_latest git = Some has_changes ->
  negb force && truthy (states svc !! name repo_config) && negb has_changes = false ->
  path ∈ (GitManager.get_changed_files repo_config git
            (old_commit_of (states svc !! name repo_config) force)).2 ->
  path ∉ (GitManager.get_changed_files repo_config git
            (old_commit_of (states svc !! name repo_config) force)).1.1
         ∪ (GitManager.get_changed_files repo_config git
              (old_commit_of (states svc !! name repo_config) force)).1.2 ->
  reachable (vector_store svc) = true ->
  count_of_file
    (vector_store
       (process_repository settings sha256_hexdigest parsers _get_embedding utcnow
                           write_outcome svc repo_config git force).2)
    (name repo_config) path
  = 0%nat.
Proof.
  intros Hclone Hpull Hrun Hdel Hnot Hr.
  unfold process_repository. rewrite Hclone, Hpull. cbn [negb].
  cbv beta iota zeta. rewrite Hrun.
  destruct (GitManager.get_changed_files repo_config git _)
    as [[added modified] deleted].
  cbn [fst snd] in Hdel, Hnot.
  destruct (fold_left (retire_file repo_config) (elements deleted) _)
    as [stats0 store0] eqn:Ed.
  destruct (fold_left (process_file _ _ _ _ _ _ _ _) _ _)
    as [stats1 store1] eqn:Ep.
  cbn [fst snd _save_states vector_store].
  apply clean_count.
  replace store1 with
    (fold_left (process_file settings sha256_hexdigest parsers _get_embedding
                  repo_config git (GitManager.head_commit git) modified)
               (elements added ++ elements modified) (stats0, store0)).2
    by now rewrite Ep.
  apply step_loop_clean.
  - intros Hin. apply Hnot. apply in_app_or in Hin.
    destruct Hin as [Hin | Hin]; apply list_elem_of_In, elem_of_elements in Hin;
      rewrite elem_of_union; auto.
  - replace store0 with
      (fold_left (retire_file repo_config) (elements deleted)
                 (zero_stats, vector_store svc)).2 by now rewrite Ed.
    apply retire_loop_clean; [exact Hr|].
    right. now apply list_elem_of_In, elem_of_elements.
Qed.

Lemma deleted_path_is_retired_witness :
  count_of_file
    (vector_store
       (process_repository Examples.default_settings Examples.reverse_digest
          Examples.no_parsers (fun _ => true) 200 WriteCompletes
          Examples.demo_service Examples.demo_config
          Examples.deleted_repo false).2)
    "demo" "src/util.py"
  = 0%nat.
Proof.
  apply (deleted_path_is_retired Examples.default_settings Examples.reverse_digest
           Examples.no_parsers (fun _ => true) 200 WriteCompletes
           Examples.demo_service Examples.demo_config Examples.deleted_repo
           false true "src/util.py").
  - reflexivity.
  - reflexivity.
  - reflexivity.
  - apply (bool_decide_unpack _). vm_compute. exact I.
  - apply (bool_decide_unpack _). vm_compute. exact I.
  - reflexivity.
Defined.

End FrameFacts.

(* ===================================================================== *)
(** ** Statistics, repeated passes, resets and restarts *)
(* ===================================================================== *)

Module RunFacts.
Import Models VectorStore IngestionService StoreFacts RebuildFacts CountFacts.

Lemma delete_where_nonneg c w : 0 <= (delete_where c w).2.
Proof.
  unfold delete_where. destruct (collection_get c w) as [[|j ids]|]; [simpl; lia| |simpl; lia].
  destruct (collection_delete c (j :: ids)); simpl; lia.
Qed.

Lemma add_chunks_nonneg embed c chunks : 0 <= (add_chunks embed c chunks).2.
Proof. rewrite add_chunks_count. destruct (reachable c); lia. Qed.

Section Run.
Variable settings : Settings.
Variable sha256_hexdigest : string -> string.
Variable parsers : Language -> option CodeParser.Parser.
Variable embed : string -> bool.
Variable repo_config : RepositoryConfig.
Variable git : GitManager.GitRepo.
Variable modified_files : gset string.

Local Abbreviation commit := (GitManager.head_commit git).
Local Abbreviation step :=
  (process_file settings sha256_hexdigest parsers embed repo_config git commit
                modified_files).
Local Abbreviation retire := (retire_file repo_config).



Lemma step_stats stats store q :
  Spec.sound_stats stats ->
  Spec.sound_stats (step (stats, store) q).1
  /\ files_deleted (step (stats, store) q).1 = files_deleted stats
  /\ files_processed stats <= files_processed (step (stats, store) q).1
     <= files_processed stats + 1.
Proof.
  intros Hs. unfold process_file.
  destruct (_detect_language q) as [lang|]; [|cbn [fst]; split; [exact Hs | lia]].
  destruct (GitManager.get_file_content git q) as [content|];
    [|cbn [fst]; split; [exact Hs | lia]].
  destruct (String.eqb content ""); [cbn [fst]; split; [exact Hs | lia]|].
  pose proof (ParseFacts.parse_file_not_nil settings sha256_hexdigest parsers
                content q (name repo_config) commit lang) as Hne.
  destruct (CodeParser.parse_file _ _ _ _ _ _ _ _) as [|ch chunks] eqn:Ep;
    [congruence|].
  unfold Spec.sound_stats in *.
  destruct (bool_decide (q ∈ modified_files)).
  - unfold delete_chunks_by_file.
    pose proof (delete_where_nonneg store
                  (fun m => String.eqb (m_repo_name m) (name repo_config)
                            && String.eqb (m_file_path m) q)) as Hn.
    destruct (delete_where store _) as [s1 n1]. cbv beta iota zeta.
    pose proof (add_chunks_nonneg embed s1 (ch :: chunks)) as Ha.
    destruct (add_chunks embed s1 (ch :: chunks)) as [s2 n2].
    cbn [fst snd] in *. cbn. lia.
  - cbv beta iota zeta.
    pose proof (add_chunks_nonneg embed store (ch :: chunks)) as Ha.
    destruct (add_chunks embed store (ch :: chunks)) as [s2 n2].
    cbn [fst snd] in *. cbn. lia.
Qed.

Lemma step_loop_stats files : forall stats store,
  Spec.sound_stats stats ->
  Spec.sound_stats (fold_left step files (stats, store)).1
  /\ files_deleted (fold_left step files (stats, store)).1 = files_deleted stats
  /\ files_processed stats <= files_processed (fold_left step files (stats, store)).1
     <= files_processed stats + Z.of_nat (List.length files).
Proof.
  induction files as [|q files IH]; intros stats store Hs.
  - cbn [fold_left fst List.length]. split; [exact Hs | lia].
  - cbn [fold_left List.length].
    destruct (step_stats stats store q Hs) as (H1 & H2 & H3).
    destruct (step (stats, store) q) as [stats' store']. cbn [fst] in *.
    destruct (IH stats' store' H1) as (H4 & H5 & H6).
    split; [exact H4|]. split; lia.
Qed.

End Run.

Lemma zero_stats_sound : Spec.sound_stats zero_stats.
Proof. unfold Spec.sound_stats. cbn. lia. Qed.



Section Service.
Variable settings : Settings.
Variable sha256_hexdigest : string -> string.
Variable parsers : Language -> option CodeParser.Parser.
Variable embed : string -> bool.
Variable utcnow : Z.
Variable write_outcome : WriteOutcome.

Local Abbreviation pass :=
  (process_repository settings sha256_hexdigest parsers embed utcnow write_outcome).
Local Abbreviation reset := (reset_repository write_outcome).
Local Abbreviation batch_step :=
  (process_one settings sha256_hexdigest parsers embed utcnow write_outcome).
Local Abbreviation batch :=
  (process_all_repositories settings sha256_hexdigest parsers embed utcnow
                            write_outcome).

Lemma pass_leaves_a_state svc repo_config git force stats :
  (pass svc repo_config git force).1 = Ok stats ->
  truthy (states (pass svc repo_config git force).2 !! name repo_config) = true.
Proof.
  unfold process_repository.
  destruct (GitManager.clone_or_open git); cbn [negb fst]; [|discriminate].
  destruct (GitManager.pull_latest git) as [has_changes|]; [|discriminate].
  destruct (_ && _) eqn:E.
  { intros _. apply andb_true_iff in E as [E _]. now apply andb_true_iff in E as [_ E]. }
  cbv beta iota zeta.
  destruct (GitManager.get_changed_files repo_config git _)
    as [[added modified] deleted].
  destruct (fold_left (process_file _ _ _ _ _ _ _ _) _ _) as [stats1 store1].
  intros _. cbn [snd _save_states states]. now rewrite lookup_insert_eq.
Qed.

Lemma pass_raises svc repo_config git force :
  GitManager.clone_or_open git = false \/ GitManager.pull_latest git = None ->
  exists error, pass svc repo_config git force = (Raise error, svc).
Proof.
  unfold process_repository. intros [-> | Hp]; cbn [negb]; [eauto|].
  destruct (GitManager.clone_or_open git); cbn [negb]; [|eauto].
  rewrite Hp. eauto.
Qed.

Lemma reset_states svc repo :
  states (reset svc repo).2 = delete repo (states svc).
Proof.
  unfold reset_repository.
  destruct (delete_chunks_by_repo (vector_store svc) repo) as [store n].
  destruct (states svc !! repo) eqn:Es; cbn; [reflexivity|].
  symmetry. now apply delete_id.
Qed.

Lemma batch_service_indep l : forall r1 r2 s force,
  (fold_left (batch_step force) l (r1, s)).2
  = (fold_left (batch_step force) l (r2, s)).2.
Proof.
  induction l as [|[cfg git] l IH]; intros r1 r2 s force; [reflexivity|].
  cbn [fold_left]. unfold process_one at 2 4.
  destruct (negb (enabled cfg)); [apply IH|].
  destruct (pass s cfg git force) as [outcome s']. apply IH.
Qed.

Lemma batch_keys l n force : forall results s,
  is_Some ((fold_left (batch_step force) l (results, s)).1 !! n)
  <-> is_Some (results !! n) \/ In n (Spec.enabled_names l).
Proof.
  induction l as [|[cfg git] l IH]; intros results s.
  - cbn. tauto.
  - cbn [fold_left]. unfold process_one at 2. unfold Spec.enabled_names in *.
    cbn [List.filter fst].
    destruct (enabled cfg); cbn [negb].
    + destruct (pass s cfg git force) as [outcome s']. rewrite IH.
      cbn [map fst In]. rewrite lookup_insert_is_Some'. tauto.
    + rewrite IH. tauto.
Qed.

End Service.

(** X22 ([process_repository], src/ingestion_service.py): no work on
    an unchanged head.  After any call that returned statistics, the
    repository has a state; a following call without [force] whose
    pull reports no new commit returns all-zero statistics and leaves
    the store, the states and the state file exactly as they were. *)
Theorem second_pass_on_unchanged_head_is_a_no_op
    (settings : Settings) (sha256_hexdigest : string -> string)
    (parsers : Language -> option CodeParser.Parser)
    (_get_embedding : string -> bool) (utcnow utcnow' : Z)
    (write_outcome write_outcome' : WriteOutcome)
    (svc : Service) (repo_config : RepositoryConfig)
    (git git' : GitManager.GitRepo) (force : bool) (stats : Stats) :
  (process_repository settings sha256_hexdigest parsers _get_embedding utcnow
                      write_outcome svc repo_config git force).1
  = Ok stats ->
  GitManager.clone_or_open git' = true ->
  GitManager.pull_latest git' = Some false ->
  process_repository settings sha256_hexdigest parsers _get_embedding utcnow'
    write_outcome'
    (process_repository settings sha256_hexdigest parsers _get_embedding utcnow
                        write_outcome svc repo_config git force).2
    repo_config git' false
  = (Ok zero_stats,
     (process_repository settings sha256_hexdigest parsers _get_embedding utcnow
                         write_outcome svc repo_config git force).2).
Proof.
  intros Hok Hclone Hpull.
  apply pass_leaves_a_state in Hok.
  unfold process_repository at 1. rewrite Hclone, Hpull. cbn [negb andb].
  rewrite Hok. reflexivity.
Qed.

Lemma second_pass_on_unchanged_head_is_a_no_op_witness :
  (process_repository Examples.default_settings Examples.reverse_digest
     Examples.no_parsers (fun _ => true) 300 WriteCompletes
     (process_repository Examples.default_settings Examples.reverse_digest
        Examples.no_parsers (fun _ => true) 200 WriteCompletes
        Examples.demo_service Examples.demo_config
        (Examples.modified_repo Examples.readable_files) false).2
     Examples.demo_config Examples.unchanged_repo false).1
  = Ok zero_stats.
Proof.
  rewrite (second_pass_on_unchanged_head_is_a_no_op Examples.default_settings
             Examples.reverse_digest Examples.no_parsers (fun _ => true) 200 300
             WriteCompletes WriteCompletes Examples.demo_service
             Examples.demo_config (Examples.modified_repo Examples.readable_files)
             Examples.unchanged_repo false
             {| files_processed := 1; files_added := 0; files_modified := 1;
                files_deleted := 0; chunks_added := 1; chunks_deleted := 2 |});
    [reflexivity | vm_compute; reflexivity | reflexivity | reflexivity].
Defined.

(** X23 ([reset_repository] then [process_repository],
    src/ingestion_service.py): a reset forces a complete reindex.
    After [reset_repository] the repository has no state, so the next
    pass is never skipped and works from the whole tree: it gives the
    same result and the same service with and without [force], whether
    or not the pull brought new commits. *)
Theorem reset_forces_a_full_reindex
    (settings : Settings) (sha256_hexdigest : string -> string)
    (parsers : Language -> option CodeParser.Parser)
    (_get_embedding : string -> bool) (utcnow : Z)
    (write_outcome write_outcome' : WriteOutcome)
    (svc : Service) (repo_config : RepositoryConfig) (git : GitManager.GitRepo) :
  get_repository_state (reset_repository write_outcome svc (name repo_config)).2
                       (name repo_config)
  = None
  /\ process_repository settings sha256_hexdigest parsers _get_embedding utcnow
       write_outcome'
       (reset_repository write_outcome svc (name repo_config)).2
       repo_config git false
     = process_repository settings sha256_hexdigest parsers _get_embedding utcnow
         write_outcome'
         (reset_repository write_outcome svc (name repo_config)).2
         repo_config git true
  /\ forall has_changes stats,
       GitManager.clone_or_open git = true ->
       GitManager.pull_latest git = Some has_changes ->
       (process_repository settings sha256_hexdigest parsers _get_embedding utcnow
          write_outcome'
          (reset_repository write_outcome svc (name repo_config)).2
          repo_config git false).1
       = Ok stats ->
       files_deleted stats = 0
       /\ last_commit_hash
            <$> get_repository_state
                  (process_repository settings sha256_hexdigest parsers
                     _get_embedding utcnow write_outcome'
                     (reset_repository write_outcome svc (name repo_config)).2
                     repo_config git false).2
                  (name repo_config)
          = Some (Some (GitManager.head_commit git)).
Proof.
  assert (Hs : states (reset_repository write_outcome svc (name repo_config)).2
               !! name repo_config = None).
  { rewrite reset_states. apply lookup_delete_eq. }
  split; [exact Hs|].
  unfold process_repository, get_repository_state. rewrite Hs.
  cbn [truthy old_commit_of andb negb].
  split; [reflexivity|].
  intros has_changes stats -> ->. cbn [negb].
  rewrite GitFacts.first_run_result. cbv beta iota zeta.
  rewrite elements_empty. cbn [fold_left].
  pose proof (step_loop_stats settings sha256_hexdigest parsers _get_embedding
                repo_config git ∅
                (elements (GitManager.add_all_files repo_config
                             (GitManager.tree_items git) ∅) ++ [])
                zero_stats
                (vector_store (reset_repository write_outcome svc
                                 (name repo_config)).2)
                zero_stats_sound) as (_ & H & _).
  destruct (fold_left (process_file _ _ _ _ _ _ _ _) _ _) as [stats1 store1].
  cbn [fst snd] in *. intros [= <-]. split; [exact H|].
  cbn [_save_states states]. now rewrite lookup_insert_eq.
Qed.

(** X24 ([_save_states], [_load_states], [__init__],
    [process_repository], src/ingestion_service.py): what a restarted
    process finds after a pass that ran.  If the state file was
    written, the new process loads exactly the states the old one
    held.  If the dump failed after the file was opened, it loads no
    state at all, for any repository, and will reindex each of them
    from scratch.  If the file could not be opened, it loads what the
    file held before the pass. *)
Theorem restart_after_a_pass
    (settings : Settings) (sha256_hexdigest : string -> string)
    (parsers : Language -> option CodeParser.Parser)
    (_get_embedding : string -> bool) (utcnow : Z) (write_outcome : WriteOutcome)
    (svc : Service) (repo_config : RepositoryConfig) (git : GitManager.GitRepo)
    (force has_changes : bool) :
  GitManager.clone_or_open git = true ->
  GitManager.pull_latest git = Some has_changes ->
  negb force && truthy (states svc !! name repo_config) && negb has_changes = false ->
  get_all_states
    (__init__
       (vector_store
          (process_repository settings sha256_hexdigest parsers _get_embedding
                              utcnow write_outcome svc repo_config git force).2)
       (state_file
          (process_repository settings sha256_hexdigest parsers _get_embedding
                              utcnow write_outcome svc repo_config git force).2))
  = match write_outcome with
    | WriteCompletes =>
        get_all_states
          (process_repository settings sha256_hexdigest parsers _get_embedding
                              utcnow write_outcome svc repo_config git force).2
    | DumpRaises => ∅
    | OpenRaises => _load_states (state_file svc)
    end.
Proof.
  intros Hclone Hpull Hrun.
  unfold process_repository. rewrite Hclone, Hpull. cbn [negb].
  cbv beta iota zeta. rewrite Hrun.
  destruct (GitManager.get_changed_files repo_config git _)
    as [[added modified] deleted].
  destruct (fold_left (process_file _ _ _ _ _ _ _ _) _ _) as [stats1 store1].
  cbn [snd]. unfold get_all_states, __init__, _save_states.
  cbn [states state_file vector_store]. now destruct write_outcome.
Qed.

Lemma restart_after_a_pass_witness :
  get_all_states
    (__init__
       (vector_store
          (process_repository Examples.default_settings Examples.reverse_digest
             Examples.no_parsers (fun _ => true) 200 DumpRaises
             Examples.demo_service Examples.demo_config
             (Examples.modified_repo Examples.readable_files) false).2)
       (state_file
          (process_repository Examples.default_settings Examples.reverse_digest
             Examples.no_parsers (fun _ => true) 200 DumpRaises
             Examples.demo_service Examples.demo_config
             (Examples.modified_repo Examples.readable_files) false).2))
  = ∅.
Proof.
  apply (restart_after_a_pass Examples.default_settings Examples.reverse_digest
           Examples.no_parsers (fun _ => true) 200 DumpRaises
           Examples.demo_service Examples.demo_config
           (Examples.modified_repo Examples.readable_files) false true);
    reflexivity.
Defined.

(** X25 ([process_all_repositories], src/ingestion_service.py): the
    batch reports on the enabled repositories and on nothing else.
    When the configuration loads, the call returns a result map, never
    an exception, and a name has an entry in it exactly when an
    enabled repository of the configuration carries that name;
    when the configuration does not load, the call raises and the
    service is untouched. *)
Theorem batch_reports_the_enabled_repositories
    (settings : Settings) (sha256_hexdigest : string -> string)
    (parsers : Language -> option CodeParser.Parser)
    (_get_embedding : string -> bool) (utcnow : Z) (write_outcome : WriteOutcome)
    (svc : Service) (force : bool) :
  (forall repositories,
      exists results,
        (process_all_repositories settings sha256_hexdigest parsers _get_embedding
           utcnow write_outcome svc (Ok repositories) force).1
        = Ok results
        /\ forall n, is_Some (results !! n)
                     <-> In n (Spec.enabled_names repositories))
  /\ forall error,
       process_all_repositories settings sha256_hexdigest parsers _get_embedding
         utcnow write_outcome svc (Raise error) force
       = (Raise error, svc).
Proof.
  split; [|reflexivity].
  intros repositories. unfold process_all_repositories.
  pose proof (batch_keys settings sha256_hexdigest parsers _get_embedding utcnow
                write_outcome repositories) as Hk.
  destruct (fold_left _ repositories (∅, svc)) as [results svc'] eqn:E.
  exists results. split; [reflexivity|]. intros n.
  specialize (Hk n force ∅ svc). rewrite E in Hk. cbn [fst] in Hk.
  rewrite Hk, lookup_empty. split; [intros [[x Hx] | H]; [discriminate | exact H] | auto].
Qed.

(** X26 ([process_all_repositories], [process_repository],
    src/ingestion_service.py): one repository's failure does not
    disturb the batch.  When the clone or the pull of an enabled
    repository raises, the service after the whole batch is the one
    the batch would have produced without that repository: the
    repositories after it are still processed, from the same store
    and states. *)
Theorem batch_survives_a_failing_repository
    (settings : Settings) (sha256_hexdigest : string -> string)
    (parsers : Language -> option CodeParser.Parser)
    (_get_embedding : string -> bool) (utcnow : Z) (write_outcome : WriteOutcome)
    (svc : Service) (force : bool)
    (before after : list (RepositoryConfig * GitManager.GitRepo))
    (repo_config : RepositoryConfig) (git : GitManager.GitRepo) :
  GitManager.clone_or_open git = false \/ GitManager.pull_latest git = None ->
  (process_all_repositories settings sha256_hexdigest parsers _get_embedding
     utcnow write_outcome svc
     (Ok (before ++ (repo_config, git) :: after)%list) force).2
  = (process_all_repositories settings sha256_hexdigest parsers _get_embedding
       utcnow write_outcome svc (Ok (before ++ after)%list) force).2.
Proof.
  intros Hfail. unfold process_all_repositories.
  rewrite !fold_left_app. cbn [fold_left].
  destruct (fold_left _ before (∅, svc)) as [results0 svc0].
  assert (Hstep : exists results1,
             process_one settings sha256_hexdigest parsers _get_embedding utcnow
                         write_outcome force (results0, svc0) (repo_config, git)
             = (results1, svc0)).
  { unfold process_one. destruct (negb (enabled repo_config)); [eauto|].
    destruct (pass_raises settings sha256_hexdigest parsers _get_embedding utcnow
                write_outcome svc0 repo_config git force Hfail) as [error ->].
    eauto. }
  destruct Hstep as [results1 ->].
  pose proof (batch_service_indep settings sha256_hexdigest parsers _get_embedding
                utcnow write_outcome after results1 results0 svc0 force) as H.
  destruct (fold_left _ after (results1, svc0)) as [r1 s1].
  destruct (fold_left _ after (results0, svc0)) as [r2 s2].
  exact H.
Qed.

Lemma batch_survives_a_failing_repository_witness :
  (process_all_repositories Examples.default_settings Examples.reverse_digest
     Examples.no_parsers (fun _ => true) 200 WriteCompletes Examples.demo_service
     (Ok [ (Examples.demo_config, Examples.unreachable_repo);
           (Examples.demo_config,
            Examples.modified_repo Examples.readable_files) ])
     false).2
  = (process_all_repositories Examples.default_settings Examples.reverse_digest
       Examples.no_parsers (fun _ => true) 200 WriteCompletes Examples.demo_service
       (Ok [ (Examples.demo_config,
              Examples.modified_repo Examples.readable_files) ])
       false).2.
Proof.
  apply (batch_survives_a_failing_repository Examples.default_settings
           Examples.reverse_digest Examples.no_parsers (fun _ => true) 200
           WriteCompletes Examples.demo_service false []
           [ (Examples.demo_config,
              Examples.modified_repo Examples.readable_files) ]
           Examples.demo_config Examples.unreachable_repo).
  left. reflexivity.
Defined.

End RunFacts.

(* ===================================================================== *)
(** ** A forced pass reaches every admissible file *)
(* ===================================================================== *)

Module ForcedFacts.
Import Models VectorStore IngestionService StoreFacts RebuildFacts GitFacts.

Section Forced.
Variable settings : Settings.
Variable sha256_hexdigest : string -> string.
Variable parsers : Language -> option CodeParser.Parser.
Variable embed : string -> bool.
Variable repo_config : RepositoryConfig.
Variable git : GitManager.GitRepo.

Local Abbreviation commit := (GitManager.head_commit git).
Local Abbreviation step :=
  (process_file settings sha256_hexdigest parsers embed repo_config git commit ∅).

(** The path is admissible and its content can be read and is not
    empty. *)
Local Abbreviation ready q :=
  (GitManager._should_process_file repo_config q = true
   /\ exists content, GitManager.get_file_content git q = Some content
                      /\ content <> "").



End Forced.



End ForcedFacts.

(* ===================================================================== *)
(** ** The ingest command against the batch *)
(* ===================================================================== *)

Module CliFacts.
Import Models VectorStore IngestionService Cli.

Lemma batch_skips_disabled settings sha256_hexdigest parsers embed utcnow
    write_outcome force repositories : forall results svc,
  Forall (fun repo => enabled (fst repo) = false) repositories ->
  fold_left (process_one settings sha256_hexdigest parsers embed utcnow
                         write_outcome force)
            repositories (results, svc)
  = (results, svc).
Proof.
  induction repositories as [|[cfg git] l IH]; intros results svc Hall;
    [reflexivity|].
  apply Forall_cons in Hall as [Hd Hall]. cbn [fst] in Hd.
  cbn [fold_left]. unfold process_one at 2. rewrite Hd. cbn [negb].
  now apply IH.
Qed.

(** X29 ([cmd_ingest], cli.py, against [process_all_repositories],
    src/ingestion_service.py): the command line ignores the [enabled]
    flag when a repository is named.  With every repository of the
    configuration disabled, [ingest] without a name does nothing and
    exits with 0, while [ingest --repo-name] runs the full pass of
    [process_repository] on the first repository carrying that name. *)
Theorem named_ingest_ignores_the_enabled_flag
    (settings : Settings) (sha256_hexdigest : string -> string)
    (parsers : Language -> option CodeParser.Parser)
    (_get_embedding : string -> bool) (utcnow : Z) (write_outcome : WriteOutcome)
    (store : Collection) (file : StateFile)
    (repositories : list (RepositoryConfig * GitManager.GitRepo))
    (repo_config : RepositoryConfig) (git : GitManager.GitRepo) (force : bool) :
  Forall (fun repo => enabled (fst repo) = false) repositories ->
  name repo_config <> "" ->
  List.find (fun repo => String.eqb (name (fst repo)) (name repo_config))
            repositories
  = Some (repo_config, git) ->
  cmd_ingest settings sha256_hexdigest parsers _get_embedding utcnow write_outcome
             store file (Ok repositories) None force
  = (Ok 0, __init__ store file)
  /\ (cmd_ingest settings sha256_hexdigest parsers _get_embedding utcnow
                 write_outcome store file (Ok repositories)
                 (Some (name repo_config)) force).2
     = (process_repository settings sha256_hexdigest parsers _get_embedding utcnow
                           write_outcome (__init__ store file) repo_config git
                           force).2.
Proof.
  intros Hall Hne Hfind. unfold cmd_ingest. cbv zeta. split.
  - unfold process_all_repositories.
    now rewrite batch_skips_disabled by exact Hall.
  - apply String.eqb_neq in Hne. rewrite Hne, Hfind.
    now destruct (process_repository _ _ _ _ _ _ _ _ _ _) as [[stats|error] svc'].
Qed.

Lemma named_ingest_ignores_the_enabled_flag_witness :
  cmd_ingest Examples.default_settings Examples.reverse_digest Examples.no_parsers
             (fun _ => true) 200 WriteCompletes Examples.demo_store Absent
             (Ok [ (Examples.disabled_config,
                    Examples.modified_repo Examples.readable_files) ])
             None false
  = (Ok 0, __init__ Examples.demo_store Absent)
  /\ (cmd_ingest Examples.default_settings Examples.reverse_digest
                 Examples.no_parsers (fun _ => true) 200 WriteCompletes
                 Examples.demo_store Absent
                 (Ok [ (Examples.disabled_config,
                        Examples.modified_repo Examples.readable_files) ])
                 (Some "demo") false).2
     = (process_repository Examples.default_settings Examples.reverse_digest
          Examples.no_parsers (fun _ => true) 200 WriteCompletes
          (__init__ Examples.demo_store Absent) Examples.disabled_config
          (Examples.modified_repo Examples.readable_files) false).2.
Proof.
  apply (named_ingest_ignores_the_enabled_flag Examples.default_settings
           Examples.reverse_digest Examples.no_parsers (fun _ => true) 200
           WriteCompletes Examples.demo_store Absent
           [ (Examples.disabled_config,
              Examples.modified_repo Examples.readable_files) ]
           Examples.disabled_config
           (Examples.modified_repo Examples.readable_files) false).
  - repeat constructor.
  - discriminate.
  - reflexivity.
Defined.

End CliFacts.
